(** * certman-operator: the ClusterDeployment reconciler

    A shallow embedding of
    [controllers/clusterdeployment/clusterdeployment_controller.go]
    and the properties of its reconciliation pass.

    Go strings are byte strings: [string].  Go maps are [gmap]s, slices are
    lists (a nil slice and an empty one are both [[]]; [reflect.DeepEqual]
    tells them apart, which makes no difference at its two uses, see
    [syncOne] and [applyDesired]).  The resource store behind [r.Client] is
    explicit state, see [World]. *)

From Stdlib Require Import ZArith Ascii String.
From stdpp Require Import base option list gmap strings fin_maps.

Local Open Scope string_scope.
Local Open Scope list_scope.
Local Open Scope stdpp_scope.

(** ** The parts of Go's [strings] package the controller uses *)

Module strings.

(** [strings.HasPrefix(s, prefix)]. *)
Fixpoint HasPrefix (s prefix : string) : bool :=
  match prefix, s with
  | EmptyString, _ => true
  | String _ _, EmptyString => false
  | String p prefix', String c s' =>
      if Ascii.eqb c p then HasPrefix s' prefix' else false
  end.

(** The slice expression [s[n:]] for [n <= len(s)]. *)
Fixpoint sliceFrom (n : nat) (s : string) : string :=
  match n, s with
  | O, _ => s
  | S _, EmptyString => EmptyString
  | S n', String _ s' => sliceFrom n' s'
  end.

(** [strings.TrimPrefix(s, prefix)]: [s] without the leading [prefix],
    or [s] itself when it does not start with [prefix]. *)
Definition TrimPrefix (s prefix : string) : string :=
  if HasPrefix s prefix then sliceFrom (String.length prefix) s else s.

(** One byte of [strings.ToLower] on its ASCII path: ['A'..'Z'] move to
    ['a'..'z'], every other byte is kept. *)
Definition toLowerByte (c : ascii) : ascii :=
  let n := N_of_ascii c in
  if ((65 <=? n) && (n <=? 90))%N then ascii_of_N (n + 32) else c.

(** Whether every byte of [s] is below [utf8.RuneSelf], the test that
    opens [strings.ToLower]. *)
Fixpoint isASCII (s : string) : bool :=
  match s with
  | EmptyString => true
  | String c s' => (N_of_ascii c <? 128)%N && isASCII s'
  end.

(** The path of [strings.ToLower] for a string of ASCII bytes: byte by
    byte. *)
Fixpoint lowerASCII (s : string) : string :=
  match s with
  | EmptyString => EmptyString
  | String c s' => String (toLowerByte c) (lowerASCII s')
  end.

(** [strings.ToLower(s)].  A string of ASCII bytes is lowered byte by
    byte; any other string goes through [strings.Map(unicode.ToLower, s)],
    which works on runes with the Unicode tables of the library.  The
    tables are not part of this development: that path is the parameter
    [mapLower]. *)
Definition ToLower (mapLower : string → string) (s : string) : string :=
  if isASCII s then lowerASCII s else mapLower s.

(** [strings.Split(s, sep)] for a separator [sep] of one byte: the
    pieces of [s] between the occurrences of [sep]; there is always at
    least one piece. *)
Fixpoint Split (s : string) (sep : ascii) : list string :=
  match s with
  | EmptyString => [EmptyString]
  | String c s' =>
      if Ascii.eqb c sep then EmptyString :: Split s' sep
      else match Split s' sep with
           | piece :: pieces => String c piece :: pieces
           | [] => [String c EmptyString]
           end
  end.

End strings.

(** ** Data model: hivev1.ClusterDeployment *)

Record CertificateBundleSpec := {
  cb_Name : string;
  cb_Generate : bool;
  cb_CertificateSecretRef_Name : string;
}.

Record ControlPlaneAdditionalCertificate := {
  ac_Name : string;
  ac_Domain : string;
}.

Record ClusterIngress := {
  ing_Name : string;
  ing_Domain : string;
  ing_ServingCertificate : string;
}.

Record AWSPlatform := {
  aws_CredentialsSecretRef_Name : string;
  aws_Region : string;
}.

Record AzurePlatform := {
  azure_CredentialsSecretRef_Name : string;
  azure_BaseDomainResourceGroupName : string;
}.

Record GCPPlatform := {
  gcp_CredentialsSecretRef_Name : string;
}.

(** [hivev1.Platform]: one pointer per cloud, nil when it is not used. *)
Record Platform := {
  plat_AWS : option AWSPlatform;
  plat_Azure : option AzurePlatform;
  plat_GCP : option GCPPlatform;
}.

Record CertificateBundleStatus := {
  cbs_Name : string;
  cbs_Generated : bool;
}.

Record ClusterDeploymentSpec := {
  spec_ClusterName : string;
  spec_BaseDomain : string;
  spec_Installed : bool;
  spec_ServingCertificates_Default : string;
  spec_ServingCertificates_Additional : list ControlPlaneAdditionalCertificate;
  spec_Ingress : list ClusterIngress;
  spec_Platform : Platform;
  spec_CertificateBundles : list CertificateBundleSpec;
}.

Record ClusterDeploymentStatus := {
  status_APIURL : string;
  status_WebConsoleURL : string;
  status_CertificateBundles : list CertificateBundleStatus;
}.

(** [metav1.Time] as nanoseconds since the zero instant. *)
Definition Time := Z.

Record ClusterDeployment := {
  cd_Name : string;
  cd_Namespace : string;
  cd_Labels : gmap string string;
  cd_Annotations : gmap string string;
  cd_DeletionTimestamp : option Time;
  cd_Finalizers : list string;
  cd_Spec : ClusterDeploymentSpec;
  cd_Status : ClusterDeploymentStatus;
}.

(** [IsZero] of a [metav1.Time] pointer: nil or the zero instant. *)
Definition IsZero (t : option Time) : bool :=
  match t with
  | None => true
  | Some n => bool_decide (n = 0%Z)
  end.

(** ** Data model: certmanv1alpha1.CertificateRequest *)

Record ObjectReference := {
  ref_Kind : string;
  ref_Namespace : string;
  ref_Name : string;
}.

Record AWSPlatformSecrets := {
  awss_Credentials_Name : string;
  awss_Region : string;
}.

Record GCPPlatformSecrets := {
  gcps_Credentials_Name : string;
}.

Record AzurePlatformSecrets := {
  azures_Credentials_Name : string;
  azures_ResourceGroupName : string;
}.

(** [certmanv1alpha1.Platform]: again one pointer per cloud. *)
Record CertPlatform := {
  cplat_AWS : option AWSPlatformSecrets;
  cplat_GCP : option GCPPlatformSecrets;
  cplat_Azure : option AzurePlatformSecrets;
}.

Record CertificateRequestSpec := {
  crs_ACMEDNSDomain : string;
  crs_CertificateSecret : ObjectReference;
  crs_Platform : CertPlatform;
  crs_DnsNames : list string;
  crs_Email : string;
  crs_APIURL : string;
  crs_WebConsoleURL : string;
}.

(** An owner reference with [Controller] set, as
    [controllerutil.SetControllerReference] writes it. *)
Record OwnerReference := {
  owner_Kind : string;
  owner_Name : string;
}.

Record CertificateRequest := {
  cr_Name : string;
  cr_Namespace : string;
  cr_OwnerReferences : list OwnerReference;
  cr_Spec : CertificateRequestSpec;
  cr_Status_Issued : bool;
}.

#[global] Instance OwnerReference_eq_dec : EqDecision OwnerReference.
Proof. solve_decision. Defined.
#[global] Instance ObjectReference_eq_dec : EqDecision ObjectReference.
Proof. solve_decision. Defined.
#[global] Instance AWSPlatformSecrets_eq_dec : EqDecision AWSPlatformSecrets.
Proof. solve_decision. Defined.
#[global] Instance GCPPlatformSecrets_eq_dec : EqDecision GCPPlatformSecrets.
Proof. solve_decision. Defined.
#[global] Instance AzurePlatformSecrets_eq_dec : EqDecision AzurePlatformSecrets.
Proof. solve_decision. Defined.
#[global] Instance CertPlatform_eq_dec : EqDecision CertPlatform.
Proof. solve_decision. Defined.
#[global] Instance CertificateRequestSpec_eq_dec : EqDecision CertificateRequestSpec.
Proof. solve_decision. Defined.
#[global] Instance CertificateBundleStatus_eq_dec : EqDecision CertificateBundleStatus.
Proof. solve_decision. Defined.
#[global] Instance ClusterDeploymentStatus_eq_dec : EqDecision ClusterDeploymentStatus.
Proof. solve_decision. Defined.

(** [reflect.DeepEqual] on values of one of the struct types above:
    structural equality. *)
Definition DeepEqual {A : Type} `{EqDecision A} (x y : A) : bool :=
  bool_decide (x = y).

(** [DeepCopy]: a copy that shares nothing with the original; values
    here are immutable, so it is the value itself. *)
Definition DeepCopy {A : Type} (x : A) : A := x.

(** ** Constants of the controller *)

Definition ClusterDeploymentManagedLabel : string := "api.openshift.com/managed".
Definition hiveRelocationAnnotation : string := "hive.openshift.io/relocate".
Definition hiveRelocationOutgoingValue : string := "outgoing".
Definition fakeClusterDeploymentAnnotation : string := "managed.openshift.com/fake".
Definition ClusterDeploymentLimitedSupportLabel : string :=
  "api.openshift.com/limited-support".

(** ** The resource store and the other external collaborators

    [r.Client], the owner-reference setter, the notification-email
    provider and the logger are outside this file.  They are modelled as
    explicit state: the objects of the store, a clock that counts the calls
    made so far, and the trace of calls and error logs.  A call fails when
    the store says so by itself ([ErrNotFound], [ErrAlreadyExists]) or when
    the fault oracle of the environment makes it fail. *)

Inductive Error :=
| ErrNotFound
| ErrAlreadyExists
| ErrOther (msg : string).

(** [errors.IsNotFound(err)]. *)
Definition IsNotFound (err : Error) : bool :=
  match err with
  | ErrNotFound => true
  | _ => false
  end.

(** [err.Error()]. *)
Definition errorString (err : Error) : string :=
  match err with
  | ErrNotFound => "not found"
  | ErrAlreadyExists => "already exists"
  | ErrOther msg => msg
  end.

(** A Go result pair [(value, err)]. *)
Inductive Result (A : Type) :=
| Ok (a : A)
| Err (err : Error).
Arguments Ok {A} a.
Arguments Err {A} err.

Inductive Call :=
| CallGetCD (namespace name : string)
| CallPatchCD (cd : ClusterDeployment)
| CallListCR (namespace : string)
| CallGetCR (namespace name : string)
| CallCreateCR (cr : CertificateRequest)
| CallUpdateCR (cr : CertificateRequest)
| CallDeleteCR (cr : CertificateRequest)
| CallSetControllerReference (owner : string) (cr : CertificateRequest)
| CallGetEmail.

Inductive Event :=
| Called (c : Call) (err : option Error)
| LoggedError (err : Error) (msg : string).

(** What a pass reads but never changes. *)
Record Env := {
  (** the process environment, for [os.Getenv] *)
  environ : gmap string string;
  (** [certmanv1alpha1.CertmanOperatorFinalizerLabel], a constant of the
      api package *)
  CertmanOperatorFinalizerLabel : string;
  (** the address the notification-email provider finds *)
  notificationEmail : string;
  (** [strings.Map(unicode.ToLower, s)], for [strings.ToLower] on a string
      that is not ASCII *)
  unicodeToLower : string → string;
  (** [fault n c = Some msg]: call [c], made as the [n]-th call, fails
      with [msg] *)
  fault : nat -> Call -> option string;
}.

Record World := {
  (** CertificateRequests by (namespace, name) *)
  crs : gmap (string * string) CertificateRequest;
  (** ClusterDeployments by (namespace, name) *)
  cds : gmap (string * string) ClusterDeployment;
  clock : nat;
  trace : list Event;
}.

(** [os.Getenv(key)]: the empty string when [key] is not set. *)
Definition Getenv (env : Env) (key : string) : string :=
  default EmptyString (environ env !! key).

(** A map index expression [val, ok := m[key]]. *)
Definition mapIndex (m : gmap string string) (key : string) : string * bool :=
  match m !! key with
  | Some val => (val, true)
  | None => (EmptyString, false)
  end.

Definition called (c : Call) (err : option Error) (w : World) : World :=
  {| crs := crs w; cds := cds w; clock := S (clock w);
     trace := trace w ++ [Called c err] |}.

(** [logger.Error(err, msg, ...)]. *)
Definition logError (err : Error) (msg : string) (w : World) : World :=
  {| crs := crs w; cds := cds w; clock := clock w;
     trace := trace w ++ [LoggedError err msg] |}.

Definition setCRs (m : gmap (string * string) CertificateRequest) (w : World) : World :=
  {| crs := m; cds := cds w; clock := clock w; trace := trace w |}.

Definition setCDs (m : gmap (string * string) ClusterDeployment) (w : World) : World :=
  {| crs := crs w; cds := m; clock := clock w; trace := trace w |}.

(** The fault the oracle has for call [c] now, if any. *)
Definition faultNow (env : Env) (c : Call) (w : World) : option Error :=
  ErrOther <$> fault env (clock w) c.

Definition crKey (cr : CertificateRequest) : string * string :=
  (cr_Namespace cr, cr_Name cr).

Definition cdKey (cd : ClusterDeployment) : string * string :=
  (cd_Namespace cd, cd_Name cd).

(** [r.Client.Get] of a ClusterDeployment. *)
Definition clientGetCD (env : Env) (key : string * string) (w : World)
  : Result ClusterDeployment * World :=
  let c := CallGetCD key.1 key.2 in
  match faultNow env c w with
  | Some err => (Err err, called c (Some err) w)
  | None =>
      match cds w !! key with
      | Some cd => (Ok cd, called c None w)
      | None => (Err ErrNotFound, called c (Some ErrNotFound) w)
      end
  end.

(** The store once the stored object has taken the fields of [cd]: an
    object under deletion leaves the store when its last finalizer is
    gone. *)
Definition patched (cd : ClusterDeployment) (m : gmap (string * string) ClusterDeployment)
  : gmap (string * string) ClusterDeployment :=
  if negb (IsZero (cd_DeletionTimestamp cd)) && bool_decide (cd_Finalizers cd = [])
  then delete (cdKey cd) m
  else <[cdKey cd := cd]> m.

(** [r.Client.Patch] of a ClusterDeployment: the stored object takes the
    fields of [cd]. *)
Definition clientPatchCD (env : Env) (cd : ClusterDeployment) (w : World)
  : option Error * World :=
  let c := CallPatchCD cd in
  match faultNow env c w with
  | Some err => (Some err, called c (Some err) w)
  | None =>
      match cds w !! cdKey cd with
      | Some _ => (None, called c None (setCDs (patched cd (cds w)) w))
      | None => (Some ErrNotFound, called c (Some ErrNotFound) w)
      end
  end.

(** The CertificateRequests the store holds in one namespace. *)
Definition listed (namespace : string) (m : gmap (string * string) CertificateRequest)
  : list CertificateRequest :=
  filter (λ cr, cr_Namespace cr = namespace) (map_to_list m).*2.

(** [r.Client.List] of the CertificateRequests of one namespace. *)
Definition clientListCR (env : Env) (namespace : string) (w : World)
  : Result (list CertificateRequest) * World :=
  let c := CallListCR namespace in
  match faultNow env c w with
  | Some err => (Err err, called c (Some err) w)
  | None =>
      (Ok (listed namespace (crs w)), called c None w)
  end.

(** [r.Client.Get] of a CertificateRequest. *)
Definition clientGetCR (env : Env) (key : string * string) (w : World)
  : Result CertificateRequest * World :=
  let c := CallGetCR key.1 key.2 in
  match faultNow env c w with
  | Some err => (Err err, called c (Some err) w)
  | None =>
      match crs w !! key with
      | Some cr => (Ok cr, called c None w)
      | None => (Err ErrNotFound, called c (Some ErrNotFound) w)
      end
  end.

(** [r.Client.Create]. *)
Definition clientCreateCR (env : Env) (cr : CertificateRequest) (w : World)
  : option Error * World :=
  let c := CallCreateCR cr in
  match faultNow env c w with
  | Some err => (Some err, called c (Some err) w)
  | None =>
      match crs w !! crKey cr with
      | Some _ => (Some ErrAlreadyExists, called c (Some ErrAlreadyExists) w)
      | None => (None, called c None (setCRs (<[crKey cr := cr]> (crs w)) w))
      end
  end.

(** [r.Client.Update]. *)
Definition clientUpdateCR (env : Env) (cr : CertificateRequest) (w : World)
  : option Error * World :=
  let c := CallUpdateCR cr in
  match faultNow env c w with
  | Some err => (Some err, called c (Some err) w)
  | None =>
      match crs w !! crKey cr with
      | Some _ => (None, called c None (setCRs (<[crKey cr := cr]> (crs w)) w))
      | None => (Some ErrNotFound, called c (Some ErrNotFound) w)
      end
  end.

(** [r.Client.Delete]. *)
Definition clientDeleteCR (env : Env) (cr : CertificateRequest) (w : World)
  : option Error * World :=
  let c := CallDeleteCR cr in
  match faultNow env c w with
  | Some err => (Some err, called c (Some err) w)
  | None =>
      match crs w !! crKey cr with
      | Some _ => (None, called c None (setCRs (delete (crKey cr) (crs w)) w))
      | None => (Some ErrNotFound, called c (Some ErrNotFound) w)
      end
  end.

(** [cr] with a controller reference to [cd]. *)
Definition owned (cd : ClusterDeployment) (cr : CertificateRequest) : CertificateRequest :=
  {| cr_Name := cr_Name cr; cr_Namespace := cr_Namespace cr;
     cr_OwnerReferences :=
       cr_OwnerReferences cr ++
       [{| owner_Kind := "ClusterDeployment"; owner_Name := cd_Name cd |}];
     cr_Spec := cr_Spec cr; cr_Status_Issued := cr_Status_Issued cr |}.

(** [controllerutil.SetControllerReference(cd, &cr, r.Scheme)]. *)
Definition SetControllerReference (env : Env) (cd : ClusterDeployment)
    (cr : CertificateRequest) (w : World) : Result CertificateRequest * World :=
  let c := CallSetControllerReference (cd_Name cd) cr in
  match faultNow env c w with
  | Some err => (Err err, called c (Some err) w)
  | None => (Ok (owned cd cr), called c None w)
  end.

(** ** Helpers of the [utils] package and of the handler file *)

(** Modelled from the spec: [utils.ContainsString] is in the [utils]
    package, which is not part of the sources at hand; it decides
    whether the finalizer is present in the finalizer list. *)
Definition ContainsString (slice : list string) (s : string) : bool :=
  bool_decide (s ∈ slice).

(** Modelled from the spec: [utils.RemoveString] is in the [utils]
    package, which is not part of the sources at hand; it removes the
    finalizer from the finalizer list. *)
Definition RemoveString (slice : list string) (s : string) : list string :=
  filter (λ item, item ≠ s) slice.

(** Modelled from the spec: [utils.GetDefaultNotificationEmailAddress] is
    in the [utils] package, which is not part of the sources at hand; the
    notification-email provider returns a default email address used in
    issuance requests, or fails. *)
Definition GetDefaultNotificationEmailAddress (env : Env) (w : World)
  : Result string * World :=
  match faultNow env CallGetEmail w with
  | Some err => (Err err, called CallGetEmail (Some err) w)
  | None => (Ok (notificationEmail env), called CallGetEmail None w)
  end.

(** ** getDomainsForCertBundle *)

Definition getDomainsForCertBundle (env : Env) (cb : CertificateBundleSpec)
    (cd : ClusterDeployment) : list string :=
  let domains : list string := [] in
  let domains :=
    if decide (spec_ServingCertificates_Default (cd_Spec cd) = cb_Name cb) then
      let controlPlaneCertDomain :=
        "api." +:+ spec_ClusterName (cd_Spec cd) +:+ "." +:+ spec_BaseDomain (cd_Spec cd) in
      let domains := domains ++ [controlPlaneCertDomain] in
      let userDomain := Getenv env "EXTRA_RECORD" in
      if negb (String.eqb userDomain EmptyString) then
        let extraDomain :=
          userDomain +:+ "." +:+ spec_ClusterName (cd_Spec cd) +:+ "." +:+
          spec_BaseDomain (cd_Spec cd) in
        domains ++ [extraDomain]
      else domains
    else domains in
  let domains :=
    fold_left
      (λ domains additionalCert,
         if decide (ac_Name additionalCert = cb_Name cb)
         then domains ++ [ac_Domain additionalCert]
         else domains)
      (spec_ServingCertificates_Additional (cd_Spec cd)) domains in
  let domains :=
    fold_left
      (λ domains ingress,
         if decide (ing_ServingCertificate ingress = cb_Name cb) then
           let ingressDomain := ing_Domain ingress in
           let ingressDomain :=
             if negb (strings.HasPrefix ingressDomain "*.")
             then "*." +:+ ing_Domain ingress
             else ingressDomain in
           domains ++ [ingressDomain]
         else domains)
      (spec_Ingress (cd_Spec cd)) domains in
  domains.

(** ** createCertificateRequest *)

Definition withPlatform (cr : CertificateRequest) (p : CertPlatform) : CertificateRequest :=
  {| cr_Name := cr_Name cr; cr_Namespace := cr_Namespace cr;
     cr_OwnerReferences := cr_OwnerReferences cr;
     cr_Spec :=
       {| crs_ACMEDNSDomain := crs_ACMEDNSDomain (cr_Spec cr);
          crs_CertificateSecret := crs_CertificateSecret (cr_Spec cr);
          crs_Platform := p;
          crs_DnsNames := crs_DnsNames (cr_Spec cr);
          crs_Email := crs_Email (cr_Spec cr);
          crs_APIURL := crs_APIURL (cr_Spec cr);
          crs_WebConsoleURL := crs_WebConsoleURL (cr_Spec cr) |};
     cr_Status_Issued := cr_Status_Issued cr |}.

Definition createCertificateRequest (env : Env) (certBundleName secretName : string)
    (domains : list string) (cd : ClusterDeployment) (emailAddress : string)
  : CertificateRequest :=
  let name := cd_Name cd +:+ "-" +:+ certBundleName in
  let name := strings.ToLower (unicodeToLower env) name in
  let cr :=
    {| cr_Name := name;
       cr_Namespace := cd_Namespace cd;
       cr_OwnerReferences := [];
       cr_Spec :=
         {| crs_ACMEDNSDomain := spec_BaseDomain (cd_Spec cd);
            crs_CertificateSecret :=
              {| ref_Kind := "secret";
                 ref_Namespace := cd_Namespace cd;
                 ref_Name := secretName |};
            crs_Platform := {| cplat_AWS := None; cplat_GCP := None; cplat_Azure := None |};
            crs_DnsNames := domains;
            crs_Email := emailAddress;
            crs_APIURL := status_APIURL (cd_Status cd);
            crs_WebConsoleURL := status_WebConsoleURL (cd_Status cd) |};
       cr_Status_Issued := false |} in
  (* GCP platform *)
  let cr :=
    match plat_GCP (spec_Platform (cd_Spec cd)) with
    | Some gcp =>
        withPlatform cr
          {| cplat_AWS := None;
             cplat_GCP := Some {| gcps_Credentials_Name := gcp_CredentialsSecretRef_Name gcp |};
             cplat_Azure := None |}
    | None => cr
    end in
  (* AWS platform *)
  let cr :=
    match plat_AWS (spec_Platform (cd_Spec cd)) with
    | Some aws =>
        withPlatform cr
          {| cplat_AWS := Some {| awss_Credentials_Name := aws_CredentialsSecretRef_Name aws;
                                  awss_Region := aws_Region aws |};
             cplat_GCP := None;
             cplat_Azure := None |}
    | None => cr
    end in
  (* Azure platform *)
  let cr :=
    match plat_Azure (spec_Platform (cd_Spec cd)) with
    | Some azure =>
        withPlatform cr
          {| cplat_AWS := None;
             cplat_GCP := None;
             cplat_Azure :=
               Some {| azures_Credentials_Name := azure_CredentialsSecretRef_Name azure;
                       azures_ResourceGroupName := azure_BaseDomainResourceGroupName azure |} |}
    | None => cr
    end in
  cr.

(** ** getCurrentCertificateRequests *)

Definition getCurrentCertificateRequests (env : Env) (cd : ClusterDeployment)
    (w : World) : Result (list CertificateRequest) * World :=
  let certReqsForCluster : list CertificateRequest := [] in
  let '(r, w) := clientListCR env (cd_Namespace cd) w in
  match r with
  | Err err => (Err err, logError err "error listing current CertificateRequests" w)
  | Ok items => (Ok (certReqsForCluster ++ items), w)
  end.

(** ** syncCertificateRequests *)

(** The error of a bundle without domains. *)
Definition noDomainsError (cd : ClusterDeployment) (cb : CertificateBundleSpec) : Error :=
  ErrOther ("no domains provided for certificate bundle " +:+ cb_Name cb +:+
            " in the cluster deployment " +:+ cd_Name cd).

(** The loop over [cd.Spec.CertificateBundles] that collects [desiredCRs];
    [Err] is the early [return err] of the pass. *)
Fixpoint desiredLoop (env : Env) (cd : ClusterDeployment)
    (bundles : list CertificateBundleSpec)
    (desiredCRs : list CertificateRequest) (w : World)
  : Result (list CertificateRequest) * World :=
  match bundles with
  | [] => (Ok desiredCRs, w)
  | cb :: bundles =>
      if cb_Generate cb then
        let domains := getDomainsForCertBundle env cb cd in
        let '(r, w) := GetDefaultNotificationEmailAddress env w in
        match r with
        | Err err => (Err err, logError err (errorString err) w)
        | Ok emailAddress =>
            if (0 <? length domains)%nat then
              let certReq :=
                createCertificateRequest env (cb_Name cb) (cb_CertificateSecretRef_Name cb)
                  domains cd emailAddress in
              desiredLoop env cd bundles (desiredCRs ++ [certReq]) w
            else
              let err := noDomainsError cd cb in
              desiredLoop env cd bundles desiredCRs (logError err (errorString err) w)
        end
      else desiredLoop env cd bundles desiredCRs w
  end.

(** The loop that marks the extra CertificateRequests for deletion. *)
Definition deleteSet (currentCRs desiredCRs : list CertificateRequest)
  : list CertificateRequest :=
  fold_left
    (λ deleteCRs currentCR,
       let found :=
         existsb (λ desiredCR, String.eqb (cr_Name desiredCR) (cr_Name currentCR))
           desiredCRs in
       if negb found then deleteCRs ++ [currentCR] else deleteCRs)
    currentCRs [].

Definition withSpec (cr : CertificateRequest) (spec : CertificateRequestSpec)
  : CertificateRequest :=
  {| cr_Name := cr_Name cr; cr_Namespace := cr_Namespace cr;
     cr_OwnerReferences := cr_OwnerReferences cr;
     cr_Spec := spec; cr_Status_Issued := cr_Status_Issued cr |}.

(** What one round of the create/update loop appends: to
    [certBundleStatusList] (nothing after a [continue]) and to [errs]. *)
Record Round := {
  round_status : option CertificateBundleStatus;
  round_err : option Error;
}.

(** The body of the create/update loop, for one [desiredCR].  The specs
    are compared with [reflect.DeepEqual]; their only slice, the DNS names,
    is never empty on the desired side. *)
Definition syncOne (env : Env) (cd : ClusterDeployment)
    (desiredCR : CertificateRequest) (w : World) : Round * World :=
  let searchKey := (cr_Namespace desiredCR, cr_Name desiredCR) in
  let certBundleStatus_Name := strings.TrimPrefix (cr_Name desiredCR) (cd_Name cd +:+ "-") in
  let '(r, w) := clientGetCR env searchKey w in
  match r with
  | Err err =>
      let certBundleStatus :=
        {| cbs_Name := certBundleStatus_Name; cbs_Generated := false |} in
      if IsNotFound err then
        (* create *)
        let '(r, w) := SetControllerReference env cd desiredCR w in
        match r with
        | Err err =>
            ({| round_status := None; round_err := Some err |},
             logError err "error setting owner reference" w)
        | Ok desiredCR =>
            let '(e, w) := clientCreateCR env desiredCR w in
            match e with
            | Some err =>
                ({| round_status := None; round_err := Some err |},
                 logError err "error creating certificaterequest" w)
            | None =>
                ({| round_status := Some certBundleStatus; round_err := None |}, w)
            end
        end
      else
        ({| round_status := Some certBundleStatus; round_err := Some err |},
         logError err "error checking for existing certificaterequest" w)
  | Ok currentCR =>
      (* update or no update needed *)
      if negb (DeepEqual (cr_Spec currentCR) (cr_Spec desiredCR)) then
        let certBundleStatus :=
          {| cbs_Name := certBundleStatus_Name; cbs_Generated := false |} in
        let currentCR := withSpec currentCR (cr_Spec desiredCR) in
        let '(e, w) := clientUpdateCR env currentCR w in
        match e with
        | Some err =>
            ({| round_status := None; round_err := Some err |},
             logError err "error updating certificaterequest" w)
        | None =>
            ({| round_status := Some certBundleStatus; round_err := None |}, w)
        end
      else
        let certBundleStatus :=
          {| cbs_Name := certBundleStatus_Name;
             cbs_Generated := if cr_Status_Issued currentCR then true else false |} in
        ({| round_status := Some certBundleStatus; round_err := None |}, w)
  end.

(** The create/update loop over [desiredCRs]. *)
Fixpoint syncLoop (env : Env) (cd : ClusterDeployment)
    (desiredCRs : list CertificateRequest)
    (certBundleStatusList : list CertificateBundleStatus) (errs : list Error)
    (w : World) : list CertificateBundleStatus * list Error * World :=
  match desiredCRs with
  | [] => (certBundleStatusList, errs, w)
  | desiredCR :: desiredCRs =>
      let '(round, w) := syncOne env cd desiredCR w in
      syncLoop env cd desiredCRs
        (certBundleStatusList ++ option_list (round_status round))
        (errs ++ option_list (round_err round)) w
  end.

(** The loop that deletes [deleteCRs]; it returns at the first failure. *)
Fixpoint deleteLoop (env : Env) (deleteCRs : list CertificateRequest) (w : World)
  : option Error * World :=
  match deleteCRs with
  | [] => (None, w)
  | deleteCR :: deleteCRs =>
      let '(e, w) := clientDeleteCR env deleteCR w in
      match e with
      | Some err =>
          (Some err, logError err "error deleting CertificateRequest that is no longer needed" w)
      | None => deleteLoop env deleteCRs w
      end
  end.

Definition withStatusBundles (cd : ClusterDeployment)
    (l : list CertificateBundleStatus) : ClusterDeployment :=
  {| cd_Name := cd_Name cd; cd_Namespace := cd_Namespace cd;
     cd_Labels := cd_Labels cd; cd_Annotations := cd_Annotations cd;
     cd_DeletionTimestamp := cd_DeletionTimestamp cd;
     cd_Finalizers := cd_Finalizers cd; cd_Spec := cd_Spec cd;
     cd_Status :=
       {| status_APIURL := status_APIURL (cd_Status cd);
          status_WebConsoleURL := status_WebConsoleURL (cd_Status cd);
          status_CertificateBundles := l |} |}.

(** The second half of [syncCertificateRequests], from the computation
    of [deleteCRs] on: apply [desiredCRs] against [currentCRs].  The
    function works on the object [cd] points to; the object as it is left
    is returned with the error.  [cdCopy] is a deep copy of that object, so
    its slices are nil exactly where those of [cd] are. *)
Definition applyDesired (env : Env) (cd : ClusterDeployment)
    (currentCRs desiredCRs : list CertificateRequest) (w : World)
  : option Error * ClusterDeployment * World :=
  (* find any extra certificateRequests and mark them for deletion *)
  let deleteCRs := deleteSet currentCRs desiredCRs in
  (* create/update the desired certificaterequests *)
  let '(certBundleStatusList, errs, w) := syncLoop env cd desiredCRs [] [] w in
  let cd := withStatusBundles cd certBundleStatusList in
  if (0 <? length errs)%nat then
    (Some (ErrOther "met multiple errors when sync certificaterequests"), cd, w)
  else
    (* delete the certificaterequests *)
    let '(e, w) := deleteLoop env deleteCRs w in
    match e with
    | Some err => (Some err, cd, w)
    | None =>
        let cdCopy := DeepCopy cd in
        (* update the clusterDeployment certificateBundleStatus *)
        if negb (DeepEqual (cd_Status cd) (cd_Status cdCopy)) then
          let baseToPatch := DeepCopy cdCopy in
          let cdCopy := withStatusBundles cdCopy certBundleStatusList in
          let '(e, w) := clientPatchCD env cdCopy w in
          match e with
          | Some err => (None, cd, logError err "error when update clusterDeploymentStatus" w)
          | None => (None, cd, w)
          end
        else (None, cd, w)
    end.

Definition syncCertificateRequests (env : Env) (cd : ClusterDeployment) (w : World)
  : option Error * ClusterDeployment * World :=
  let desiredCRs : list CertificateRequest := [] in
  (* get a list of current CertificateRequests *)
  let '(r, w) := getCurrentCertificateRequests env cd w in
  match r with
  | Err err => (Some err, cd, logError err (errorString err) w)
  | Ok currentCRs =>
      (* for each certbundle with generate==true make a CertificateRequest *)
      let '(r, w) := desiredLoop env cd (spec_CertificateBundles (cd_Spec cd)) desiredCRs w in
      match r with
      | Err err => (Some err, cd, w)
      | Ok desiredCRs => applyDesired env cd currentCRs desiredCRs w
      end
  end.

(** ** handleDelete *)

(** Whether [cr] has an owner reference to [cd], as the owner-reference
    setter puts it. *)
Definition ownedBy (cd : ClusterDeployment) (cr : CertificateRequest) : Prop :=
  {| owner_Kind := "ClusterDeployment"; owner_Name := cd_Name cd |} ∈ cr_OwnerReferences cr.

#[global] Instance ownedBy_dec cd cr : Decision (ownedBy cd cr).
Proof. unfold ownedBy. apply _. Defined.

(** Modelled from the spec: [handleDelete] is a method of the reconciler
    defined in another file of the package, which is not part of the
    sources at hand.  It deletes all CertificateRequests currently owned by
    this resource (not just the diffed set: full teardown): of the requests
    listed in the namespace of the resource, the ones with an owner
    reference to it; any failure is reported. *)
Definition handleDelete (env : Env) (cd : ClusterDeployment) (w : World)
  : option Error * World :=
  let '(r, w) := getCurrentCertificateRequests env cd w in
  match r with
  | Err err => (Some err, logError err (errorString err) w)
  | Ok currentCRs => deleteLoop env (filter (ownedBy cd) currentCRs) w
  end.

(** ** Reconcile *)

(** How a pass ends: with [return reconcile.Result{}, err], or in a
    run-time panic. *)
Inductive Outcome :=
| Returned (err : option Error)
| Panicked (msg : string).

(** How the loop over [cd.Annotations] ends. *)
Inductive Relocation :=
| RelocationNone
| RelocationOutgoing
| RelocationPanic (msg : string).

(** The loop [for a, v := range cd.Annotations] of the relocation gate,
    over the entries in the order the iteration meets them.  The index
    expression [strings.Split(v, "/")[1]] panics when the slice has a
    single element. *)
Fixpoint relocationLoop (annotations : list (string * string)) : Relocation :=
  match annotations with
  | [] => RelocationNone
  | (a, v) :: annotations =>
      if String.eqb a hiveRelocationAnnotation then
        match strings.Split v "/" !! 1%nat with
        | None => RelocationPanic "index out of range [1] with length 1"
        | Some piece =>
            if String.eqb piece hiveRelocationOutgoingValue then RelocationOutgoing
            else relocationLoop annotations
        end
      else relocationLoop annotations
  end.

Definition withFinalizers (cd : ClusterDeployment) (l : list string) : ClusterDeployment :=
  {| cd_Name := cd_Name cd; cd_Namespace := cd_Namespace cd;
     cd_Labels := cd_Labels cd; cd_Annotations := cd_Annotations cd;
     cd_DeletionTimestamp := cd_DeletionTimestamp cd;
     cd_Finalizers := l; cd_Spec := cd_Spec cd; cd_Status := cd_Status cd |}.

(** The deletion branch of [Reconcile]: the object is being deleted. *)
Definition reconcileDelete (env : Env) (cd : ClusterDeployment) (w : World)
  : Outcome * World :=
  if ContainsString (cd_Finalizers cd) (CertmanOperatorFinalizerLabel env) then
    let '(e, w) := handleDelete env cd w in
    match e with
    | Some err => (Returned (Some err), logError err "error deleting CertificateRequests" w)
    | None =>
        let baseToPatch := DeepCopy cd in
        let cd :=
          withFinalizers cd
            (RemoveString (cd_Finalizers cd) (CertmanOperatorFinalizerLabel env)) in
        let '(e, w) := clientPatchCD env cd w in
        match e with
        | Some err =>
            (Returned (Some err), logError err "error removing finalizer from ClusterDeployment" w)
        | None => (Returned None, w)
        end
    end
  else (Returned None, w).

(** The block of [Reconcile] that adds the finalizer when it is missing;
    [Err] is its [return reconcile.Result{}, err]. *)
Definition addFinalizer (env : Env) (cd : ClusterDeployment) (w : World)
  : Result ClusterDeployment * World :=
  if negb (ContainsString (cd_Finalizers cd) (CertmanOperatorFinalizerLabel env)) then
    let baseToPatch := DeepCopy cd in
    let cd := withFinalizers cd (cd_Finalizers cd ++ [CertmanOperatorFinalizerLabel env]) in
    let '(e, w) := clientPatchCD env cd w in
    match e with
    | Some err => (Err err, logError err "error adding finalizer to ClusterDeployment" w)
    | None => (Ok cd, w)
    end
  else (Ok cd, w).

(** The rest of [Reconcile] for an object that is not being deleted: add
    the finalizer, then sync. *)
Definition reconcileActive (env : Env) (cd : ClusterDeployment) (w : World)
  : Outcome * World :=
  let '(r, w) := addFinalizer env cd w in
  match r with
  | Err err => (Returned (Some err), w)
  | Ok cd =>
      let '(e, _, w) := syncCertificateRequests env cd w in
      match e with
      | Some err => (Returned (Some err), logError err "error syncing CertificateRequests" w)
      | None => (Returned None, w)
      end
  end.

(** One reconciliation pass for the ClusterDeployment [request] names.
    The metrics (reconcile duration, limited or full support) and the
    informational log lines are left out: they touch neither the store nor
    the result. *)
Definition Reconcile (env : Env) (request : string * string) (w : World)
  : Outcome * World :=
  (* Fetch the ClusterDeployment instance *)
  let '(r, w) := clientGetCD env request w in
  match r with
  | Err err =>
      if IsNotFound err then (Returned None, w)
      else (Returned (Some err), logError err "error looking up clusterDeployment" w)
  | Ok cd =>
      (* Do not make certificate request if the cluster is not a Red Hat managed cluster. *)
      let '(val, ok) := mapIndex (cd_Labels cd) ClusterDeploymentManagedLabel in
      if negb ok || negb (String.eqb val "true") then (Returned None, w)
      else
        (* Do not make certificate request if fake cluster *)
        let '(val, ok) := mapIndex (cd_Annotations cd) fakeClusterDeploymentAnnotation in
        if ok && String.eqb val "true" then (Returned None, w)
        else
          (* Do not reconcile if cluster is not installed *)
          if negb (spec_Installed (cd_Spec cd)) then (Returned None, w)
          else
            (* Do not reconcile if the cluster is being relocated *)
            match relocationLoop (map_to_list (cd_Annotations cd)) with
            | RelocationPanic msg => (Panicked msg, w)
            | RelocationOutgoing => (Returned None, w)
            | RelocationNone =>
                if negb (IsZero (cd_DeletionTimestamp cd)) then reconcileDelete env cd w
                else reconcileActive env cd w
            end
  end.

(** * Specification vocabulary *)

(** ** The domain list, as the specification words it *)

(** The wildcard form of an ingress domain. *)
Definition wildcard (domain : string) : string :=
  if strings.HasPrefix domain "*." then domain else "*." +:+ domain.

(** The three sources of domains of a bundle, one after the other. *)
Definition resolvedDomains (env : Env) (cb : CertificateBundleSpec)
    (cd : ClusterDeployment) : list string :=
  let cluster := spec_ClusterName (cd_Spec cd) in
  let base := spec_BaseDomain (cd_Spec cd) in
  (if decide (cb_Name cb = spec_ServingCertificates_Default (cd_Spec cd)) then
     ("api." +:+ cluster +:+ "." +:+ base) ::
     (if decide (Getenv env "EXTRA_RECORD" = EmptyString) then []
      else [Getenv env "EXTRA_RECORD" +:+ "." +:+ cluster +:+ "." +:+ base])
   else [])
  ++ (ac_Domain <$>
        filter (λ a, ac_Name a = cb_Name cb)
          (spec_ServingCertificates_Additional (cd_Spec cd)))
  ++ ((λ i, wildcard (ing_Domain i)) <$>
        filter (λ i, ing_ServingCertificate i = cb_Name cb) (spec_Ingress (cd_Spec cd))).

(** ** Views of the trace *)

Definition calls (t : list Event) : list Call :=
  omap (λ e, match e with Called c _ => Some c | LoggedError _ _ => None end) t.

(** The calls that create, update or delete a CertificateRequest. *)
Definition isCRWrite (c : Call) : bool :=
  match c with
  | CallCreateCR _ | CallUpdateCR _ | CallDeleteCR _ => true
  | _ => false
  end.

Definition isPatch (c : Call) : bool :=
  match c with
  | CallPatchCD _ => true
  | _ => false
  end.

Definition crWrites (t : list Event) : list Call := List.filter isCRWrite (calls t).

Definition patches (t : list Event) : list Call := List.filter isPatch (calls t).

(** Every call that writes to the store. *)
Definition storeWrites (t : list Event) : list Call :=
  List.filter (λ c, isCRWrite c || isPatch c) (calls t).

(** The errors handed to [logger.Error]. *)
Definition errorLogs (t : list Event) : list Error :=
  omap (λ e, match e with LoggedError err _ => Some err | Called _ _ => None end) t.

(** ** Assumptions on the collaborators *)

(** No call is made to fail from outside. *)
Definition noFaults (env : Env) : Prop := ∀ n c, fault env n c = None.

(** The store keeps every CertificateRequest under its own namespace
    and name. *)
Definition wfStore (m : gmap (string * string) CertificateRequest) : Prop :=
  ∀ k cr, m !! k = Some cr → crKey cr = k.

(** ** The desired set and the diff plan, as the specification words them *)

(** The name of the request of a bundle. *)
Definition derivedName (env : Env) (cd : ClusterDeployment) (cb : CertificateBundleSpec)
  : string :=
  strings.ToLower (unicodeToLower env) (cd_Name cd +:+ "-" +:+ cb_Name cb).

(** The bundles that get a request: generate-enabled, with a domain. *)
Definition wanted (env : Env) (cd : ClusterDeployment) (cb : CertificateBundleSpec) : Prop :=
  cb_Generate cb = true ∧ getDomainsForCertBundle env cb cd ≠ [].

#[global] Instance wanted_dec env cd cb : Decision (wanted env cd cb).
Proof. unfold wanted. apply _. Defined.

(** The desired requests of a list of bundles: one per wanted bundle. *)
Definition desiredFrom (env : Env) (cd : ClusterDeployment)
    (bundles : list CertificateBundleSpec) : list CertificateRequest :=
  (λ cb, createCertificateRequest env (cb_Name cb) (cb_CertificateSecretRef_Name cb)
           (getDomainsForCertBundle env cb cd) cd (notificationEmail env))
  <$> filter (wanted env cd) bundles.

(** The desired requests of a cluster resource. *)
Definition desiredOf (env : Env) (cd : ClusterDeployment) : list CertificateRequest :=
  desiredFrom env cd (spec_CertificateBundles (cd_Spec cd)).

(** The bundles whose error is logged: generate-enabled, without a
    domain. *)
Definition domainless (env : Env) (cd : ClusterDeployment) (cb : CertificateBundleSpec) : Prop :=
  cb_Generate cb = true ∧ getDomainsForCertBundle env cb cd = [].

#[global] Instance domainless_dec env cd cb : Decision (domainless env cd cb).
Proof. unfold domainless. apply _. Defined.

(** A step that only reads: the store is left as it was and no write
    was tried. *)
Definition readOnly (w w' : World) : Prop :=
  crs w' = crs w ∧ cds w' = cds w
  ∧ storeWrites (trace w') = storeWrites (trace w).

Inductive Action :=
| ActCreate (desiredCR : CertificateRequest)
| ActUpdate (storedCR desiredCR : CertificateRequest)
| ActUnchanged (storedCR desiredCR : CertificateRequest)
| ActDelete (storedCR : CertificateRequest).

(** The class of one desired request against the stored list: matched by
    name, then compared by spec. *)
Definition classify (stored : list CertificateRequest) (desiredCR : CertificateRequest)
  : Action :=
  match list_find (λ storedCR, cr_Name storedCR = cr_Name desiredCR) stored with
  | None => ActCreate desiredCR
  | Some (_, storedCR) =>
      if decide (cr_Spec storedCR = cr_Spec desiredCR)
      then ActUnchanged storedCR desiredCR
      else ActUpdate storedCR desiredCR
  end.

(** The diff plan: a class per desired request, and the delete set. *)
Definition diffPlan (stored desired : list CertificateRequest) : list Action :=
  (classify stored <$> desired)
  ++ (ActDelete <$> filter (λ storedCR, cr_Name storedCR ∉ cr_Name <$> desired) stored).

(** The class of one desired request against the store itself. *)
Definition classifyM (m : gmap (string * string) CertificateRequest)
    (desiredCR : CertificateRequest) : Action :=
  match m !! crKey desiredCR with
  | None => ActCreate desiredCR
  | Some storedCR =>
      if decide (cr_Spec storedCR = cr_Spec desiredCR)
      then ActUnchanged storedCR desiredCR
      else ActUpdate storedCR desiredCR
  end.

(** The store write an action stands for. *)
Definition actionCall (cd : ClusterDeployment) (a : Action) : option Call :=
  match a with
  | ActCreate desiredCR => Some (CallCreateCR (owned cd desiredCR))
  | ActUpdate storedCR desiredCR => Some (CallUpdateCR (withSpec storedCR (cr_Spec desiredCR)))
  | ActUnchanged _ _ => None
  | ActDelete storedCR => Some (CallDeleteCR storedCR)
  end.

(** The per-bundle status an action of a desired request reports. *)
Definition actionStatus (cd : ClusterDeployment) (a : Action) : option CertificateBundleStatus :=
  let name desiredCR := strings.TrimPrefix (cr_Name desiredCR) (cd_Name cd +:+ "-") in
  match a with
  | ActCreate desiredCR => Some {| cbs_Name := name desiredCR; cbs_Generated := false |}
  | ActUpdate _ desiredCR => Some {| cbs_Name := name desiredCR; cbs_Generated := false |}
  | ActUnchanged storedCR desiredCR =>
      Some {| cbs_Name := name desiredCR; cbs_Generated := cr_Status_Issued storedCR |}
  | ActDelete _ => None
  end.

(** ** The gates of a pass before the deletion check *)

(** The relocation annotation does not stop the pass: it is absent, or
    its value has a second piece that is not the outgoing value. *)
Definition notRelocating (cd : ClusterDeployment) : Prop :=
  match cd_Annotations cd !! hiveRelocationAnnotation with
  | None => True
  | Some v =>
      ∃ piece, strings.Split v "/" !! 1%nat = Some piece ∧ piece ≠ hiveRelocationOutgoingValue
  end.

(** Managed, not fake, installed, not relocating out. *)
Definition passesGates (cd : ClusterDeployment) : Prop :=
  cd_Labels cd !! ClusterDeploymentManagedLabel = Some "true"
  ∧ cd_Annotations cd !! fakeClusterDeploymentAnnotation ≠ Some "true"
  ∧ spec_Installed (cd_Spec cd) = true
  ∧ notRelocating cd.

(** What the relocation gate does with the value of the annotation. *)
Definition relocationOf (v : string) : Relocation :=
  match strings.Split v "/" !! 1%nat with
  | None => RelocationPanic "index out of range [1] with length 1"
  | Some piece =>
      if String.eqb piece hiveRelocationOutgoingValue then RelocationOutgoing
      else RelocationNone
  end.

(** * Scenarios

    Concrete cluster resources and stores, for the examples of the
    specification.  Every name in them is ASCII, so that [unicodeToLower]
    is never reached; the environments take the identity for it. *)

Module Scenario.

Definition finalizer : string := "certificaterequests.certman.managed.openshift.io".

(** No extra record, no faults. *)
Definition env : Env :=
  {| environ := ∅;
     CertmanOperatorFinalizerLabel := finalizer;
     notificationEmail := "sre@example.com";
     unicodeToLower := λ s, s;
     fault := λ _ _, None |}.

(** The notification-email provider is down. *)
Definition envNoEmail : Env :=
  {| environ := ∅;
     CertmanOperatorFinalizerLabel := finalizer;
     notificationEmail := "sre@example.com";
     unicodeToLower := λ s, s;
     fault := λ _ c, match c with CallGetEmail => Some "configmap not found" | _ => None end |}.

Definition bundle (name secret : string) : CertificateBundleSpec :=
  {| cb_Name := name; cb_Generate := true; cb_CertificateSecretRef_Name := secret |}.

Definition spec (bundles : list CertificateBundleSpec) : ClusterDeploymentSpec :=
  {| spec_ClusterName := "foo";
     spec_BaseDomain := "example.com";
     spec_Installed := true;
     spec_ServingCertificates_Default := "default";
     spec_ServingCertificates_Additional :=
       [{| ac_Name := "extra"; ac_Domain := "extra.foo.example.com" |}];
     spec_Ingress :=
       [{| ing_Name := "default"; ing_Domain := "apps.foo.example.com";
           ing_ServingCertificate := "default" |}];
     spec_Platform := {| plat_AWS := None; plat_Azure := None; plat_GCP := None |};
     spec_CertificateBundles := bundles |}.

Definition status : ClusterDeploymentStatus :=
  {| status_APIURL := "https://api.foo.example.com:6443";
     status_WebConsoleURL := "https://console.foo.example.com";
     status_CertificateBundles := [] |}.

(** The cluster resource ns/foo. *)
Definition cluster (labels annotations : gmap string string) (deleted : option Time)
    (finalizers : list string) (bundles : list CertificateBundleSpec) : ClusterDeployment :=
  {| cd_Name := "foo"; cd_Namespace := "ns";
     cd_Labels := labels; cd_Annotations := annotations;
     cd_DeletionTimestamp := deleted; cd_Finalizers := finalizers;
     cd_Spec := spec bundles; cd_Status := status |}.

(** [cd] under another name. *)
Definition named (name : string) (cd : ClusterDeployment) : ClusterDeployment :=
  {| cd_Name := name; cd_Namespace := cd_Namespace cd;
     cd_Labels := cd_Labels cd; cd_Annotations := cd_Annotations cd;
     cd_DeletionTimestamp := cd_DeletionTimestamp cd;
     cd_Finalizers := cd_Finalizers cd; cd_Spec := cd_Spec cd; cd_Status := cd_Status cd |}.

Definition managed : gmap string string := {[ ClusterDeploymentManagedLabel := "true" ]}.

Definition request : string * string := ("ns", "foo").

(** A store that holds [cd] and the CertificateRequests [l]. *)
Definition world (cd : ClusterDeployment) (l : list CertificateRequest) : World :=
  {| crs := list_to_map ((λ cr, (crKey cr, cr)) <$> l);
     cds := {[ cdKey cd := cd ]};
     clock := 0;
     trace := [] |}.

(** The request of bundle [name] as an earlier pass stored it, with the
    secret [secret]. *)
Definition stored (name secret : string) (cd : ClusterDeployment) : CertificateRequest :=
  owned cd
    (createCertificateRequest env name secret
       (getDomainsForCertBundle env (bundle name secret) cd) cd (notificationEmail env)).

(** An active cluster with the default bundle. *)
Definition active : ClusterDeployment :=
  cluster managed ∅ None [finalizer] [bundle "default" "default-secret"].

(** A cluster with its control plane alone: no additional certificate,
    no ingress. *)
Definition bare : ClusterDeployment :=
  {| cd_Name := "foo"; cd_Namespace := "ns";
     cd_Labels := managed; cd_Annotations := ∅;
     cd_DeletionTimestamp := None; cd_Finalizers := [finalizer];
     cd_Spec :=
       {| spec_ClusterName := "foo";
          spec_BaseDomain := "example.com";
          spec_Installed := true;
          spec_ServingCertificates_Default := "default";
          spec_ServingCertificates_Additional := [];
          spec_Ingress := [];
          spec_Platform := {| plat_AWS := None; plat_Azure := None; plat_GCP := None |};
          spec_CertificateBundles := [bundle "default" "default-secret"] |};
     cd_Status := status |}.

(** A cluster whose relocation annotation has no separator. *)
Definition relocating : ClusterDeployment :=
  cluster managed {[ hiveRelocationAnnotation := "outgoing" ]} None [finalizer]
    [bundle "default" "default-secret"].

(** A managed cluster that is being deleted and owns two requests. *)
Definition deleting : ClusterDeployment :=
  cluster managed ∅ (Some 1%Z) [finalizer]
    [bundle "default" "default-secret"; bundle "extra" "extra-secret"].

(** Two generate-enabled bundles with one name and different secrets. *)
Definition twins : ClusterDeployment :=
  cluster managed ∅ None [finalizer]
    [bundle "default" "secret-1"; bundle "default" "secret-2"].

(** A generate-enabled bundle that no source gives a domain, next to
    the default bundle. *)
Definition orphaned : ClusterDeployment :=
  cluster managed ∅ None [finalizer]
    [bundle "orphan" "orphan-secret"; bundle "default" "default-secret"].

(** The desired request of a bundle of [cd]. *)
Definition desired (name secret : string) (cd : ClusterDeployment) : CertificateRequest :=
  createCertificateRequest env name secret
    (getDomainsForCertBundle env (bundle name secret) cd) cd (notificationEmail env).

(** [cr] once the issuance workflow has issued its certificate. *)
Definition issued (cr : CertificateRequest) : CertificateRequest :=
  {| cr_Name := cr_Name cr; cr_Namespace := cr_Namespace cr;
     cr_OwnerReferences := cr_OwnerReferences cr;
     cr_Spec := cr_Spec cr; cr_Status_Issued := true |}.

(** Every create call of the first five calls times out. *)
Definition envSlowStart : Env :=
  {| environ := ∅;
     CertmanOperatorFinalizerLabel := finalizer;
     notificationEmail := "sre@example.com";
     unicodeToLower := λ s, s;
     fault := λ n c, match c with
                     | CallCreateCR _ => if (n <? 5)%nat then Some "timeout" else None
                     | _ => None
                     end |}.

End Scenario.

(** * More vocabulary *)

(** The calls of a trace that fall under [p]. *)
Definition callsWhere (p : Call → bool) (t : list Event) : list Call :=
  List.filter p (calls t).

Definition isDelete (c : Call) : bool :=
  match c with
  | CallDeleteCR _ => true
  | _ => false
  end.

Definition isGetCR (c : Call) : bool :=
  match c with
  | CallGetCR _ _ => true
  | _ => false
  end.

(** The calls that concern CertificateRequests. *)
Definition isCRCall (c : Call) : bool :=
  match c with
  | CallListCR _ | CallGetCR _ _ | CallCreateCR _ | CallUpdateCR _ | CallDeleteCR _ => true
  | _ => false
  end.

(** The store keeps every ClusterDeployment under its own namespace and
    name. *)
Definition wfCDs (m : gmap (string * string) ClusterDeployment) : Prop :=
  ∀ k cd, m !! k = Some cd → cdKey cd = k.

(** The platform block of a request for one cloud. *)
Definition onlyAWS (aws : AWSPlatform) : CertPlatform :=
  {| cplat_AWS := Some {| awss_Credentials_Name := aws_CredentialsSecretRef_Name aws;
                          awss_Region := aws_Region aws |};
     cplat_GCP := None; cplat_Azure := None |}.

Definition onlyGCP (gcp : GCPPlatform) : CertPlatform :=
  {| cplat_AWS := None;
     cplat_GCP := Some {| gcps_Credentials_Name := gcp_CredentialsSecretRef_Name gcp |};
     cplat_Azure := None |}.

Definition onlyAzure (azure : AzurePlatform) : CertPlatform :=
  {| cplat_AWS := None; cplat_GCP := None;
     cplat_Azure :=
       Some {| azures_Credentials_Name := azure_CredentialsSecretRef_Name azure;
               azures_ResourceGroupName := azure_BaseDomainResourceGroupName azure |} |}.

Definition noPlatform : CertPlatform :=
  {| cplat_AWS := None; cplat_GCP := None; cplat_Azure := None |}.

(** The errors of the calls of the create/update loop that failed: a Get
    that failed otherwise than by not finding the request, and a refused
    SetControllerReference, Create or Update. *)
Definition loopFailures (t : list Event) : list Error :=
  omap (λ e, match e with
             | Called (CallGetCR _ _) (Some err) => if IsNotFound err then None else Some err
             | Called (CallSetControllerReference _ _) (Some err)
             | Called (CallCreateCR _) (Some err)
             | Called (CallUpdateCR _) (Some err) => Some err
             | _ => None
             end) t.

(** The calls a sync of [cd] may make, for the desired requests
    [desiredCRs] and the requests [storedCRs] listed at its start: a create
    carries a desired request with its controller reference, an update
    carries the spec of a desired request, a delete is aimed at a listed
    request whose name no desired request has, and no cluster resource is
    patched. *)
Definition planWrite (cd : ClusterDeployment) (desiredCRs storedCRs : list CertificateRequest)
    (c : Call) : Prop :=
  match c with
  | CallCreateCR cr => ∃ d, d ∈ desiredCRs ∧ cr = owned cd d
  | CallUpdateCR cr => ∃ d, d ∈ desiredCRs ∧ cr_Spec cr = cr_Spec d
  | CallDeleteCR cr => cr ∈ storedCRs ∧ cr_Name cr ∉ cr_Name <$> desiredCRs
  | CallPatchCD _ => False
  | _ => True
  end.

(** More scenarios. *)
Module Cases.

(** The active cluster before the first pass: no finalizer yet. *)
Definition fresh : ClusterDeployment :=
  Scenario.cluster Scenario.managed ∅ None [] [Scenario.bundle "default" "default-secret"].

(** A fake cluster whose relocation annotation has no separator. *)
Definition fake : ClusterDeployment :=
  Scenario.cluster Scenario.managed
    {[ fakeClusterDeploymentAnnotation := "true"; hiveRelocationAnnotation := "outgoing" ]}
    None [] [Scenario.bundle "default" "default-secret"].

(** A cluster on its way out, under deletion, with the finalizer. *)
Definition leaving : ClusterDeployment :=
  Scenario.cluster Scenario.managed {[ hiveRelocationAnnotation := "hive-b/outgoing" ]}
    (Some 1%Z) [Scenario.finalizer] [Scenario.bundle "default" "default-secret"].

(** The bundle extra is switched off, next to the default bundle. *)
Definition mixed : ClusterDeployment :=
  Scenario.cluster Scenario.managed ∅ None [Scenario.finalizer]
    [{| cb_Name := "extra"; cb_Generate := false; cb_CertificateSecretRef_Name := "extra-secret" |};
     Scenario.bundle "default" "default-secret"].

(** The active cluster on AWS and Azure at once. *)
Definition twoClouds : ClusterDeployment :=
  {| cd_Name := "foo"; cd_Namespace := "ns";
     cd_Labels := Scenario.managed; cd_Annotations := ∅;
     cd_DeletionTimestamp := None; cd_Finalizers := [Scenario.finalizer];
     cd_Spec :=
       {| spec_ClusterName := "foo";
          spec_BaseDomain := "example.com";
          spec_Installed := true;
          spec_ServingCertificates_Default := "default";
          spec_ServingCertificates_Additional := [];
          spec_Ingress := [];
          spec_Platform :=
            {| plat_AWS := Some {| aws_CredentialsSecretRef_Name := "aws-creds";
                                   aws_Region := "us-east-1" |};
               plat_Azure := Some {| azure_CredentialsSecretRef_Name := "azure-creds";
                                     azure_BaseDomainResourceGroupName := "rg" |};
               plat_GCP := None |};
          spec_CertificateBundles := [Scenario.bundle "default" "default-secret"] |};
     cd_Status := Scenario.status |}.

(** Every patch of a cluster resource is refused. *)
Definition envNoPatch : Env :=
  {| environ := ∅;
     CertmanOperatorFinalizerLabel := Scenario.finalizer;
     notificationEmail := "sre@example.com";
     unicodeToLower := λ s, s;
     fault := λ _ c, match c with CallPatchCD _ => Some "conflict" | _ => None end |}.

(** Every update of a request is refused. *)
Definition envNoUpdate : Env :=
  {| environ := ∅;
     CertmanOperatorFinalizerLabel := Scenario.finalizer;
     notificationEmail := "sre@example.com";
     unicodeToLower := λ s, s;
     fault := λ _ c, match c with CallUpdateCR _ => Some "conflict" | _ => None end |}.

(** A delete is refused once a call has been made. *)
Definition envNoSecondDelete : Env :=
  {| environ := ∅;
     CertmanOperatorFinalizerLabel := Scenario.finalizer;
     notificationEmail := "sre@example.com";
     unicodeToLower := λ s, s;
     fault := λ n c, match c with
                     | CallDeleteCR _ => if (n <? 1)%nat then None else Some "timeout"
                     | _ => None
                     end |}.

(** The store is unreachable. *)
Definition envDown : Env :=
  {| environ := ∅;
     CertmanOperatorFinalizerLabel := Scenario.finalizer;
     notificationEmail := "sre@example.com";
     unicodeToLower := λ s, s;
     fault := λ _ _, Some "connection refused" |}.

(** A request of another namespace. *)
Definition foreign : CertificateRequest :=
  {| cr_Name := "bar-default"; cr_Namespace := "other"; cr_OwnerReferences := [];
     cr_Spec := cr_Spec (Scenario.desired "default" "default-secret" Scenario.active);
     cr_Status_Issued := true |}.

End Cases.

(** * Properties *)

(** ** Loops that append *)

Lemma fold_left_snoc_filter {A B : Type} (P : A → Prop) `{∀ x, Decision (P x)}
    (g : A → B) (l : list A) (acc : list B) :
  fold_left (λ acc x, if decide (P x) then acc ++ [g x] else acc) l acc
  = acc ++ (g <$> filter P l).
Proof.
  revert acc. induction l as [|x l IH]; intros acc; simpl.
  - by rewrite app_nil_r.
  - rewrite IH, filter_cons. destruct (decide (P x)); simpl; [|done].
    by rewrite <- app_assoc.
Qed.

(** ** The domain resolver *)

(** C4. The domain resolver returns exactly the ordered concatenation of
    the three sources: the api name (and the extra record when one is
    configured) for the default control-plane bundle, the domains of the
    additional control-plane entries named like the bundle, and the
    wildcard form of the domains of the ingress endpoints that reference
    the bundle.  With cluster name foo, base domain example.com, no extra
    record and no other source naming the bundle, the default bundle
    resolves to the api name alone. *)
Theorem getDomainsForCertBundle_resolved :
  (∀ env cb cd, getDomainsForCertBundle env cb cd = resolvedDomains env cb cd)
  ∧ (∀ env cb cd,
       cb_Name cb = spec_ServingCertificates_Default (cd_Spec cd) →
       spec_ClusterName (cd_Spec cd) = "foo" →
       spec_BaseDomain (cd_Spec cd) = "example.com" →
       Getenv env "EXTRA_RECORD" = EmptyString →
       Forall (λ a, ac_Name a ≠ cb_Name cb) (spec_ServingCertificates_Additional (cd_Spec cd)) →
       Forall (λ i, ing_ServingCertificate i ≠ cb_Name cb) (spec_Ingress (cd_Spec cd)) →
       getDomainsForCertBundle env cb cd = ["api.foo.example.com"]).
Proof.
  assert (Hgen : ∀ env cb cd, getDomainsForCertBundle env cb cd = resolvedDomains env cb cd).
  { intros env cb cd. unfold getDomainsForCertBundle, resolvedDomains.
    rewrite (fold_left_snoc_filter (λ i, ing_ServingCertificate i = cb_Name cb)
               (λ i, if negb (strings.HasPrefix (ing_Domain i) "*.")
                     then "*." +:+ ing_Domain i else ing_Domain i)).
    rewrite (fold_left_snoc_filter (λ a, ac_Name a = cb_Name cb) ac_Domain).
    rewrite <- app_assoc. f_equal; [|f_equal].
    - destruct (decide (spec_ServingCertificates_Default (cd_Spec cd) = cb_Name cb)) as [Hd|Hd];
        destruct (decide (cb_Name cb = spec_ServingCertificates_Default (cd_Spec cd)));
        try congruence; simpl.
      destruct (String.eqb_spec (Getenv env "EXTRA_RECORD") EmptyString) as [He|He];
        destruct (decide (Getenv env "EXTRA_RECORD" = EmptyString)); try congruence; done.
    - apply list_fmap_ext. intros _ i _. unfold wildcard.
      by destruct (strings.HasPrefix (ing_Domain i) "*."). }
  split; [exact Hgen|].
  intros env cb cd Hdef Hname Hbase Hextra Hadd Hing.
  rewrite Hgen. unfold resolvedDomains.
  rewrite decide_True by done. rewrite decide_True by done.
  rewrite Hname, Hbase.
  assert (Ha : filter (λ a, ac_Name a = cb_Name cb)
                 (spec_ServingCertificates_Additional (cd_Spec cd)) = []).
  { induction Hadd as [|a l Hne _ IH]; [done|]. by rewrite filter_cons_False. }
  assert (Hi : filter (λ i, ing_ServingCertificate i = cb_Name cb)
                 (spec_Ingress (cd_Spec cd)) = []).
  { induction Hing as [|a l Hne _ IH]; [done|]. by rewrite filter_cons_False. }
  rewrite Ha, Hi. reflexivity.
Qed.

(** The default bundle of the bare cluster foo. *)
Lemma getDomainsForCertBundle_resolved_witness :
  getDomainsForCertBundle Scenario.env (Scenario.bundle "default" "default-secret")
    Scenario.bare
  = ["api.foo.example.com"].
Proof.
  destruct getDomainsForCertBundle_resolved as [_ H].
  apply H; [reflexivity | reflexivity | reflexivity | reflexivity | constructor | constructor].
Defined.

(** ** Views of the trace and the store invariant *)

Lemma calls_app t1 t2 : calls (t1 ++ t2) = calls t1 ++ calls t2.
Proof. apply omap_app. Qed.

Lemma crWrites_app t1 t2 : crWrites (t1 ++ t2) = crWrites t1 ++ crWrites t2.
Proof. unfold crWrites. by rewrite calls_app, List.filter_app. Qed.

Lemma patches_app t1 t2 : patches (t1 ++ t2) = patches t1 ++ patches t2.
Proof. unfold patches. by rewrite calls_app, List.filter_app. Qed.

Lemma storeWrites_app t1 t2 : storeWrites (t1 ++ t2) = storeWrites t1 ++ storeWrites t2.
Proof. unfold storeWrites. by rewrite calls_app, List.filter_app. Qed.

Lemma errorLogs_app t1 t2 : errorLogs (t1 ++ t2) = errorLogs t1 ++ errorLogs t2.
Proof. apply omap_app. Qed.

Lemma wfStore_insert m cr : wfStore m → wfStore (<[crKey cr := cr]> m).
Proof.
  intros Hwf k c. rewrite lookup_insert. case_decide; [|by apply Hwf].
  intros; by simplify_eq.
Qed.

Lemma wfStore_delete m k : wfStore m → wfStore (delete k m).
Proof.
  intros Hwf k' c. rewrite lookup_delete. case_decide; [done|by apply Hwf].
Qed.

(** The stores of the scenarios are well formed. *)
Lemma wfStore_world cd l : wfStore (crs (Scenario.world cd l)).
Proof.
  intros k c Hk. simpl in Hk. apply elem_of_list_to_map_2 in Hk.
  apply list_elem_of_fmap in Hk as (c' & [= -> ->] & _). done.
Qed.

(** ** Proof steps for the client calls *)

(** Unfold the calls on the collaborators. *)
Ltac unfold_ops :=
  unfold clientGetCR, clientCreateCR, clientUpdateCR, clientDeleteCR, clientPatchCD,
    clientListCR, clientGetCD, SetControllerReference, GetDefaultNotificationEmailAddress,
    faultNow, DeepEqual, DeepCopy in *.

(** Push the views of the trace through the events a step appended. *)
Ltac views :=
  repeat (rewrite ?crWrites_app, ?patches_app, ?storeWrites_app, ?errorLogs_app, ?app_nil_r; simpl).

(** Turn the result of the fault oracle into the message or its absence. *)
Ltac faults :=
  repeat match goal with
  | H : ErrOther <$> _ = Some _ |- _ => apply fmap_Some in H as (? & ? & ?); simplify_eq/=
  | H : ErrOther <$> _ = None |- _ => apply fmap_None in H
  end.

(** Turn the tests of [DeepEqual] into equations. *)
Ltac bdec :=
  repeat match goal with
  | H : negb (bool_decide _) = true |- _ =>
      apply negb_true_iff, bool_decide_eq_false in H
  | H : negb (bool_decide _) = false |- _ =>
      apply negb_false_iff, bool_decide_eq_true in H
  end.

(** Follow every branch of the code at hand. *)
Ltac branches := repeat (case_match; simplify_eq/=).

(** Every object found in a well-formed store sits under its own key. *)
Ltac wf_keys :=
  repeat match goal with
  | Hwf : wfStore ?m, H : ?m !! ?k = Some ?c |- _ =>
      lazymatch goal with
      | _ : crKey c = k |- _ => fail
      | _ => pose proof (Hwf k c H)
      end
  end.

(** ** One round of the create/update loop *)

Lemma syncOne_frame env cd d w round w' :
  wfStore (crs w) → syncOne env cd d w = (round, w') →
  cds w' = cds w ∧ patches (trace w') = patches (trace w)
  ∧ wfStore (crs w')
  ∧ ∀ k, k ≠ crKey d → crs w' !! k = crs w !! k.
Proof.
  intros Hwf Hrun. unfold syncOne in Hrun. unfold_ops.
  branches. 
  all: faults.
  all: views; repeat split; try done.
  all: try (by apply wfStore_insert).
  all: intros k Hk; try done; wf_keys; rewrite lookup_insert_ne; try done.
  all:  unfold crKey in *; simpl in *; congruence.
Qed.

Lemma syncOne_success env cd d w round w' :
  wfStore (crs w) → syncOne env cd d w = (round, w') → round_err round = None →
  ∃ c, crs w' !! crKey d = Some c ∧ cr_Spec c = cr_Spec d.
Proof.
  intros Hwf Hrun. unfold syncOne in Hrun. unfold_ops.
  branches; intros Herr; simplify_eq/=; faults; wf_keys.
  - exists (withSpec a (cr_Spec d)). split; [|reflexivity].
    rewrite lookup_insert, decide_True; [reflexivity|].
    unfold crKey in *; simpl in *; congruence.
  - exists a. split; [assumption|]. by case_bool_decide.
  - exists (owned cd d). split; [|reflexivity].
    rewrite lookup_insert, decide_True; reflexivity.
Qed.

Lemma syncOne_unchanged env cd d w round w' c :
  syncOne env cd d w = (round, w') →
  crs w !! crKey d = Some c → cr_Spec c = cr_Spec d →
  crs w' = crs w ∧ crWrites (trace w') = crWrites (trace w).
Proof.
  intros Hrun Hc Hspec. unfold syncOne in Hrun. unfold_ops. unfold crKey in *.
  branches; faults; bdec; views; try contradiction;
    split; reflexivity.
Qed.

Lemma syncOne_noFaults env cd d w round w' :
  noFaults env → wfStore (crs w) → syncOne env cd d w = (round, w') →
  round_err round = None
  ∧ round_status round = actionStatus cd (classifyM (crs w) d)
  ∧ crWrites (trace w') = crWrites (trace w) ++ option_list (actionCall cd (classifyM (crs w) d))
  ∧ errorLogs (trace w') = errorLogs (trace w).
Proof.
  intros Hnf Hwf Hrun. unfold syncOne in Hrun. unfold_ops. unfold classifyM, crKey in *.
  branches; bdec; views; wf_keys; try contradiction;
    repeat match goal with
    | H : context [fault _ _ _] |- _ => rewrite Hnf in H; simpl in H
    end; try discriminate;
    unfold crKey in *; simpl in *; try congruence;
    repeat split; try reflexivity; congruence.
Qed.

(** ** The create/update loop *)

Lemma omap_ext_in {A B : Type} (f g : A → option B) (l : list A) :
  (∀ x, x ∈ l → f x = g x) → omap f l = omap g l.
Proof.
  induction l as [|x l IH]; intros Hfg; [done|].
  cbn. rewrite (Hfg x) by left. rewrite IH; [done|].
  intros y Hy. apply Hfg. by right.
Qed.

Lemma syncLoop_app_acc env cd ds sl errs w :
  ∃ sl' errs' w',
    syncLoop env cd ds sl errs w = (sl ++ sl', errs ++ errs', w')
    ∧ syncLoop env cd ds [] [] w = (sl', errs', w').
Proof.
  revert sl errs w. induction ds as [|d ds IH]; intros sl errs w; simpl.
  - exists [], [], w. by rewrite !app_nil_r.
  - destruct (syncOne env cd d w) as [round w1].
    destruct (IH (sl ++ option_list (round_status round))
                 (errs ++ option_list (round_err round)) w1) as (sl1 & errs1 & w' & -> & H1).
    destruct (IH (option_list (round_status round))
                 (option_list (round_err round)) w1) as (sl2 & errs2 & w2 & -> & H2).
    rewrite H1 in H2. simplify_eq.
    exists (option_list (round_status round) ++ sl2),
           (option_list (round_err round) ++ errs2), w2.
    by rewrite !app_assoc.
Qed.

(** The create/update loop touches CertificateRequests only, and only
    at the keys of the desired requests. *)
Lemma syncLoop_frame env cd ds sl errs w sl' errs' w' :
  wfStore (crs w) → syncLoop env cd ds sl errs w = (sl', errs', w') →
  cds w' = cds w ∧ patches (trace w') = patches (trace w)
  ∧ wfStore (crs w')
  ∧ ∀ k, k ∉ crKey <$> ds → crs w' !! k = crs w !! k.
Proof.
  revert sl errs w. induction ds as [|d ds IH]; intros sl errs w Hwf Hrun; simpl in Hrun.
  - by simplify_eq.
  - destruct (syncOne env cd d w) as [round w1] eqn:H1.
    destruct (syncOne_frame _ _ _ _ _ _ Hwf H1) as (Hcds & Hp & Hwf1 & Hfr).
    destruct (IH _ _ _ Hwf1 Hrun) as (Hcds' & Hp' & Hwf' & Hfr').
    repeat split; [congruence|congruence|done|].
    intros k Hk. rewrite fmap_cons, not_elem_of_cons in Hk. destruct Hk.
    rewrite Hfr' by done. by apply Hfr.
Qed.

(** A loop that ends without an error leaves every desired request in
    the store with the desired spec, when the names are distinct. *)
Lemma syncLoop_success env cd ds sl errs w sl' w' :
  wfStore (crs w) → NoDup (crKey <$> ds) →
  syncLoop env cd ds sl errs w = (sl', [], w') →
  ∀ d, d ∈ ds → ∃ c, crs w' !! crKey d = Some c ∧ cr_Spec c = cr_Spec d.
Proof.
  revert sl errs w. induction ds as [|d ds IH]; intros sl errs w Hwf Hnd Hrun d' Hd'.
  - by apply elem_of_nil in Hd'.
  - simpl in Hrun. destruct (syncOne env cd d w) as [round w1] eqn:H1.
    rewrite fmap_cons in Hnd. apply NoDup_cons in Hnd as [Hnotin Hnd].
    destruct (syncOne_frame _ _ _ _ _ _ Hwf H1) as (_ & _ & Hwf1 & _).
    destruct (syncLoop_app_acc env cd ds (sl ++ option_list (round_status round))
                (errs ++ option_list (round_err round)) w1) as (sl1 & errs1 & w2 & Heq & _).
    rewrite Hrun in Heq. simplify_eq.
    match goal with H : [] = _ |- _ => symmetry in H; apply app_eq_nil in H as [H _];
      apply app_eq_nil in H as [_ Herr] end.
    apply elem_of_cons in Hd' as [->|Hd'].
    + destruct (syncLoop_frame _ _ _ _ _ _ _ _ _ Hwf1 Hrun) as (_ & _ & _ & Hfr).
      rewrite Hfr by done.
      apply (syncOne_success _ _ _ _ _ _ Hwf H1).
      by destruct (round_err round).
    + eapply IH; done.
Qed.

(** Where every desired request is in the store with the desired spec
    already, the loop writes nothing. *)
Lemma syncLoop_unchanged env cd ds sl errs w sl' errs' w' :
  (∀ d, d ∈ ds → ∃ c, crs w !! crKey d = Some c ∧ cr_Spec c = cr_Spec d) →
  syncLoop env cd ds sl errs w = (sl', errs', w') →
  crs w' = crs w ∧ crWrites (trace w') = crWrites (trace w).
Proof.
  revert sl errs w. induction ds as [|d ds IH]; intros sl errs w Hall Hrun; simpl in Hrun.
  - by simplify_eq.
  - destruct (syncOne env cd d w) as [round w1] eqn:H1.
    destruct (Hall d) as (c & Hc & Hspec); [left|].
    destruct (syncOne_unchanged _ _ _ _ _ _ _ H1 Hc Hspec) as [Hcrs Hw].
    assert (Hall1 : ∀ d', d' ∈ ds →
              ∃ c, crs w1 !! crKey d' = Some c ∧ cr_Spec c = cr_Spec d').
    { intros d' Hd'. rewrite Hcrs. apply Hall. by right. }
    destruct (IH _ _ _ Hall1 Hrun) as [Hcrs' Hw'].
    split; congruence.
Qed.

(** Without faults the loop reports no error, and it writes and reports
    what the class of each desired request says. *)
Lemma syncLoop_noFaults env cd ds sl errs w :
  noFaults env → wfStore (crs w) → NoDup (crKey <$> ds) →
  ∃ w',
    syncLoop env cd ds sl errs w
    = (sl ++ omap (λ d, actionStatus cd (classifyM (crs w) d)) ds, errs, w')
    ∧ crWrites (trace w')
      = crWrites (trace w) ++ omap (λ d, actionCall cd (classifyM (crs w) d)) ds
    ∧ errorLogs (trace w') = errorLogs (trace w).
Proof.
  intros Hnf. revert sl errs w.
  induction ds as [|d ds IH]; intros sl errs w Hwf Hnd; simpl.
  - exists w. by rewrite !app_nil_r.
  - destruct (syncOne env cd d w) as [round w1] eqn:H1.
    rewrite fmap_cons in Hnd. apply NoDup_cons in Hnd as [Hnotin Hnd].
    destruct (syncOne_frame _ _ _ _ _ _ Hwf H1) as (_ & _ & Hwf1 & Hfr).
    destruct (syncOne_noFaults _ _ _ _ _ _ Hnf Hwf H1) as (Herr & Hst & Hw & Hl).
    destruct (IH (sl ++ option_list (round_status round))
                (errs ++ option_list (round_err round)) w1 Hwf1 Hnd) as (w' & Hrun & Hw' & Hl').
    assert (Hsame : ∀ d', d' ∈ ds → classifyM (crs w1) d' = classifyM (crs w) d').
    { intros d' Hd'. unfold classifyM. rewrite Hfr; [done|].
      intros Heq. apply Hnotin. rewrite <- Heq. by apply list_elem_of_fmap_2. }
    exists w'. rewrite Hrun, Hw', Hl', Hw, Hl, Herr, Hst. simpl.
    rewrite app_nil_r, <- !app_assoc.
    rewrite (omap_ext_in (λ d0, actionStatus cd (classifyM (crs w1) d0))
               (λ d0, actionStatus cd (classifyM (crs w) d0)))
      by (intros d' Hd'; by rewrite Hsame).
    rewrite (omap_ext_in (λ d0, actionCall cd (classifyM (crs w1) d0))
               (λ d0, actionCall cd (classifyM (crs w) d0)))
      by (intros d' Hd'; by rewrite Hsame).
    repeat split.
    all: by destruct (actionStatus cd (classifyM (crs w) d)),
                     (actionCall cd (classifyM (crs w) d)).
Qed.

Lemma syncLoop_noFaults_any env cd ds sl errs w :
  noFaults env → wfStore (crs w) →
  ∃ sl' w' ws,
    syncLoop env cd ds sl errs w = (sl', errs, w')
    ∧ crWrites (trace w') = crWrites (trace w) ++ ws
    ∧ errorLogs (trace w') = errorLogs (trace w).
Proof.
  intros Hnf. revert sl errs w.
  induction ds as [|d ds IH]; intros sl errs w Hwf; simpl.
  - exists sl, w, []. by rewrite app_nil_r.
  - destruct (syncOne env cd d w) as [round w1] eqn:H1.
    destruct (syncOne_frame _ _ _ _ _ _ Hwf H1) as (_ & _ & Hwf1 & _).
    destruct (syncOne_noFaults _ _ _ _ _ _ Hnf Hwf H1) as (Herr & _ & Hw & Hl).
    destruct (IH (sl ++ option_list (round_status round))
                (errs ++ option_list (round_err round)) w1 Hwf1)
      as (sl' & w' & ws & Hrun & Hw' & Hl').
    rewrite Herr in Hrun |- *. simpl in Hrun |- *. rewrite app_nil_r in Hrun |- *.
    exists sl', w', (option_list (actionCall cd (classifyM (crs w) d)) ++ ws).
    rewrite Hrun, Hw', Hw, Hl', Hl. by rewrite <- app_assoc.
Qed.

(** ** The delete set *)

Lemma existsb_name (c : CertificateRequest) (ds : list CertificateRequest) :
  existsb (λ d, String.eqb (cr_Name d) (cr_Name c)) ds
  = bool_decide (cr_Name c ∈ cr_Name <$> ds).
Proof.
  induction ds as [|d ds IH]; simpl.
  - reflexivity.
  - rewrite IH. destruct (String.eqb_spec (cr_Name d) (cr_Name c)) as [Heq|Hne]; simpl.
    + symmetry. apply bool_decide_eq_true. rewrite Heq. left.
    + apply bool_decide_ext. rewrite elem_of_cons. intuition congruence.
Qed.

(** The delete set holds the stored requests whose name no desired
    request has, in the order of the stored list. *)
Lemma deleteSet_filter (currentCRs desiredCRs : list CertificateRequest) :
  deleteSet currentCRs desiredCRs
  = filter (λ c, cr_Name c ∉ cr_Name <$> desiredCRs) currentCRs.
Proof.
  unfold deleteSet.
  enough (Hacc : ∀ acc,
    fold_left
      (λ deleteCRs currentCR,
         if negb (existsb (λ desiredCR, String.eqb (cr_Name desiredCR) (cr_Name currentCR))
                    desiredCRs)
         then deleteCRs ++ [currentCR] else deleteCRs) currentCRs acc
    = acc ++ filter (λ c, cr_Name c ∉ cr_Name <$> desiredCRs) currentCRs)
    by apply (Hacc []).
  induction currentCRs as [|c l IH]; intros acc; simpl.
  - by rewrite app_nil_r.
  - rewrite IH, existsb_name, filter_cons.
    destruct (decide (cr_Name c ∉ cr_Name <$> desiredCRs)) as [Hn|Hn].
    + rewrite bool_decide_false by done. simpl. by rewrite <- app_assoc.
    + rewrite bool_decide_true; [done|]. by apply dec_stable.
Qed.

(** ** The store as a list *)

Lemma elem_of_listed ns m c :
  c ∈ listed ns m ↔ ∃ k, m !! k = Some c ∧ cr_Namespace c = ns.
Proof.
  unfold listed. rewrite list_elem_of_filter, list_elem_of_fmap. split.
  - intros (Hns & [k c'] & -> & Hin). apply elem_of_map_to_list in Hin. eauto.
  - intros (k & Hk & Hns). split; [done|]. exists (k, c). split; [done|].
    by apply elem_of_map_to_list.
Qed.

Lemma NoDup_listed_keys ns m : wfStore m → NoDup (crKey <$> listed ns m).
Proof.
  intros Hwf. unfold listed.
  assert (Hsub : crKey <$> filter (λ cr, cr_Namespace cr = ns) (map_to_list m).*2
                 `sublist_of` crKey <$> (map_to_list m).*2)
    by apply fmap_sublist, sublist_filter.
  refine (sublist_NoDup _ _ _ Hsub).
  replace (crKey <$> (map_to_list m).*2) with (map_to_list m).*1.
  - apply NoDup_fst_map_to_list.
  - rewrite <- list_fmap_compose. apply list_fmap_ext.
    intros i [k c] Hin%list_elem_of_lookup_2%elem_of_map_to_list. simpl.
    symmetry. by apply Hwf.
Qed.

(** ** The delete loop *)

Lemma deleteLoop_frame env l w e w' :
  deleteLoop env l w = (e, w') →
  cds w' = cds w ∧ patches (trace w') = patches (trace w)
  ∧ (wfStore (crs w) → wfStore (crs w'))
  ∧ ∀ k, k ∉ crKey <$> l → crs w' !! k = crs w !! k.
Proof.
  revert w. induction l as [|c l IH]; intros w Hrun; simpl in Hrun.
  - by simplify_eq.
  - unfold clientDeleteCR, faultNow in Hrun.
    branches; faults; views;
      try (repeat split; first [done | by rewrite app_nil_r]).
    match goal with H : deleteLoop _ _ _ = _ |- _ =>
      apply IH in H as (Hcds & Hp & Hwf' & Hfr) end.
    simpl in *. revert Hp. views. intros Hp. repeat split; try done.
    + intros Hwf. by apply Hwf', wfStore_delete.
    + intros k Hk. apply not_elem_of_cons in Hk as [? ?].
      rewrite Hfr by done. by rewrite lookup_delete_ne.
Qed.

(** A delete loop that ends without an error has deleted every request
    of its list. *)
Lemma deleteLoop_success env l w w' :
  deleteLoop env l w = (None, w') →
  crWrites (trace w') = crWrites (trace w) ++ (CallDeleteCR <$> l)
  ∧ errorLogs (trace w') = errorLogs (trace w)
  ∧ ∀ k, k ∈ crKey <$> l → crs w' !! k = None.
Proof.
  revert w. induction l as [|c l IH]; intros w Hrun; simpl in Hrun.
  - simplify_eq. rewrite app_nil_r. repeat split. by intros k Hk%elem_of_nil.
  - unfold clientDeleteCR, faultNow in Hrun.
    branches; faults.
    match goal with H : deleteLoop _ _ _ = _ |- _ =>
      pose proof H as Hdel; apply IH in H as (Hw & Hl & Hgone) end.
    simpl in *. rewrite Hw, Hl. views. rewrite <- app_assoc. repeat split.
    intros k Hk. destruct (decide (k ∈ crKey <$> l)) as [Hin|Hnin]; [by apply Hgone|].
    apply elem_of_cons in Hk as [->|?]; [|done].
    destruct (deleteLoop_frame _ _ _ _ _ Hdel) as (_ & _ & _ & Hfr).
    rewrite Hfr by done. simpl. apply lookup_delete_eq.
Qed.

(** Without faults, the delete loop deletes any list of stored requests
    with distinct keys. *)
Lemma deleteLoop_noFaults env l w :
  noFaults env → NoDup (crKey <$> l) → (∀ c, c ∈ l → is_Some (crs w !! crKey c)) →
  ∃ w', deleteLoop env l w = (None, w').
Proof.
  intros Hnf. revert w. induction l as [|c l IH]; intros w Hnd Hin; simpl.
  - by eexists.
  - rewrite fmap_cons in Hnd. apply NoDup_cons in Hnd as [Hnotin Hnd].
    unfold clientDeleteCR, faultNow. rewrite Hnf. simpl.
    destruct (Hin c) as [c' Hc']; [left|]. rewrite Hc'.
    apply IH; [done|]. intros c2 Hc2. simpl.
    rewrite lookup_delete_ne; [apply Hin; by right|].
    intros Heq. apply Hnotin. rewrite Heq. by apply list_elem_of_fmap_2.
Qed.

(** ** Listing and collecting the desired requests *)

Lemma readOnly_refl w : readOnly w w.
Proof. done. Qed.

Lemma readOnly_trans w1 w2 w3 : readOnly w1 w2 → readOnly w2 w3 → readOnly w1 w3.
Proof. unfold readOnly. intros (? & ? & ?) (? & ? & ?). repeat split; congruence. Qed.

Lemma getCurrentCertificateRequests_reads env cd w r w' :
  getCurrentCertificateRequests env cd w = (r, w') →
  readOnly w w' ∧ ∀ l, r = Ok l → l = listed (cd_Namespace cd) (crs w).
Proof.
  unfold getCurrentCertificateRequests, clientListCR, faultNow, readOnly.
  intros Hrun. branches; faults; views;
    (split; [by rewrite ?app_nil_r|]); intros; by simplify_eq.
Qed.

Lemma getCurrentCertificateRequests_noFaults env cd w :
  noFaults env →
  ∃ w', getCurrentCertificateRequests env cd w = (Ok (listed (cd_Namespace cd) (crs w)), w')
        ∧ trace w' = trace w ++ [Called (CallListCR (cd_Namespace cd)) None].
Proof.
  intros Hnf. unfold getCurrentCertificateRequests, clientListCR, faultNow.
  rewrite Hnf. simpl. by eexists.
Qed.

Lemma desiredLoop_reads env cd bundles acc w r w' :
  desiredLoop env cd bundles acc w = (r, w') →
  readOnly w w' ∧ ∀ ds, r = Ok ds → ds = acc ++ desiredFrom env cd bundles.
Proof.
  revert acc w. induction bundles as [|cb bundles IH]; intros acc w Hrun; simpl in Hrun.
  - simplify_eq. split; [done|]. intros; simplify_eq. unfold desiredFrom. by rewrite app_nil_r.
  - unfold desiredFrom.
    unfold GetDefaultNotificationEmailAddress, faultNow in Hrun.
    destruct (cb_Generate cb) eqn:Hgen.
    2:{ rewrite filter_cons_False by (unfold wanted; rewrite Hgen; by intros [? _]).
        by apply IH. }
    destruct (fault env (clock w) CallGetEmail) eqn:Hf; simpl in Hrun.
    { simplify_eq. split; [|done]. unfold readOnly. simpl. views. done. }
    destruct (getDomainsForCertBundle env cb cd) as [|dom doms] eqn:Hdom; simpl in Hrun.
    + rewrite filter_cons_False by (unfold wanted; rewrite Hdom; by intros [_ ?]).
      apply IH in Hrun as [Hro Hds]. split; [|done].
      eapply readOnly_trans; [|exact Hro]. unfold readOnly. simpl. views. done.
    + rewrite filter_cons_True by (unfold wanted; by rewrite Hdom).
      apply IH in Hrun as [Hro Hds]. split.
      * eapply readOnly_trans; [|exact Hro]. unfold readOnly. simpl. views. done.
      * intros ds Hr. rewrite (Hds ds Hr), <- app_assoc, fmap_cons, Hdom. done.
Qed.

Lemma desiredLoop_noFaults env cd bundles acc w :
  noFaults env →
  ∃ w', desiredLoop env cd bundles acc w = (Ok (acc ++ desiredFrom env cd bundles), w')
        ∧ errorLogs (trace w')
          = errorLogs (trace w) ++ (noDomainsError cd <$> filter (domainless env cd) bundles).
Proof.
  intros Hnf. revert acc w. induction bundles as [|cb bundles IH]; intros acc w; simpl.
  - exists w. unfold desiredFrom. by rewrite !app_nil_r.
  - unfold desiredFrom.
    unfold GetDefaultNotificationEmailAddress, faultNow. rewrite Hnf. simpl.
    destruct (cb_Generate cb) eqn:Hgen.
    2:{ rewrite !filter_cons_False; [apply IH|..].
        - unfold domainless; rewrite Hgen; by intros [? _].
        - unfold wanted; rewrite Hgen; by intros [? _]. }
    destruct (getDomainsForCertBundle env cb cd) as [|dom doms] eqn:Hdom; simpl.
    + rewrite (filter_cons_False (wanted env cd))
        by (unfold wanted; rewrite Hdom; by intros [_ ?]).
      rewrite (filter_cons_True (domainless env cd)) by (unfold domainless; by rewrite Hdom).
      edestruct IH as (w' & Hrun & Hl). exists w'. split; [exact Hrun|].
      rewrite Hl. simpl. views. by rewrite <- app_assoc.
    + rewrite (filter_cons_True (wanted env cd)) by (unfold wanted; by rewrite Hdom).
      rewrite (filter_cons_False (domainless env cd))
        by (unfold domainless; rewrite Hdom; by intros [_ ?]).
      edestruct IH as (w' & Hrun & Hl). exists w'. split.
      * rewrite Hrun. by rewrite <- app_assoc, fmap_cons, Hdom.
      * rewrite Hl. simpl. views. done.
Qed.

Lemma crWrites_storeWrites t : crWrites t = List.filter isCRWrite (storeWrites t).
Proof.
  unfold crWrites, storeWrites. induction (calls t) as [|c l IH]; [done|].
  simpl. destruct (isCRWrite c) eqn:Hc; simpl; rewrite ?Hc, IH; [done|].
  by destruct (isPatch c); simpl; rewrite ?Hc.
Qed.

Lemma patches_storeWrites t : patches t = List.filter isPatch (storeWrites t).
Proof.
  unfold patches, storeWrites. induction (calls t) as [|c l IH]; [done|].
  simpl. destruct (isPatch c) eqn:Hc; simpl.
  - rewrite orb_true_r. simpl. by rewrite Hc, IH.
  - rewrite orb_false_r. destruct (isCRWrite c); simpl; by rewrite ?Hc, IH.
Qed.

Lemma readOnly_crWrites w w' : readOnly w w' → crWrites (trace w') = crWrites (trace w).
Proof. intros (_ & _ & H). by rewrite !crWrites_storeWrites, H. Qed.

Lemma readOnly_patches w w' : readOnly w w' → patches (trace w') = patches (trace w).
Proof. intros (_ & _ & H). by rewrite !patches_storeWrites, H. Qed.

Lemma readOnly_logError err msg w : readOnly w (logError err msg w).
Proof. unfold readOnly. simpl. views. done. Qed.

(** ** The pass never patches the status *)

Lemma syncOne_patches env cd d w round w' :
  syncOne env cd d w = (round, w') →
  cds w' = cds w ∧ patches (trace w') = patches (trace w).
Proof.
  intros Hrun. unfold syncOne in Hrun. unfold_ops.
  branches; views; done.
Qed.

Lemma syncLoop_patches env cd ds sl errs w sl' errs' w' :
  syncLoop env cd ds sl errs w = (sl', errs', w') →
  cds w' = cds w ∧ patches (trace w') = patches (trace w).
Proof.
  revert sl errs w. induction ds as [|d ds IH]; intros sl errs w Hrun; simpl in Hrun.
  - by simplify_eq.
  - destruct (syncOne env cd d w) as [round w1] eqn:H1.
    apply syncOne_patches in H1 as [? ?]. apply IH in Hrun as [? ?]. split; congruence.
Qed.

Lemma applyDesired_patches env cd currentCRs desiredCRs w :
  cds (applyDesired env cd currentCRs desiredCRs w).2 = cds w
  ∧ patches (trace (applyDesired env cd currentCRs desiredCRs w).2) = patches (trace w).
Proof.
  unfold applyDesired.
  destruct (syncLoop env cd desiredCRs [] [] w) as [[sl errs] w1] eqn:Hloop.
  apply syncLoop_patches in Hloop as [Hc Hp].
  destruct (0 <? length errs)%nat; [done|].
  destruct (deleteLoop env _ w1) as [e w2] eqn:Hdel.
  apply deleteLoop_frame in Hdel as (Hc2 & Hp2 & _).
  destruct e; simpl; [split; congruence|].
  unfold DeepEqual, DeepCopy. rewrite bool_decide_true by done. simpl. split; congruence.
Qed.

Lemma syncCertificateRequests_patches env cd w :
  cds (syncCertificateRequests env cd w).2 = cds w
  ∧ patches (trace (syncCertificateRequests env cd w).2) = patches (trace w).
Proof.
  unfold syncCertificateRequests.
  destruct (getCurrentCertificateRequests env cd w) as [r w1] eqn:Hget.
  apply getCurrentCertificateRequests_reads in Hget as [Hro _].
  destruct r as [currentCRs|err].
  2:{ simpl. views. rewrite (readOnly_patches _ _ Hro). by destruct Hro as (_ & -> & _). }
  destruct (desiredLoop env cd _ [] w1) as [r w2] eqn:Hdes.
  apply desiredLoop_reads in Hdes as [Hro2 _].
  pose proof (readOnly_trans _ _ _ Hro Hro2) as Hro3.
  destruct r as [desiredCRs|err].
  2:{ simpl. rewrite (readOnly_patches _ _ Hro3). by destruct Hro3 as (_ & -> & _). }
  destruct (applyDesired_patches env cd currentCRs desiredCRs w2) as [-> ->].
  rewrite (readOnly_patches _ _ Hro3). by destruct Hro3 as (_ & -> & _).
Qed.

(** ** The relocation gate *)

Lemma relocationLoop_absent (l : list (string * string)) :
  hiveRelocationAnnotation ∉ l.*1 → relocationLoop l = RelocationNone.
Proof.
  induction l as [|[a v] l IH]; intros Hnotin; [done|].
  rewrite fmap_cons in Hnotin. apply not_elem_of_cons in Hnotin as [Hne Hnotin].
  cbn [relocationLoop]. simpl in Hne.
  destruct (String.eqb_spec a hiveRelocationAnnotation); [congruence|]. by apply IH.
Qed.

Lemma relocationLoop_present (l : list (string * string)) (v : string) :
  NoDup l.*1 → (hiveRelocationAnnotation, v) ∈ l → relocationLoop l = relocationOf v.
Proof.
  induction l as [|[a v'] l IH]; intros Hnd Hin; [by apply elem_of_nil in Hin|].
  rewrite fmap_cons in Hnd. apply NoDup_cons in Hnd as [Hnotin Hnd]. simpl in Hnotin.
  cbn [relocationLoop].
  destruct (String.eqb_spec a hiveRelocationAnnotation) as [->|Hne].
  - assert (v' = v) as ->.
    { apply elem_of_cons in Hin as [Heq|Hin]; [congruence|].
      exfalso. apply Hnotin. by apply (list_elem_of_fmap_2 fst) in Hin. }
    unfold relocationOf. destruct (strings.Split v "/" !! 1%nat); [|done].
    destruct (String.eqb _ _); [done|]. by apply relocationLoop_absent.
  - apply IH; [done|]. apply elem_of_cons in Hin as [Heq|Hin]; [congruence|done].
Qed.

(** The loop over the annotations depends on the relocation annotation
    alone, whatever the order of the iteration. *)
Lemma relocationLoop_lookup (m : gmap string string) :
  relocationLoop (map_to_list m)
  = match m !! hiveRelocationAnnotation with
    | None => RelocationNone
    | Some v => relocationOf v
    end.
Proof.
  destruct (m !! hiveRelocationAnnotation) as [v|] eqn:Hv.
  - apply relocationLoop_present; [apply NoDup_fst_map_to_list|].
    by apply elem_of_map_to_list.
  - apply relocationLoop_absent. intros ([a v] & Ha & Hin)%list_elem_of_fmap_1.
    apply elem_of_map_to_list in Hin. simpl in Ha. congruence.
Qed.

Lemma Split_no_separator (v : string) (sep : ascii) :
  sep ∉ list_ascii_of_string v → strings.Split v sep = [v].
Proof.
  induction v as [|c v IH]; intros Hno; [done|]. simpl in *.
  apply not_elem_of_cons in Hno as [Hne Hno].
  destruct (Ascii.eqb_spec c sep); [congruence|]. by rewrite IH.
Qed.

Lemma mapIndex_Some (m : gmap string string) k v : m !! k = Some v → mapIndex m k = (v, true).
Proof. unfold mapIndex. by intros ->. Qed.

(** A pass that fetches a resource passing the gates goes on to the
    deletion check. *)
Lemma Reconcile_gates env request w cd w0 :
  clientGetCD env request w = (Ok cd, w0) → passesGates cd →
  Reconcile env request w
  = if negb (IsZero (cd_DeletionTimestamp cd)) then reconcileDelete env cd w0
    else reconcileActive env cd w0.
Proof.
  intros Hget (Hmanaged & Hfake & Hinst & Hreloc). unfold Reconcile. rewrite Hget.
  rewrite (mapIndex_Some _ _ _ Hmanaged). simpl.
  assert (Hf : (let '(val, ok) := mapIndex (cd_Annotations cd) fakeClusterDeploymentAnnotation in
                ok && String.eqb val "true") = false).
  { unfold mapIndex. destruct (cd_Annotations cd !! _) as [v|]; [|done]. simpl.
    destruct (String.eqb_spec v "true"); [congruence|done]. }
  destruct (mapIndex (cd_Annotations cd) fakeClusterDeploymentAnnotation) as [val ok].
  rewrite Hf, Hinst. simpl. rewrite relocationLoop_lookup.
  unfold notRelocating in Hreloc.
  destruct (cd_Annotations cd !! hiveRelocationAnnotation) as [v|]; [|done].
  destruct Hreloc as (piece & Hp & Hne). unfold relocationOf. rewrite Hp.
  by destruct (String.eqb_spec piece hiveRelocationOutgoingValue).
Qed.

(** C2. The relocation gate is not defined for every value of the
    annotation: on a managed, installed resource that is not fake and
    whose relocation annotation holds a value without a separator, the
    index expression of the gate is out of range and the pass ends in a
    panic, not in a returned error. *)
Theorem Reconcile_panics_without_separator env request w cd v :
  fault env (clock w) (CallGetCD request.1 request.2) = None →
  cds w !! request = Some cd →
  cd_Labels cd !! ClusterDeploymentManagedLabel = Some "true" →
  cd_Annotations cd !! fakeClusterDeploymentAnnotation ≠ Some "true" →
  spec_Installed (cd_Spec cd) = true →
  cd_Annotations cd !! hiveRelocationAnnotation = Some v →
  "/"%char ∉ list_ascii_of_string v →
  (Reconcile env request w).1 = Panicked "index out of range [1] with length 1".
Proof.
  intros Hfault Hcd Hmanaged Hfake Hinst Hv Hsep.
  unfold Reconcile, clientGetCD, faultNow. rewrite Hfault. simpl. rewrite Hcd.
  rewrite (mapIndex_Some _ _ _ Hmanaged). simpl.
  assert (Hf : (let '(val, ok) := mapIndex (cd_Annotations cd) fakeClusterDeploymentAnnotation in
                ok && String.eqb val "true") = false).
  { unfold mapIndex. destruct (cd_Annotations cd !! _) as [v'|]; [|done]. simpl.
    destruct (String.eqb_spec v' "true"); [congruence|done]. }
  destruct (mapIndex (cd_Annotations cd) fakeClusterDeploymentAnnotation) as [val ok].
  rewrite Hf, Hinst. simpl. rewrite relocationLoop_lookup, Hv.
  unfold relocationOf. by rewrite Split_no_separator.
Qed.

(** The cluster whose relocation annotation is the bare word outgoing. *)
Lemma Reconcile_panics_without_separator_witness :
  cds (Scenario.world Scenario.relocating []) !! Scenario.request = Some Scenario.relocating
  ∧ cd_Annotations Scenario.relocating !! hiveRelocationAnnotation = Some "outgoing"
  ∧ (Reconcile Scenario.env Scenario.request (Scenario.world Scenario.relocating [])).1
    = Panicked "index out of range [1] with length 1".
Proof.
  split; [reflexivity|]. split; [reflexivity|].
  apply (Reconcile_panics_without_separator Scenario.env Scenario.request
           (Scenario.world Scenario.relocating []) Scenario.relocating "outgoing").
  - reflexivity.
  - reflexivity.
  - reflexivity.
  - vm_compute. discriminate.
  - reflexivity.
  - reflexivity.
  - apply (bool_decide_unpack _). vm_compute. exact I.
Defined.

(** C1. The status patch of the full sync is never issued.  The status
    is compared with a copy taken after the new list was written into the
    resource, so the two are always equal: whatever the aggregated status
    is, the pass makes no patch call and leaves the stored cluster
    resources as they were.  On the active cluster of the scenarios, with
    an empty store, the aggregated status has one entry, the observed one
    has none, and still no patch is issued. *)
Theorem syncCertificateRequests_never_patches_status :
  (∀ env cd w,
     patches (trace (syncCertificateRequests env cd w).2) = patches (trace w)
     ∧ cds (syncCertificateRequests env cd w).2 = cds w)
  ∧ (let r := syncCertificateRequests Scenario.env Scenario.active
                (Scenario.world Scenario.active []) in
     r.1.1 = None
     ∧ status_CertificateBundles (cd_Status Scenario.active) = []
     ∧ status_CertificateBundles (cd_Status r.1.2)
       = [{| cbs_Name := "default"; cbs_Generated := false |}]
     ∧ patches (trace r.2) = []
     ∧ cds r.2 !! Scenario.request = Some Scenario.active).
Proof.
  split.
  - intros env cd w. destruct (syncCertificateRequests_patches env cd w). done.
  - repeat split; vm_compute; reflexivity.
Qed.

Lemma syncLoop_app env cd l1 l2 sl errs w :
  syncLoop env cd (l1 ++ l2) sl errs w
  = let '(sl1, errs1, w1) := syncLoop env cd l1 sl errs w in
    syncLoop env cd l2 sl1 errs1 w1.
Proof.
  revert sl errs w. induction l1 as [|d l1 IH]; intros sl errs w; simpl; [done|].
  destruct (syncOne env cd d w) as [round w1]. apply IH.
Qed.

(** The list the sync writes into the status of the cluster resource in
    hand is the list of the create/update loop, whether the sync goes on to
    return an error or not. *)
Lemma applyDesired_status env cd currentCRs desiredCRs w :
  status_CertificateBundles (cd_Status (applyDesired env cd currentCRs desiredCRs w).1.2)
  = (syncLoop env cd desiredCRs [] [] w).1.1.
Proof.
  unfold applyDesired.
  destruct (syncLoop env cd desiredCRs [] [] w) as [[sl errs] w1].
  destruct (0 <? length errs)%nat; [done|].
  destruct (deleteLoop env _ w1) as [[err|] w2]; [done|].
  unfold DeepEqual, DeepCopy. by rewrite bool_decide_true.
Qed.

(** C7. The generated flag that the sync reports onto the cluster
    resource for a desired request: the status list the sync leaves on the
    resource holds, after the entries of the requests before it, the entry
    of the round of the request.  When the request is found in the store
    with a spec equal to the desired one, that entry carries the issued
    flag of the stored request, and nothing is written.  When the request
    is absent (create) or stored with another spec (update), the entry
    carries false and the create or update has been made; the entry is
    missing only if a call of the round failed, which it does not when no
    call is made to fail. *)
Theorem generated_status_reported env cd w currentCRs w1 pre desiredCR post w2 :
  getCurrentCertificateRequests env cd w = (Ok currentCRs, w1) →
  desiredLoop env cd (spec_CertificateBundles (cd_Spec cd)) [] w1
  = (Ok (pre ++ desiredCR :: post), w2) →
  let before := syncLoop env cd pre [] [] w2 in
  let round := syncOne env cd desiredCR before.2 in
  let parent := (syncCertificateRequests env cd w).1.2 in
  let name := strings.TrimPrefix (cr_Name desiredCR) (cd_Name cd +:+ "-") in
  faultNow env (CallGetCR (cr_Namespace desiredCR) (cr_Name desiredCR)) before.2 = None →
  (∃ rest,
     status_CertificateBundles (cd_Status parent)
     = before.1.1 ++ option_list (round_status round.1) ++ rest)
  ∧ match classifyM (crs before.2) desiredCR with
    | ActUnchanged storedCR _ =>
        round_status round.1
        = Some {| cbs_Name := name; cbs_Generated := cr_Status_Issued storedCR |}
        ∧ round_err round.1 = None
        ∧ storeWrites (trace round.2) = storeWrites (trace before.2)
        ∧ crs round.2 = crs before.2
    | ActCreate _ =>
        match round_err round.1 with
        | None =>
            round_status round.1 = Some {| cbs_Name := name; cbs_Generated := false |}
            ∧ crWrites (trace round.2)
              = crWrites (trace before.2) ++ [CallCreateCR (owned cd desiredCR)]
            ∧ crs round.2 !! crKey desiredCR = Some (owned cd desiredCR)
        | Some _ => round_status round.1 = None ∧ crs round.2 = crs before.2
        end
    | ActUpdate storedCR _ =>
        match round_err round.1 with
        | None =>
            round_status round.1 = Some {| cbs_Name := name; cbs_Generated := false |}
            ∧ crWrites (trace round.2)
              = crWrites (trace before.2)
                ++ [CallUpdateCR (withSpec storedCR (cr_Spec desiredCR))]
        | Some _ => round_status round.1 = None ∧ crs round.2 = crs before.2
        end
    | ActDelete _ => False
    end
  ∧ (noFaults env → wfStore (crs w) → round_err round.1 = None).
Proof.
  intros Hget Hdes before round parent name Hf. split; [|split].
  - subst parent. unfold syncCertificateRequests. rewrite Hget, Hdes.
    rewrite applyDesired_status, syncLoop_app. fold before.
    destruct before as [[sl1 errs1] w3] eqn:Hbefore. cbn [syncLoop fst snd] in *.
    subst round. destruct (syncOne env cd desiredCR w3) as [rd w4]. cbn [fst snd].
    destruct (syncLoop_app_acc env cd post (sl1 ++ option_list (round_status rd))
                (errs1 ++ option_list (round_err rd)) w4)
      as (sl' & errs' & w' & -> & _).
    exists sl'. simpl. by rewrite <- app_assoc.
  - subst round name. revert Hf. generalize (before.2). clear. intros w0 Hf.
    unfold classifyM, syncOne. unfold_ops. unfold crKey. cbn [fst snd].
    rewrite Hf.
    destruct (crs w0 !! (cr_Namespace desiredCR, cr_Name desiredCR)) as [c|] eqn:Hc.
    + destruct (decide (cr_Spec c = cr_Spec desiredCR)) as [Heq|Hne].
      * rewrite bool_decide_true by done. simpl. views. by destruct (cr_Status_Issued c).
      * rewrite bool_decide_false by done. simpl. branches; views; done.
    + simpl. branches; views; repeat split; try done. apply lookup_insert_eq.
  - intros Hnf Hwf.
    apply getCurrentCertificateRequests_reads in Hget as [(Hc1 & _) _].
    apply desiredLoop_reads in Hdes as [(Hc2 & _) _].
    assert (Hwf2 : wfStore (crs w2)) by by rewrite Hc2, Hc1.
    destruct before as [[sl1 errs1] w3] eqn:Hbefore.
    apply syncLoop_frame in Hbefore as (_ & _ & Hwf3 & _); [|done].
    subst round. cbn [snd] in *.
    destruct (syncOne env cd desiredCR w3) as [rd w4] eqn:Hone.
    by apply syncOne_noFaults in Hone as [? _].
Qed.

(** The default bundle, stored with the desired spec and already issued:
    the desired request says not issued, the status on the cluster resource
    says generated. *)
Lemma generated_status_reported_witness :
  let cd := Scenario.active in
  let desiredCR := Scenario.desired "default" "default-secret" cd in
  let w := Scenario.world cd [Scenario.issued (Scenario.stored "default" "default-secret" cd)] in
  let parent := (syncCertificateRequests Scenario.env cd w).1.2 in
  cr_Status_Issued desiredCR = false
  ∧ crs w !! crKey desiredCR = Some (Scenario.issued (Scenario.stored "default" "default-secret" cd))
  ∧ ∃ rest,
      status_CertificateBundles (cd_Status parent)
      = {| cbs_Name := "default"; cbs_Generated := true |} :: rest.
Proof.
  intros cd desiredCR w parent. split; [reflexivity|]. split; [vm_compute; reflexivity|].
  set (w1 := called (CallListCR "ns") None w).
  set (w2 := called CallGetEmail None w1).
  destruct (generated_status_reported Scenario.env cd w (listed "ns" (crs w)) w1
              [] desiredCR [] w2) as ((rest & Hst) & _ & _).
  - vm_compute. reflexivity.
  - vm_compute. reflexivity.
  - reflexivity.
  - exists rest. fold parent in Hst. vm_compute in Hst. vm_compute. exact Hst.
Defined.

(** ** Names *)

Lemma app_String (x : ascii) (a b : string) : String x a +:+ b = String x (a +:+ b).
Proof. reflexivity. Qed.

Lemma app_Empty (b : string) : EmptyString +:+ b = b.
Proof. reflexivity. Qed.

Lemma string_app_assoc (a b c : string) : (a +:+ b) +:+ c = a +:+ b +:+ c.
Proof. induction a as [|x a IH]; rewrite ?app_String, ?app_Empty; [done|by rewrite IH]. Qed.

Lemma isASCII_app (a b : string) :
  strings.isASCII (a +:+ b) = strings.isASCII a && strings.isASCII b.
Proof.
  induction a as [|c a IH]; rewrite ?app_String, ?app_Empty; [done|].
  simpl. by rewrite IH, andb_assoc.
Qed.

Lemma lowerASCII_app (a b : string) :
  strings.lowerASCII (a +:+ b) = strings.lowerASCII a +:+ strings.lowerASCII b.
Proof.
  induction a as [|c a IH]; rewrite ?app_String, ?app_Empty; [done|].
  simpl. by rewrite IH, app_String.
Qed.

Lemma length_lowerASCII (s : string) :
  String.length (strings.lowerASCII s) = String.length s.
Proof. induction s as [|c s IH]; simpl; [done|by rewrite IH]. Qed.

(** On a string of ASCII bytes [strings.ToLower] is the byte-wise
    lowering, whatever the Unicode tables are. *)
Lemma ToLower_ASCII (mapLower : string → string) (s : string) :
  strings.isASCII s = true → strings.ToLower mapLower s = strings.lowerASCII s.
Proof. unfold strings.ToLower. by intros ->. Qed.

Lemma length_app (a b : string) :
  String.length (a +:+ b) = (String.length a + String.length b)%nat.
Proof.
  induction a as [|c a IH]; rewrite ?app_String, ?app_Empty; [done|].
  simpl. by rewrite IH.
Qed.

Lemma TrimPrefix_app (p s : string) : strings.TrimPrefix (p +:+ s) p = s.
Proof.
  unfold strings.TrimPrefix.
  assert (Hp : strings.HasPrefix (p +:+ s) p = true).
  { induction p as [|c p IH]; rewrite ?app_String, ?app_Empty; simpl; [by destruct s|].
    by rewrite Ascii.eqb_refl. }
  rewrite Hp. clear Hp.
  induction p as [|c p IH]; rewrite ?app_String, ?app_Empty; simpl; done.
Qed.

(** A string lowered byte by byte starts with [a] only if [a] is its
    own lowering. *)
Lemma HasPrefix_lowerASCII (a rest x : string) :
  strings.HasPrefix (strings.lowerASCII (a +:+ rest)) (a +:+ x) = true →
  strings.lowerASCII a = a.
Proof.
  induction a as [|c a IH]; rewrite ?app_String, ?app_Empty; simpl; [done|].
  destruct (Ascii.eqb_spec (strings.toLowerByte c) c) as [Hc|Hc]; [|done].
  intros Hp. by rewrite Hc, IH.
Qed.

Lemma createCertificateRequest_meta env certBundleName secretName domains cd emailAddress :
  let cr := createCertificateRequest env certBundleName secretName domains cd emailAddress in
  cr_Name cr = strings.ToLower (unicodeToLower env) (cd_Name cd +:+ "-" +:+ certBundleName)
  ∧ cr_Namespace cr = cd_Namespace cd.
Proof.
  unfold createCertificateRequest.
  by destruct (plat_GCP _), (plat_AWS _), (plat_Azure _).
Qed.

(** The names of the statuses of one round of the create/update loop. *)
Lemma syncOne_status_name env cd d w round w' :
  syncOne env cd d w = (round, w') →
  (∀ st, round_status round = Some st →
         cbs_Name st = strings.TrimPrefix (cr_Name d) (cd_Name cd +:+ "-"))
  ∧ (noFaults env → wfStore (crs w) → is_Some (round_status round)).
Proof.
  intros Hone. split.
  - unfold syncOne in Hone. unfold_ops. branches; intros; by simplify_eq/=.
  - intros Hnf Hwf. apply syncOne_noFaults in Hone as (_ & -> & _); [|done..].
    unfold classifyM. destruct (crs w !! crKey d); [|by eexists].
    destruct (decide _); by eexists.
Qed.

Lemma syncLoop_status_names env cd ds sl errs w sl' errs' w' :
  syncLoop env cd ds sl errs w = (sl', errs', w') →
  let reported d := strings.TrimPrefix (cr_Name d) (cd_Name cd +:+ "-") in
  ∃ sl2, sl' = sl ++ sl2
    ∧ cbs_Name <$> sl2 `sublist_of` reported <$> ds
    ∧ (noFaults env → wfStore (crs w) → cbs_Name <$> sl2 = reported <$> ds).
Proof.
  intros Hrun reported. revert sl errs w Hrun.
  induction ds as [|d ds IH]; intros sl errs w Hrun; simpl in Hrun.
  - simplify_eq. exists []. by rewrite app_nil_r.
  - destruct (syncOne env cd d w) as [round w1] eqn:Hone.
    destruct (syncOne_status_name _ _ _ _ _ _ Hone) as [Hname Hsome].
    apply IH in Hrun as (sl2 & -> & Hsub & Heq).
    exists (option_list (round_status round) ++ sl2).
    split; [by rewrite app_assoc|]. split.
    + rewrite fmap_app. destruct (round_status round) as [st|]; simpl.
      * rewrite (Hname st eq_refl). by apply sublist_skip.
      * by apply sublist_cons.
    + intros Hnf Hwf. destruct (Hsome Hnf Hwf) as [st Hst]. rewrite Hst in *. simpl.
      rewrite (Hname st eq_refl). f_equal. apply Heq; [done|].
      by apply syncOne_frame in Hone as (_ & _ & ? & _).
Qed.

(** C10. The names of the statuses that the sync reports onto the
    cluster resource are, in order, names of desired requests without the
    prefix made of the original name of the cluster resource and a dash:
    one for every desired request when no call is made to fail.  The name
    of the request is lowercased when the request is built.  For a cluster
    resource and a bundle with ASCII names: where the name of the cluster
    resource is its own lowercase the status name is the lowercased bundle
    name; the status name is the bundle name only if the name of the
    cluster resource is its own lowercase; otherwise nothing is trimmed and
    the status name is the whole lowercased name of the request, as for the
    cluster resource Foo and the bundle bar. *)
Theorem status_name_trims_cluster_name :
  (∀ env cd w currentCRs w1 desiredCRs w2,
     getCurrentCertificateRequests env cd w = (Ok currentCRs, w1) →
     desiredLoop env cd (spec_CertificateBundles (cd_Spec cd)) [] w1 = (Ok desiredCRs, w2) →
     let parent := (syncCertificateRequests env cd w).1.2 in
     let reported d := strings.TrimPrefix (cr_Name d) (cd_Name cd +:+ "-") in
     cbs_Name <$> status_CertificateBundles (cd_Status parent) `sublist_of` reported <$> desiredCRs
     ∧ (noFaults env → wfStore (crs w) →
        cbs_Name <$> status_CertificateBundles (cd_Status parent) = reported <$> desiredCRs))
  ∧ (∀ env cd certBundleName secretName domains emailAddress,
       strings.isASCII (cd_Name cd) = true →
       strings.isASCII certBundleName = true →
       let lower := strings.ToLower (unicodeToLower env) in
       let desiredCR :=
         createCertificateRequest env certBundleName secretName domains cd emailAddress in
       let reported := strings.TrimPrefix (cr_Name desiredCR) (cd_Name cd +:+ "-") in
       (lower (cd_Name cd) = cd_Name cd → reported = lower certBundleName)
       ∧ (reported = certBundleName → lower (cd_Name cd) = cd_Name cd)
       ∧ (lower (cd_Name cd) ≠ cd_Name cd → reported = cr_Name desiredCR))
  ∧ (∃ env cd certBundleName secretName domains emailAddress,
       let desiredCR :=
         createCertificateRequest env certBundleName secretName domains cd emailAddress in
       cd_Name cd = "Foo" ∧ certBundleName = "bar"
       ∧ strings.TrimPrefix (cr_Name desiredCR) (cd_Name cd +:+ "-") = "foo-bar"
       ∧ cr_Name desiredCR = "foo-bar").
Proof.
  split; [|split].
  - intros env cd w currentCRs w1 desiredCRs w2 Hget Hdes parent reported.
    subst parent. unfold syncCertificateRequests. rewrite Hget, Hdes, applyDesired_status.
    destruct (syncLoop env cd desiredCRs [] [] w2) as [[sl errs] w3] eqn:Hloop.
    apply syncLoop_status_names in Hloop as (sl2 & -> & Hsub & Heq). simpl.
    split; [done|]. intros Hnf Hwf. apply Heq; [done|].
    apply getCurrentCertificateRequests_reads in Hget as [(Hc1 & _) _].
    apply desiredLoop_reads in Hdes as [(Hc2 & _) _]. by rewrite Hc2, Hc1.
  - intros env cd b secretName domains emailAddress Hcd Hb lower desiredCR reported.
    subst reported desiredCR lower.
    destruct (createCertificateRequest_meta env b secretName domains cd emailAddress) as [-> _].
    rewrite !ToLower_ASCII by (rewrite ?isASCII_app, ?Hcd, ?Hb; done).
    assert (Hwhole : strings.lowerASCII (cd_Name cd) ≠ cd_Name cd →
              strings.TrimPrefix (strings.lowerASCII (cd_Name cd +:+ "-" +:+ b))
                (cd_Name cd +:+ "-")
              = strings.lowerASCII (cd_Name cd +:+ "-" +:+ b)).
    { intros Hne. unfold strings.TrimPrefix.
      destruct (strings.HasPrefix _ _) eqn:Hp; [|done].
      by apply HasPrefix_lowerASCII in Hp. }
    split; [|split; [|done]].
    + intros Heq. rewrite lowerASCII_app, Heq, lowerASCII_app.
      change (strings.lowerASCII "-") with "-".
      rewrite <- string_app_assoc. apply TrimPrefix_app.
    + intros Hrep. destruct (decide (strings.lowerASCII (cd_Name cd) = cd_Name cd)); [done|].
      rewrite Hwhole in Hrep by done.
      apply (f_equal String.length) in Hrep.
      rewrite length_lowerASCII, !length_app in Hrep. simpl in Hrep. lia.
  - exists Scenario.env, (Scenario.named "Foo" Scenario.active), "bar", "secret",
      ["bar.example.com"], "sre@example.com".
    repeat split; vm_compute; reflexivity.
Qed.

(** The cluster foo with the bundle Bar: the status on the cluster
    resource names bar. *)
Lemma status_name_trims_cluster_name_witness :
  let cd := {| cd_Name := "foo"; cd_Namespace := "ns"; cd_Labels := Scenario.managed;
               cd_Annotations := ∅; cd_DeletionTimestamp := None;
               cd_Finalizers := [Scenario.finalizer];
               cd_Spec :=
                 {| spec_ClusterName := "foo"; spec_BaseDomain := "example.com";
                    spec_Installed := true; spec_ServingCertificates_Default := "Bar";
                    spec_ServingCertificates_Additional := []; spec_Ingress := [];
                    spec_Platform :=
                      {| plat_AWS := None; plat_Azure := None; plat_GCP := None |};
                    spec_CertificateBundles := [Scenario.bundle "Bar" "secret"] |};
               cd_Status := Scenario.status |} in
  let w := Scenario.world cd [] in
  let desiredCR :=
    createCertificateRequest Scenario.env "Bar" "secret" ["api.foo.example.com"] cd
      "sre@example.com" in
  cr_Name desiredCR = "foo-bar"
  ∧ strings.TrimPrefix (cr_Name desiredCR) (cd_Name cd +:+ "-") = "bar"
  ∧ cbs_Name <$> status_CertificateBundles
                   (cd_Status (syncCertificateRequests Scenario.env cd w).1.2)
    = ["bar"].
Proof.
  intros cd w desiredCR. split; [reflexivity|].
  destruct status_name_trims_cluster_name as (Hsync & Hname & _). split.
  - destruct (Hname Scenario.env cd "Bar" "secret" ["api.foo.example.com"] "sre@example.com"
                eq_refl eq_refl) as (H1 & _).
    subst desiredCR. rewrite H1; reflexivity.
  - set (w1 := called (CallListCR "ns") None w).
    set (w2 := called CallGetEmail None w1).
    destruct (Hsync Scenario.env cd w (listed "ns" (crs w)) w1 [desiredCR] w2) as [_ Heq].
    + vm_compute. reflexivity.
    + vm_compute. reflexivity.
    + rewrite Heq; [vm_compute; reflexivity|intros n c; reflexivity|apply wfStore_world].
Defined.

(** ** A failing notification-email provider *)

Lemma desiredLoop_app env cd pre rest acc w :
  desiredLoop env cd (pre ++ rest) acc w
  = match desiredLoop env cd pre acc w with
    | (Ok desiredCRs, w') => desiredLoop env cd rest desiredCRs w'
    | (Err err, w') => (Err err, w')
    end.
Proof.
  revert acc w. induction pre as [|cb pre IH]; intros acc w; simpl; [done|].
  destruct (cb_Generate cb); [|apply IH].
  destruct (GetDefaultNotificationEmailAddress env w) as [[email|err] w1]; [|done].
  destruct (0 <? length (getDomainsForCertBundle env cb cd))%nat; apply IH.
Qed.

(** C9. When the notification-email provider fails at a generate-enabled
    bundle, the sync returns that error at once: the failing call and its
    log line are the last events of the sync, so no request is built for
    a later bundle, the store is left as it was with no write tried, and
    the pass returns the error. *)
Theorem email_failure_aborts_pass env request w cd w0 cdA wA currentCRs w1
    pre cb post desiredCRs w2 msg :
  clientGetCD env request w = (Ok cd, w0) →
  passesGates cd →
  IsZero (cd_DeletionTimestamp cd) = true →
  addFinalizer env cd w0 = (Ok cdA, wA) →
  getCurrentCertificateRequests env cdA wA = (Ok currentCRs, w1) →
  spec_CertificateBundles (cd_Spec cdA) = pre ++ cb :: post →
  desiredLoop env cdA pre [] w1 = (Ok desiredCRs, w2) →
  cb_Generate cb = true →
  fault env (clock w2) CallGetEmail = Some msg →
  ∃ w3,
    syncCertificateRequests env cdA wA = (Some (ErrOther msg), cdA, w3)
    ∧ trace w3
      = trace w2 ++ [Called CallGetEmail (Some (ErrOther msg));
                     LoggedError (ErrOther msg) msg]
    ∧ readOnly wA w3
    ∧ (Reconcile env request w).1 = Returned (Some (ErrOther msg)).
Proof.
  intros Hget Hgates Hzero Hadd Hlist Hbundles Hpre Hgen Hfault.
  assert (Hsync : syncCertificateRequests env cdA wA
                  = (Some (ErrOther msg), cdA,
                     logError (ErrOther msg) msg
                       (called CallGetEmail (Some (ErrOther msg)) w2))).
  { unfold syncCertificateRequests. rewrite Hlist, Hbundles, desiredLoop_app, Hpre.
    simpl. rewrite Hgen. unfold GetDefaultNotificationEmailAddress, faultNow.
    by rewrite Hfault. }
  eexists. split; [exact Hsync|]. split; [|split].
  - simpl. by rewrite <- app_assoc.
  - apply getCurrentCertificateRequests_reads in Hlist as [Hro1 _].
    apply desiredLoop_reads in Hpre as [Hro2 _].
    eapply readOnly_trans; [exact Hro1|]. eapply readOnly_trans; [exact Hro2|].
    unfold readOnly. simpl. views. done.
  - rewrite (Reconcile_gates _ _ _ _ _ Hget Hgates), Hzero. simpl.
    unfold reconcileActive. by rewrite Hadd, Hsync.
Qed.

(** The active cluster with the provider down: the pass returns the
    error of the provider and writes nothing. *)
Lemma email_failure_aborts_pass_witness :
  let w := Scenario.world Scenario.active [] in
  passesGates Scenario.active
  ∧ (Reconcile Scenario.envNoEmail Scenario.request w).1
    = Returned (Some (ErrOther "configmap not found"))
  ∧ storeWrites (trace (Reconcile Scenario.envNoEmail Scenario.request w).2) = [].
Proof.
  intros w.
  assert (Hgates : passesGates Scenario.active).
  { repeat split; vm_compute; done. }
  split; [exact Hgates|].
  destruct (email_failure_aborts_pass Scenario.envNoEmail Scenario.request w
              Scenario.active (called (CallGetCD "ns" "foo") None w)
              Scenario.active (called (CallGetCD "ns" "foo") None w)
              []
              (called (CallListCR "ns") None (called (CallGetCD "ns" "foo") None w))
              [] (Scenario.bundle "default" "default-secret") [] []
              (called (CallListCR "ns") None (called (CallGetCD "ns" "foo") None w))
              "configmap not found")
    as (w3 & Hsync & Htrace & Hro & Hrec);
    [reflexivity | exact Hgates | reflexivity | reflexivity | reflexivity | reflexivity
    | reflexivity | reflexivity | reflexivity |].
  split; [exact Hrec|]. vm_compute. reflexivity.
Defined.

(** ** The deletion branch *)

Lemma clientGetCD_reads env request w r w0 :
  clientGetCD env request w = (r, w0) →
  readOnly w w0 ∧ ∀ cd, r = Ok cd → cds w !! request = Some cd.
Proof.
  unfold clientGetCD, faultNow, readOnly. intros Hrun.
  branches; views; (split; [done|]); intros; by simplify_eq.
Qed.

(** A teardown that ends without an error has deleted the requests of
    the namespace that the resource owns, and nothing else. *)
Lemma handleDelete_success env cd w w' :
  handleDelete env cd w = (None, w') →
  let doomed := filter (ownedBy cd) (listed (cd_Namespace cd) (crs w)) in
  (∀ k, k ∈ crKey <$> doomed → crs w' !! k = None)
  ∧ (∀ k, k ∉ crKey <$> doomed → crs w' !! k = crs w !! k)
  ∧ crWrites (trace w') = crWrites (trace w) ++ (CallDeleteCR <$> doomed)
  ∧ cds w' = cds w.
Proof.
  intros Hrun doomed. unfold handleDelete in Hrun.
  destruct (getCurrentCertificateRequests env cd w) as [[l|err] w1] eqn:Hget; [|done].
  apply getCurrentCertificateRequests_reads in Hget as [Hro Hl].
  rewrite (Hl l eq_refl) in Hrun. clear Hl. fold doomed in Hrun.
  pose proof (readOnly_crWrites _ _ Hro) as Hw1. destruct Hro as (Hcrs & Hcds & _).
  destruct (deleteLoop_frame _ _ _ _ _ Hrun) as (Hcds' & _ & _ & Hfr).
  destruct (deleteLoop_success _ _ _ _ Hrun) as (Hw & _ & Hgone).
  rewrite Hcrs in *. repeat split; [done|done|congruence|congruence].
Qed.

Lemma handleDelete_cds env cd w e w' :
  handleDelete env cd w = (e, w') →
  cds w' = cds w ∧ patches (trace w') = patches (trace w).
Proof.
  intros Hrun. unfold handleDelete in Hrun.
  destruct (getCurrentCertificateRequests env cd w) as [[l|err] w1] eqn:Hget.
  - apply getCurrentCertificateRequests_reads in Hget as [Hro _].
    apply deleteLoop_frame in Hrun as (Hc & Hp & _).
    rewrite Hc, Hp, (readOnly_patches _ _ Hro). by destruct Hro as (_ & -> & _).
  - apply getCurrentCertificateRequests_reads in Hget as [Hro _]. simplify_eq. simpl. views.
    rewrite (readOnly_patches _ _ Hro). by destruct Hro as (_ & -> & _).
Qed.

(** Without a call made to fail the teardown ends without an error. *)
Lemma handleDelete_noFaults env cd w :
  noFaults env → wfStore (crs w) → (handleDelete env cd w).1 = None.
Proof.
  intros Hnf Hwf. unfold handleDelete.
  destruct (getCurrentCertificateRequests_noFaults env cd w Hnf) as (w1 & Hget & _).
  rewrite Hget.
  apply getCurrentCertificateRequests_reads in Hget as [(Hcrs & _) _].
  destruct (deleteLoop_noFaults env
              (filter (ownedBy cd) (listed (cd_Namespace cd) (crs w))) w1 Hnf) as [w2 Hdel].
  - refine (sublist_NoDup _ _ _ (fmap_sublist _ _ _ (sublist_filter _ _))).
    by apply NoDup_listed_keys.
  - intros c [_ Hc]%list_elem_of_filter. apply elem_of_listed in Hc as (k & Hk & _).
    rewrite Hcrs, (Hwf k c Hk). by exists c.
  - by rewrite Hdel.
Qed.

Lemma RemoveString_gone (l : list string) (s : string) : s ∉ RemoveString l s.
Proof. unfold RemoveString. rewrite list_elem_of_filter. by intros [? _]. Qed.

(** What a patch does to the trace and the store. *)
Lemma clientPatchCD_effect env cd w e w' :
  clientPatchCD env cd w = (e, w') →
  crs w' = crs w
  ∧ patches (trace w') = patches (trace w) ++ [CallPatchCD cd]
  ∧ crWrites (trace w') = crWrites (trace w)
  ∧ match e with
    | Some _ => cds w' = cds w
    | None => is_Some (cds w !! cdKey cd) ∧ cds w' = patched cd (cds w)
    end.
Proof.
  unfold clientPatchCD, faultNow. intros Hrun.
  branches; faults; simpl; views; repeat split; eauto.
Qed.

(** C5.  For a cluster resource that the pass fetched and that passed
    the gates before the deletion check, with its deletion timestamp set:
    without the finalizer the pass only reads the resource and returns
    success; with the finalizer it deletes every CertificateRequest the
    resource owns, whatever the desired requests are, and then patches the
    finalizer away, after which the resource leaves the store if that was
    its last finalizer.  A failure of the teardown or of the patch makes
    the pass return the error with the stored cluster resource, and so its
    finalizer, untouched.  When no call is made to fail the pass returns
    success. *)
Theorem deletion_pass_after_gates env request w cd w0 :
  clientGetCD env request w = (Ok cd, w0) →
  passesGates cd →
  IsZero (cd_DeletionTimestamp cd) = false →
  let label := CertmanOperatorFinalizerLabel env in
  let cd' := withFinalizers cd (RemoveString (cd_Finalizers cd) label) in
  let doomed := filter (ownedBy cd) (listed (cd_Namespace cd) (crs w)) in
  (label ∉ cd_Finalizers cd →
   Reconcile env request w = (Returned None, w0) ∧ readOnly w w0)
  ∧ (label ∈ cd_Finalizers cd →
     ∀ e w1, handleDelete env cd w0 = (e, w1) →
       match e with
       | Some err =>
           (∃ w', Reconcile env request w = (Returned (Some err), w') ∧ cds w' = cds w
                  ∧ patches (trace w') = patches (trace w))
       | None =>
           (∀ k, k ∈ crKey <$> doomed → crs w1 !! k = None)
           ∧ (∀ k, k ∉ crKey <$> doomed → crs w1 !! k = crs w !! k)
           ∧ crWrites (trace w1) = crWrites (trace w) ++ (CallDeleteCR <$> doomed)
           ∧ (label ∉ cd_Finalizers cd')
           ∧ ∀ e2 w2, clientPatchCD env cd' w1 = (e2, w2) →
               match e2 with
               | Some err =>
                   (∃ w', Reconcile env request w = (Returned (Some err), w')
                          ∧ cds w' = cds w ∧ crs w' = crs w1)
               | None =>
                   Reconcile env request w = (Returned None, w2)
                   ∧ patches (trace w2) = patches (trace w) ++ [CallPatchCD cd']
                   ∧ cds w2 !! cdKey cd
                     = (if decide (cd_Finalizers cd' = []) then None else Some cd')
                   ∧ (∀ k, k ≠ cdKey cd → cds w2 !! k = cds w !! k)
                   ∧ crs w2 = crs w1
               end
       end)
  ∧ (noFaults env → wfStore (crs w) → cdKey cd = request →
     (Reconcile env request w).1 = Returned None).
Proof.
  intros Hget Hgates Hdel label cd' doomed.
  rewrite (Reconcile_gates _ _ _ _ _ Hget Hgates), Hdel. simpl.
  apply clientGetCD_reads in Hget as [Hro Hcd]. specialize (Hcd cd eq_refl).
  pose proof (readOnly_crWrites _ _ Hro) as Hw0.
  pose proof (readOnly_patches _ _ Hro) as Hp0.
  destruct Hro as (Hcrs0 & Hcds0 & Hsw0).
  unfold reconcileDelete, ContainsString. fold label. split; [|split].
  - intros Habsent. rewrite bool_decide_false by done. done.
  - intros Hpresent e w1 Hhd. rewrite bool_decide_true by done. rewrite Hhd.
    destruct e as [err|].
    + apply handleDelete_cds in Hhd as [Hc Hp]. eexists. split; [done|]. simpl. views.
      split; congruence.
    + destruct (handleDelete_cds _ _ _ _ _ Hhd) as [_ Hp1].
      destruct (handleDelete_success _ _ _ _ Hhd) as (Hgone & Hother & Hw & Hc).
      rewrite Hcrs0 in Hgone, Hother, Hw. rewrite Hw0 in Hw.
      repeat split; [done|done|done|apply RemoveString_gone|].
      intros e2 w2 Hpatch. unfold DeepCopy. fold cd'. rewrite Hpatch.
      apply clientPatchCD_effect in Hpatch as (Hcrs2 & Hp2 & _ & Hcds2).
      destruct e2 as [err|].
      * eexists. split; [done|]. simpl. split; congruence.
      * destruct Hcds2 as [_ Hcds2]. split; [done|]. split; [congruence|].
        rewrite Hcds2, Hc, Hcds0. unfold patched.
        change (cd_DeletionTimestamp cd') with (cd_DeletionTimestamp cd).
        change (cdKey cd') with (cdKey cd). rewrite Hdel. simpl.
        split; [|split; [|done]].
        -- destruct (decide (RemoveString (cd_Finalizers cd) label = [])) as [Hnil|Hnonnil].
           ++ rewrite bool_decide_true by done. apply lookup_delete_eq.
           ++ rewrite bool_decide_false by done. apply lookup_insert_eq.
        -- intros k Hk. destruct (bool_decide _);
             [by apply lookup_delete_ne|by apply lookup_insert_ne].
  - intros Hnf Hwf Hkey. unfold DeepCopy. fold cd'.
    destruct (decide (label ∈ cd_Finalizers cd)) as [Hin|Hnotin];
      [rewrite bool_decide_true by done|by rewrite bool_decide_false by done].
    pose proof (handleDelete_noFaults env cd w0 Hnf ltac:(by rewrite Hcrs0)) as Hok.
    destruct (handleDelete env cd w0) as [e w1] eqn:Hhd. simpl in Hok. subst e.
    apply handleDelete_cds in Hhd as [Hc _].
    unfold clientPatchCD, faultNow. rewrite Hnf. simpl.
    change (cdKey cd') with (cdKey cd). by rewrite Hc, Hcds0, Hkey, Hcd.
Qed.

(** The managed cluster under deletion with its two requests: one pass
    deletes both, removes the finalizer, and the resource leaves the
    store. *)
Lemma deletion_pass_after_gates_witness :
  let cd := Scenario.deleting in
  let w := Scenario.world cd
             [Scenario.stored "default" "default-secret" cd;
              Scenario.stored "extra" "extra-secret" cd] in
  passesGates cd
  ∧ size (crs w) = 2
  ∧ (Reconcile Scenario.env Scenario.request w).1 = Returned None
  ∧ crs (Reconcile Scenario.env Scenario.request w).2 = ∅
  ∧ cds (Reconcile Scenario.env Scenario.request w).2 !! Scenario.request = None.
Proof.
  intros cd w.
  assert (Hgates : passesGates cd) by (repeat split; vm_compute; done).
  destruct (deletion_pass_after_gates Scenario.env Scenario.request w cd
              (called (CallGetCD "ns" "foo") None w) eq_refl Hgates eq_refl)
    as (_ & Hpresent & _).
  set (w0 := called (CallGetCD "ns" "foo") None w) in *.
  set (w1 := (handleDelete Scenario.env cd w0).2).
  assert (Hhd : handleDelete Scenario.env cd w0 = (None, w1)) by (vm_compute; reflexivity).
  destruct (Hpresent ltac:(vm_compute; left) None w1 Hhd) as (_ & _ & _ & _ & Hpatch).
  set (cd' := withFinalizers cd
                (RemoveString (cd_Finalizers cd) (CertmanOperatorFinalizerLabel Scenario.env)))
    in *.
  set (w2 := (clientPatchCD Scenario.env cd' w1).2).
  assert (Hp : clientPatchCD Scenario.env cd' w1 = (None, w2)) by (vm_compute; reflexivity).
  destruct (Hpatch None w2 Hp) as (Hrec & _ & Hcd & _ & _).
  split; [exact Hgates|]. split; [reflexivity|].
  rewrite Hrec. simpl. split; [reflexivity|]. split; [vm_compute; reflexivity|].
  change Scenario.request with (cdKey cd). rewrite Hcd. reflexivity.
Defined.

(** ** The diff plan *)

(** In a well-formed store, looking a desired request up by name in the
    list of its namespace is looking it up by key in the store. *)
Lemma classify_listed ns m d :
  wfStore m → cr_Namespace d = ns → classify (listed ns m) d = classifyM m d.
Proof.
  intros Hwf Hns. unfold classify, classifyM.
  destruct (list_find _ (listed ns m)) as [[i c]|] eqn:Hfind.
  - apply list_find_Some in Hfind as (Hi & Hname & _).
    apply list_elem_of_lookup_2, elem_of_listed in Hi as (k & Hk & Hcns).
    pose proof (Hwf k c Hk) as Hkey.
    assert (k = crKey d) as -> by (rewrite <- Hkey; unfold crKey; congruence).
    by rewrite Hk.
  - apply list_find_None in Hfind.
    destruct (m !! crKey d) as [c|] eqn:Hc; [|done].
    exfalso. pose proof (Hwf _ c Hc) as Hkey.
    assert (Hin : c ∈ listed ns m).
    { apply elem_of_listed. exists (crKey d). split; [done|].
      unfold crKey in Hkey. congruence. }
    rewrite Forall_forall in Hfind. apply (Hfind c Hin).
    unfold crKey in Hkey. congruence.
Qed.

Lemma NoDup_keys_of_names ns (ds : list CertificateRequest) :
  Forall (λ d, cr_Namespace d = ns) ds → NoDup (cr_Name <$> ds) → NoDup (crKey <$> ds).
Proof.
  intros Hns Hnd.
  replace (crKey <$> ds) with ((λ n, (ns, n)) <$> (cr_Name <$> ds)).
  - apply NoDup_fmap_2; [|done]. by intros ?? [=].
  - rewrite <- list_fmap_compose. apply Forall_fmap_ext_1.
    eapply Forall_impl; [exact Hns|]. intros d Hd. unfold crKey. simpl. by rewrite Hd.
Qed.

Lemma name_not_key (c : CertificateRequest) (ds : list CertificateRequest) :
  cr_Name c ∉ cr_Name <$> ds → crKey c ∉ crKey <$> ds.
Proof.
  intros Hn (d & Hk & Hd)%list_elem_of_fmap. apply Hn.
  apply list_elem_of_fmap. exists d. split; [|done]. unfold crKey in Hk. congruence.
Qed.

(** Without faults the second half of the sync succeeds on the current
    list of the namespace: no error in the create/update loop, and the
    whole delete set deleted. *)
Lemma applyDesired_noFaults env cd ds w :
  noFaults env → wfStore (crs w) →
  let stored := listed (cd_Namespace cd) (crs w) in
  ∃ sl w1 w',
    syncLoop env cd ds [] [] w = (sl, [], w1)
    ∧ applyDesired env cd stored ds w = (None, withStatusBundles cd sl, w')
    ∧ crWrites (trace w')
      = crWrites (trace w1) ++ (CallDeleteCR <$> deleteSet stored ds)
    ∧ errorLogs (trace w') = errorLogs (trace w)
    ∧ ∀ k, k ∈ crKey <$> deleteSet stored ds → crs w' !! k = None.
Proof.
  intros Hnf Hwf stored.
  destruct (syncLoop_noFaults_any env cd ds [] [] w Hnf Hwf) as (sl & w1 & ws & Hloop & Hw1 & Hl1).
  destruct (syncLoop_frame _ _ _ _ _ _ _ _ _ Hwf Hloop) as (_ & _ & Hwf1 & Hfr).
  assert (Hsub : deleteSet stored ds `sublist_of` stored).
  { rewrite deleteSet_filter. apply sublist_filter. }
  destruct (deleteLoop_noFaults env (deleteSet stored ds) w1 Hnf) as [w' Hdel].
  { refine (sublist_NoDup _ _ _ (fmap_sublist _ _ _ Hsub)). by apply NoDup_listed_keys. }
  { intros c Hc. rewrite deleteSet_filter in Hc.
    apply list_elem_of_filter in Hc as [Hname Hc].
    apply elem_of_listed in Hc as (k & Hk & _).
    rewrite Hfr by by apply name_not_key.
    rewrite (Hwf k c Hk). by exists c. }
  destruct (deleteLoop_success _ _ _ _ Hdel) as (Hw & Hl & Hgone).
  exists sl, w1, w'. split; [done|]. split.
  - unfold applyDesired. fold stored. rewrite Hloop. simpl. rewrite Hdel.
    unfold DeepEqual, DeepCopy. by rewrite bool_decide_true.
  - repeat split; [done|congruence|done].
Qed.

(** C3, amended.  The delete set is the stored requests whose name no
    desired request has, in the order of the stored list, whatever the two
    lists are.  With distinct desired names and a store that works, the
    pass carries the diff plan out: for each desired request in turn the
    write of its class (create when no stored request has its name, update
    when one has it with another spec, none when the specs are equal) and
    the status of its class, then the deletion of the delete set. *)
Theorem diff_plan_applied :
  (∀ currentCRs desiredCRs : list CertificateRequest,
     deleteSet currentCRs desiredCRs
     = filter (λ storedCR, cr_Name storedCR ∉ cr_Name <$> desiredCRs) currentCRs
     ∧ ∀ storedCR,
         storedCR ∈ deleteSet currentCRs desiredCRs
         ↔ storedCR ∈ currentCRs ∧ ∀ d, d ∈ desiredCRs → cr_Name d ≠ cr_Name storedCR)
  ∧ (∀ env cd w desiredCRs,
       noFaults env →
       wfStore (crs w) →
       NoDup (cr_Name <$> desiredCRs) →
       Forall (λ d, cr_Namespace d = cd_Namespace cd) desiredCRs →
       let stored := listed (cd_Namespace cd) (crs w) in
       ∃ cd' w',
         applyDesired env cd stored desiredCRs w = (None, cd', w')
         ∧ crWrites (trace w')
           = crWrites (trace w) ++ omap (actionCall cd) (diffPlan stored desiredCRs)
         ∧ status_CertificateBundles (cd_Status cd')
           = omap (actionStatus cd) (classify stored <$> desiredCRs)).
Proof.
  split.
  { intros currentCRs desiredCRs. split; [apply deleteSet_filter|].
    intros c. rewrite deleteSet_filter, list_elem_of_filter, list_elem_of_fmap. split.
    - intros [Hno Hc]. split; [done|]. intros d Hd Hname. apply Hno. by exists d.
    - intros [Hc Hno]. split; [|done]. intros (d & Hname & Hd). by apply (Hno d Hd). }
  intros env cd w desiredCRs Hnf Hwf Hnd Hns stored.
  pose proof (NoDup_keys_of_names _ _ Hns Hnd) as Hkeys.
  destruct (applyDesired_noFaults env cd desiredCRs w Hnf Hwf)
    as (sl & w1 & w' & Hloop & Happly & Hw & _).
  destruct (syncLoop_noFaults env cd desiredCRs [] [] w Hnf Hwf Hkeys)
    as (w1' & Hloop' & Hw1 & _).
  rewrite Hloop in Hloop'. simplify_eq.
  assert (Hcls : ∀ (B : Type) (f : Action → option B),
            omap (λ d, f (classifyM (crs w) d)) desiredCRs
            = omap f (classify stored <$> desiredCRs)).
  { intros B f. clear -Hns Hwf. subst stored.
    induction Hns as [|d ds Hd _ IH]; [done|].
    cbn. by rewrite IH, (classify_listed _ _ _ Hwf Hd). }
  eexists _, _. split; [exact Happly|]. split.
  - rewrite Hw, Hw1. unfold diffPlan. rewrite omap_app, <- app_assoc. f_equal.
    f_equal; [apply Hcls|].
    rewrite deleteSet_filter. fold stored.
    induction (filter _ stored) as [|c l IH]; [done|]. cbn. by rewrite IH.
  - simpl. apply Hcls.
Qed.

(** Stored A, B, C against desired A', C: update A, leave C, delete B. *)
Lemma diff_plan_applied_witness :
  let cd := Scenario.active in
  let A := Scenario.stored "default" "old-secret" cd in
  let B := Scenario.stored "old" "old-secret" cd in
  let C := Scenario.issued (Scenario.stored "extra" "extra-secret" cd) in
  let A' := Scenario.desired "default" "default-secret" cd in
  let C' := Scenario.desired "extra" "extra-secret" cd in
  let w := Scenario.world cd [A; B; C] in
  let stored := listed (cd_Namespace cd) (crs w) in
  cr_Spec A' ≠ cr_Spec A
  ∧ diffPlan stored [A'; C'] = [ActUpdate A A'; ActUnchanged C C'; ActDelete B]
  ∧ crWrites (trace (applyDesired Scenario.env cd stored [A'; C'] w).2)
    = [CallUpdateCR (withSpec A (cr_Spec A')); CallDeleteCR B]
  ∧ status_CertificateBundles (cd_Status (applyDesired Scenario.env cd stored [A'; C'] w).1.2)
    = [{| cbs_Name := "default"; cbs_Generated := false |};
       {| cbs_Name := "extra"; cbs_Generated := true |}].
Proof.
  intros cd A B C A' C' w stored.
  assert (Hplan : diffPlan stored [A'; C'] = [ActUpdate A A'; ActUnchanged C C'; ActDelete B])
    by (vm_compute; reflexivity).
  split; [vm_compute; discriminate|]. split; [exact Hplan|].
  destruct diff_plan_applied as [_ Hplanned].
  destruct (Hplanned Scenario.env cd w [A'; C']) as (cd' & w' & Happly & Hw & Hst).
  - intros n c. reflexivity.
  - apply wfStore_world.
  - apply (bool_decide_unpack _). vm_compute. exact I.
  - repeat constructor.
  - fold stored in Happly, Hw, Hst. rewrite Happly. simpl. rewrite Hw, Hst, Hplan.
    split; vm_compute; reflexivity.
Defined.

(** C3 as stated fails when two desired requests have one name: on the
    cluster with the twin bundles and an empty store no stored request has
    the name of either desired request, yet the second one is not created
    but written as an update of the first, which the same pass has just
    created. *)
Lemma diff_plan_twins_update :
  let cd := Scenario.twins in
  let d1 := Scenario.desired "default" "secret-1" cd in
  let d2 := Scenario.desired "default" "secret-2" cd in
  let w := Scenario.world cd [] in
  let stored := listed (cd_Namespace cd) (crs w) in
  desiredOf Scenario.env cd = [d1; d2]
  ∧ stored = []
  ∧ diffPlan stored [d1; d2] = [ActCreate d1; ActCreate d2]
  ∧ (syncCertificateRequests Scenario.env cd w).1.1 = None
  ∧ crWrites (trace (syncCertificateRequests Scenario.env cd w).2)
    = [CallCreateCR (owned cd d1); CallUpdateCR (withSpec (owned cd d1) (cr_Spec d2))]
  ∧ crWrites (trace (syncCertificateRequests Scenario.env cd w).2)
    ≠ omap (actionCall cd) (diffPlan stored [d1; d2]).
Proof.
  intros cd d1 d2 w stored. repeat split; try (vm_compute; reflexivity).
  vm_compute. discriminate.
Qed.

(** ** Running the sync twice *)

Lemma filter_none {A : Type} (P : A → Prop) `{∀ x, Decision (P x)} (l : list A) :
  (∀ x, x ∈ l → ¬ P x) → filter P l = [].
Proof.
  induction l as [|x l IH]; intros Hno; [done|].
  rewrite filter_cons_False by (apply Hno; left). apply IH.
  intros y Hy. apply Hno. by right.
Qed.

Lemma desiredFrom_namespace env cd bundles :
  Forall (λ d, cr_Namespace d = cd_Namespace cd) (desiredFrom env cd bundles).
Proof.
  unfold desiredFrom. apply Forall_fmap, Forall_forall. intros cb _. simpl.
  apply createCertificateRequest_meta.
Qed.

Lemma desiredOf_withStatusBundles env cd l :
  desiredOf env (withStatusBundles cd l) = desiredOf env cd.
Proof. reflexivity. Qed.

Lemma length_zero_nil {A : Type} (l : list A) : (0 <? length l)%nat = false → l = [].
Proof. destruct l; [done|]. simpl. discriminate. Qed.

(** What a sync that returns no error leaves behind: every desired
    request is in the store with the desired spec, and the namespace holds
    no request under another name. *)
Lemma syncCertificateRequests_success env cd w cd1 w1 :
  wfStore (crs w) → NoDup (cr_Name <$> desiredOf env cd) →
  syncCertificateRequests env cd w = (None, cd1, w1) →
  wfStore (crs w1)
  ∧ (∃ l, cd1 = withStatusBundles cd l)
  ∧ (∀ d, d ∈ desiredOf env cd → ∃ c, crs w1 !! crKey d = Some c ∧ cr_Spec c = cr_Spec d)
  ∧ (∀ c, c ∈ listed (cd_Namespace cd) (crs w1) → cr_Name c ∈ cr_Name <$> desiredOf env cd).
Proof.
  intros Hwf Hnd Hrun. unfold syncCertificateRequests in Hrun.
  destruct (getCurrentCertificateRequests env cd w) as [[cur|err] wa] eqn:Hget; [|done].
  apply getCurrentCertificateRequests_reads in Hget as [(Hcrsa & _) Hcur].
  rewrite (Hcur cur eq_refl) in Hrun. clear Hcur.
  destruct (desiredLoop env cd _ [] wa) as [[ds|err] wb] eqn:Hdes; [|done].
  apply desiredLoop_reads in Hdes as [(Hcrsb & _) Hds].
  rewrite (Hds ds eq_refl) in Hrun. clear Hds. simpl in Hrun.
  fold (desiredOf env cd) in Hrun.
  assert (Hcrs : crs wb = crs w) by congruence. clear Hcrsa Hcrsb.
  unfold applyDesired in Hrun.
  destruct (syncLoop env cd (desiredOf env cd) [] [] wb) as [[sl errs] wc] eqn:Hloop.
  destruct (0 <? length errs)%nat eqn:Herrs; [done|].
  apply length_zero_nil in Herrs. subst errs.
  destruct (deleteLoop env _ wc) as [e wd] eqn:Hdel.
  destruct e as [err|]; [done|].
  unfold DeepEqual, DeepCopy in Hrun. rewrite bool_decide_true in Hrun by done.
  simpl in Hrun. simplify_eq.
  pose proof (NoDup_keys_of_names _ _ (desiredFrom_namespace env cd _) Hnd) as Hkeys.
  rewrite <- Hcrs in Hwf.
  destruct (syncLoop_frame _ _ _ _ _ _ _ _ _ Hwf Hloop) as (_ & _ & Hwfc & Hfrc).
  pose proof (syncLoop_success _ _ _ _ _ _ _ _ Hwf Hkeys Hloop) as Hin.
  destruct (deleteLoop_frame _ _ _ _ _ Hdel) as (_ & _ & Hwfd & Hfrd).
  destruct (deleteLoop_success _ _ _ _ Hdel) as (_ & _ & Hgone).
  assert (Hdelkeys : ∀ k, k ∈ crKey <$> deleteSet (listed (cd_Namespace cd) (crs w))
                              (desiredOf env cd) →
                          k ∉ crKey <$> desiredOf env cd).
  { intros k (c & -> & Hc)%list_elem_of_fmap. rewrite deleteSet_filter in Hc.
    apply list_elem_of_filter in Hc as [Hname _]. by apply name_not_key. }
  split; [by apply Hwfd|]. split; [by eexists|]. split.
  - intros d Hd. rewrite Hfrd; [by apply Hin|].
    intros Hk. apply (Hdelkeys _ Hk). by apply list_elem_of_fmap_2.
  - intros c Hc. apply elem_of_listed in Hc as (k & Hk & Hns).
    destruct (decide (cr_Name c ∈ cr_Name <$> desiredOf env cd)) as [|Hname]; [done|].
    exfalso. pose proof (Hwfd Hwfc k c Hk) as Hkey. subst k.
    assert (Hindel : crKey c ∈ crKey <$> deleteSet (listed (cd_Namespace cd) (crs w))
                                   (desiredOf env cd)).
    { apply list_elem_of_fmap_2. rewrite deleteSet_filter.
      apply list_elem_of_filter. split; [done|].
      apply elem_of_listed. exists (crKey c). split; [|done].
      rewrite <- Hcrs, <- Hfrc by by apply name_not_key.
      destruct (decide (crKey c ∈ crKey <$> deleteSet (listed (cd_Namespace cd) (crs w))
                                      (desiredOf env cd))) as [Hd|Hd].
      - rewrite (Hgone _ Hd) in Hk. done.
      - by rewrite <- Hfrd. }
    rewrite (Hgone _ Hindel) in Hk. done.
Qed.

(** Where the store already holds what is desired and nothing else in
    the namespace, a sync writes nothing, whatever fails. *)
Lemma syncCertificateRequests_settled env cd w :
  (∀ d, d ∈ desiredOf env cd → ∃ c, crs w !! crKey d = Some c ∧ cr_Spec c = cr_Spec d) →
  (∀ c, c ∈ listed (cd_Namespace cd) (crs w) → cr_Name c ∈ cr_Name <$> desiredOf env cd) →
  crWrites (trace (syncCertificateRequests env cd w).2) = crWrites (trace w)
  ∧ crs (syncCertificateRequests env cd w).2 = crs w.
Proof.
  intros Hin Hall. unfold syncCertificateRequests.
  destruct (getCurrentCertificateRequests env cd w) as [r wa] eqn:Hget.
  apply getCurrentCertificateRequests_reads in Hget as [Hroa Hcur].
  pose proof (readOnly_crWrites _ _ Hroa) as Hwa. destruct Hroa as (Hcrsa & _).
  destruct r as [cur|err]; [|simpl; views; split; congruence].
  rewrite (Hcur cur eq_refl). clear Hcur.
  destruct (desiredLoop env cd _ [] wa) as [r wb] eqn:Hdes.
  apply desiredLoop_reads in Hdes as [Hrob Hds].
  pose proof (readOnly_crWrites _ _ Hrob) as Hwb. destruct Hrob as (Hcrsb & _).
  destruct r as [ds|err]; [|simpl; split; congruence].
  rewrite (Hds ds eq_refl). clear Hds. simpl. fold (desiredOf env cd).
  unfold applyDesired.
  replace (deleteSet (listed (cd_Namespace cd) (crs w)) (desiredOf env cd)) with
    (@nil CertificateRequest).
  2:{ rewrite deleteSet_filter. symmetry. apply filter_none.
      intros c Hc Hname. apply Hname. by apply Hall. }
  destruct (syncLoop env cd (desiredOf env cd) [] [] wb) as [[sl errs] wc] eqn:Hloop.
  apply syncLoop_unchanged in Hloop as [Hcrsc Hwc].
  2:{ intros d Hd. rewrite Hcrsb, Hcrsa. by apply Hin. }
  destruct (0 <? length errs)%nat; [simpl; split; congruence|].
  simpl. unfold DeepEqual, DeepCopy. rewrite bool_decide_true by done. simpl.
  split; congruence.
Qed.

(** C6, amended.  After a sync that returned no error, on a cluster
    resource whose desired requests have distinct names, a second sync of
    the resource as the first left it tries no create, update or delete
    and leaves the stored requests as they are, whatever fails during the
    second run: every desired request is found with the desired spec and
    the delete set is empty. *)
Theorem second_sync_writes_nothing env cd w cd1 w1 :
  wfStore (crs w) →
  NoDup (cr_Name <$> desiredOf env cd) →
  syncCertificateRequests env cd w = (None, cd1, w1) →
  crWrites (trace (syncCertificateRequests env cd1 w1).2) = crWrites (trace w1)
  ∧ crs (syncCertificateRequests env cd1 w1).2 = crs w1
  ∧ (∀ d, d ∈ desiredOf env cd1 → ∃ c, classifyM (crs w1) d = ActUnchanged c d)
  ∧ deleteSet (listed (cd_Namespace cd1) (crs w1)) (desiredOf env cd1) = [].
Proof.
  intros Hwf Hnd Hrun.
  destruct (syncCertificateRequests_success _ _ _ _ _ Hwf Hnd Hrun)
    as (Hwf1 & [l ->] & Hin & Hall).
  rewrite desiredOf_withStatusBundles.
  change (cd_Namespace (withStatusBundles cd l)) with (cd_Namespace cd).
  destruct (syncCertificateRequests_settled env (withStatusBundles cd l) w1) as [Hw Hcrs];
    [by rewrite desiredOf_withStatusBundles..|].
  repeat split; [done|done| |].
  - intros d Hd. destruct (Hin d Hd) as (c & Hc & Hspec). exists c.
    unfold classifyM. rewrite Hc. by rewrite decide_True.
  - rewrite deleteSet_filter. apply filter_none.
    intros c Hc Hname. apply Hname. by apply Hall.
Qed.

(** The active cluster on an empty store: the first sync creates the
    request, the second one writes nothing. *)
Lemma second_sync_writes_nothing_witness :
  let cd := Scenario.active in
  let w := Scenario.world cd [] in
  let r1 := syncCertificateRequests Scenario.env cd w in
  let r2 := syncCertificateRequests Scenario.env r1.1.2 r1.2 in
  r1.1.1 = None
  ∧ crWrites (trace r1.2)
    = [CallCreateCR (owned cd (Scenario.desired "default" "default-secret" cd))]
  ∧ crWrites (trace r2.2) = crWrites (trace r1.2)
  ∧ crs r2.2 = crs r1.2.
Proof.
  intros cd w r1 r2. split; [reflexivity|]. split; [vm_compute; reflexivity|].
  destruct (second_sync_writes_nothing Scenario.env cd w r1.1.2 r1.2) as (Hw & Hcrs & _).
  - apply wfStore_world.
  - apply (bool_decide_unpack _). vm_compute. exact I.
  - vm_compute. reflexivity.
  - split; [exact Hw|exact Hcrs].
Defined.

(** C6 as stated fails in two ways.  With the twin bundles, two requests
    of one name and different specs, every run rewrites the stored request
    twice: a second run after a first run without error makes two update
    calls.  And after a first run that failed, here on a create call that
    timed out, the second run makes the create call again. *)
Lemma second_sync_writes_again :
  (let cd := Scenario.twins in
   let d1 := Scenario.desired "default" "secret-1" cd in
   let d2 := Scenario.desired "default" "secret-2" cd in
   let r1 := syncCertificateRequests Scenario.env cd (Scenario.world cd []) in
   let r2 := syncCertificateRequests Scenario.env r1.1.2 r1.2 in
   r1.1.1 = None ∧ r2.1.1 = None
   ∧ crWrites (trace r2.2)
     = crWrites (trace r1.2)
       ++ [CallUpdateCR (withSpec (withSpec (owned cd d1) (cr_Spec d2)) (cr_Spec d1));
           CallUpdateCR (withSpec (withSpec (owned cd d1) (cr_Spec d1)) (cr_Spec d2))])
  ∧ (let cd := Scenario.active in
     let d := Scenario.desired "default" "default-secret" cd in
     let r1 := syncCertificateRequests Scenario.envSlowStart cd (Scenario.world cd []) in
     let r2 := syncCertificateRequests Scenario.envSlowStart r1.1.2 r1.2 in
     r1.1.1 = Some (ErrOther "met multiple errors when sync certificaterequests")
     ∧ r2.1.1 = None
     ∧ crWrites (trace r2.2) = crWrites (trace r1.2) ++ [CallCreateCR (owned cd d)]).
Proof. repeat split; vm_compute; reflexivity. Qed.

(** ** Bundles without domains *)

(** C8, amended.  A generate-enabled bundle without domains, once the
    notification-email provider has answered for it, is logged as an error
    and left out of the desired requests, and the loop goes on with the
    bundles after it.  In a pass without faults the error of every such
    bundle is logged, the pass returns no error, and a stored request
    under the name of the bundle, when no desired request has that name,
    is deleted in the same pass. *)
Theorem domainless_bundle_deleted_same_pass :
  (∀ env cd cb rest acc w,
     cb_Generate cb = true →
     getDomainsForCertBundle env cb cd = [] →
     faultNow env CallGetEmail w = None →
     desiredLoop env cd (cb :: rest) acc w
     = desiredLoop env cd rest acc
         (logError (noDomainsError cd cb) (errorString (noDomainsError cd cb))
            (called CallGetEmail None w)))
  ∧ (∀ env cd w cb storedCR,
       noFaults env →
       wfStore (crs w) →
       cb ∈ spec_CertificateBundles (cd_Spec cd) →
       cb_Generate cb = true →
       getDomainsForCertBundle env cb cd = [] →
       crs w !! (cd_Namespace cd, derivedName env cd cb) = Some storedCR →
       derivedName env cd cb ∉ cr_Name <$> desiredOf env cd →
       let r := syncCertificateRequests env cd w in
       r.1.1 = None
       ∧ noDomainsError cd cb ∈ errorLogs (trace r.2)
       ∧ CallDeleteCR storedCR ∈ crWrites (trace r.2)
       ∧ crs r.2 !! (cd_Namespace cd, derivedName env cd cb) = None).
Proof.
  split.
  - intros env cd cb rest acc w Hgen Hdom Hf. simpl.
    rewrite Hgen, Hdom. unfold GetDefaultNotificationEmailAddress. by rewrite Hf.
  - intros env cd w cb c Hnf Hwf Hcb Hgen Hdom Hc Hname r. subst r.
    unfold syncCertificateRequests.
    destruct (getCurrentCertificateRequests_noFaults env cd w Hnf) as (wa & Hget & Hta).
    pose proof Hget as Hroa. apply getCurrentCertificateRequests_reads in Hroa as [(Hcrsa & _) _].
    rewrite Hget.
    destruct (desiredLoop_noFaults env cd (spec_CertificateBundles (cd_Spec cd)) [] wa Hnf)
      as (wb & Hdes & Hlb).
    pose proof Hdes as Hrob. apply desiredLoop_reads in Hrob as [(Hcrsb & _) _].
    rewrite Hdes. simpl. fold (desiredOf env cd).
    assert (Hcrs : crs wb = crs w) by congruence.
    destruct (applyDesired_noFaults env cd (desiredOf env cd) wb Hnf) as
      (sl & w1 & w' & _ & Happly & Hw & Hl & Hgone); [by rewrite Hcrs|].
    rewrite Hcrs in Happly, Hw, Hgone. rewrite Happly. simpl.
    pose proof (Hwf _ _ Hc) as Hkey.
    assert (Hin : c ∈ deleteSet (listed (cd_Namespace cd) (crs w)) (desiredOf env cd)).
    { rewrite deleteSet_filter. apply list_elem_of_filter.
      unfold crKey in Hkey. split; [congruence|].
      apply elem_of_listed. eexists. split; [exact Hc|congruence]. }
    repeat split.
    + rewrite Hl, Hlb. apply elem_of_app. right. apply list_elem_of_fmap_2.
      by apply list_elem_of_filter.
    + rewrite Hw. apply elem_of_app. right. by apply list_elem_of_fmap_2.
    + apply Hgone. rewrite <- Hkey. by apply list_elem_of_fmap_2.
Qed.

(** The orphaned bundle with its request in the store. *)
Lemma domainless_bundle_deleted_same_pass_witness :
  let cd := Scenario.orphaned in
  let cb := Scenario.bundle "orphan" "orphan-secret" in
  let storedCR := Scenario.stored "orphan" "orphan-secret" cd in
  let w := Scenario.world cd [storedCR] in
  let r := syncCertificateRequests Scenario.env cd w in
  getDomainsForCertBundle Scenario.env cb cd = []
  ∧ crs w !! (cd_Namespace cd, derivedName Scenario.env cd cb) = Some storedCR
  ∧ r.1.1 = None
  ∧ CallDeleteCR storedCR ∈ crWrites (trace r.2)
  ∧ crs r.2 !! (cd_Namespace cd, derivedName Scenario.env cd cb) = None.
Proof.
  intros cd cb storedCR w r. split; [reflexivity|]. split; [reflexivity|].
  destruct domainless_bundle_deleted_same_pass as [_ H].
  destruct (H Scenario.env cd w cb storedCR) as (He & _ & Hd & Hg).
  - intros n c. reflexivity.
  - apply wfStore_world.
  - left.
  - reflexivity.
  - reflexivity.
  - reflexivity.
  - apply (bool_decide_unpack _). vm_compute. exact I.
  - split; [exact He|]. split; [exact Hd|exact Hg].
Defined.

(** C8 as stated fails on the last point: the stored request of a bundle
    without domains is deleted by the pass that logs the error, not by the
    next one.  One pass over the cluster with the orphaned bundle, whose
    request is in the store, returns success and leaves the store without
    that request. *)
Lemma domainless_bundle_request_gone_after_one_pass :
  let cd := Scenario.orphaned in
  let storedCR := Scenario.stored "orphan" "orphan-secret" cd in
  let w := Scenario.world cd [storedCR] in
  let r := Reconcile Scenario.env Scenario.request w in
  getDomainsForCertBundle Scenario.env (Scenario.bundle "orphan" "orphan-secret") cd = []
  ∧ crs w !! ("ns", "foo-orphan") = Some storedCR
  ∧ r.1 = Returned None
  ∧ crs r.2 !! ("ns", "foo-orphan") = None
  ∧ crWrites (trace r.2)
    = [CallCreateCR (owned cd (Scenario.desired "default" "default-secret" cd));
       CallDeleteCR storedCR].
Proof. intros cd storedCR w r. repeat split; vm_compute; reflexivity. Qed.

(** * Further properties of the pass *)

(** ** The gates *)

Lemma callsWhere_app p t1 t2 : callsWhere p (t1 ++ t2) = callsWhere p t1 ++ callsWhere p t2.
Proof. unfold callsWhere. by rewrite calls_app, List.filter_app. Qed.

(** X1. A fetched resource that is not managed, or fake, or not yet
    installed ends the pass at once: the pass returns success and has only
    read the resource, whatever its relocation annotation, deletion
    timestamp and finalizers are. *)
Theorem Reconcile_skips_ignored env request w cd w0 :
  clientGetCD env request w = (Ok cd, w0) →
  cd_Labels cd !! ClusterDeploymentManagedLabel ≠ Some "true"
  ∨ cd_Annotations cd !! fakeClusterDeploymentAnnotation = Some "true"
  ∨ spec_Installed (cd_Spec cd) = false →
  Reconcile env request w = (Returned None, w0)
  ∧ readOnly w w0
  ∧ trace w0 = trace w ++ [Called (CallGetCD request.1 request.2) None].
Proof.
  intros Hget Hign.
  assert (Hrun : Reconcile env request w = (Returned None, w0)).
  { unfold Reconcile. rewrite Hget. unfold mapIndex.
    destruct (cd_Labels cd !! ClusterDeploymentManagedLabel) as [m|] eqn:Hm; [|done].
    destruct (String.eqb_spec m "true") as [->|Hne]; [|done]. simpl.
    destruct (cd_Annotations cd !! fakeClusterDeploymentAnnotation) as [f|] eqn:Hf.
    - destruct (String.eqb_spec f "true") as [->|Hnf]; [done|]. simpl.
      destruct Hign as [H|[H|H]]; [done|congruence|by rewrite H].
    - simpl. destruct Hign as [H|[H|H]]; [done|done|by rewrite H]. }
  split; [exact Hrun|]. pose proof Hget as Hget'.
  apply clientGetCD_reads in Hget as [Hro _]. split; [exact Hro|].
  unfold clientGetCD, faultNow in Hget'. branches; faults; done.
Qed.

(** The fake cluster, whose relocation annotation would make the gate
    after panic. *)
Lemma Reconcile_skips_ignored_witness :
  let w := Scenario.world Cases.fake [] in
  cd_Annotations Cases.fake !! hiveRelocationAnnotation = Some "outgoing"
  ∧ (Reconcile Scenario.env Scenario.request w).1 = Returned None
  ∧ calls (trace (Reconcile Scenario.env Scenario.request w).2) = [CallGetCD "ns" "foo"].
Proof.
  intros w. split; [reflexivity|].
  destruct (Reconcile_skips_ignored Scenario.env Scenario.request w Cases.fake
              (called (CallGetCD "ns" "foo") None w) eq_refl) as (Hrun & _ & Htrace).
  - right. left. reflexivity.
  - rewrite Hrun. split; reflexivity.
Defined.

(** X2. A managed, installed resource whose relocation annotation has
    the outgoing value as its second piece is deferred: the pass returns
    success and has only read the resource, also when the resource is
    under deletion with the finalizer present. *)
Theorem Reconcile_defers_outgoing env request w cd w0 v :
  clientGetCD env request w = (Ok cd, w0) →
  cd_Labels cd !! ClusterDeploymentManagedLabel = Some "true" →
  cd_Annotations cd !! fakeClusterDeploymentAnnotation ≠ Some "true" →
  spec_Installed (cd_Spec cd) = true →
  cd_Annotations cd !! hiveRelocationAnnotation = Some v →
  strings.Split v "/" !! 1%nat = Some hiveRelocationOutgoingValue →
  Reconcile env request w = (Returned None, w0) ∧ readOnly w w0.
Proof.
  intros Hget Hmanaged Hfake Hinst Hv Hpiece.
  split; [|by apply clientGetCD_reads in Hget as [? _]].
  unfold Reconcile. rewrite Hget, (mapIndex_Some _ _ _ Hmanaged). simpl.
  assert (Hf : (let '(val, ok) := mapIndex (cd_Annotations cd) fakeClusterDeploymentAnnotation in
                ok && String.eqb val "true") = false).
  { unfold mapIndex. destruct (cd_Annotations cd !! _) as [v'|]; [|done]. simpl.
    destruct (String.eqb_spec v' "true"); [congruence|done]. }
  destruct (mapIndex (cd_Annotations cd) fakeClusterDeploymentAnnotation) as [val ok].
  rewrite Hf, Hinst. simpl. rewrite relocationLoop_lookup, Hv.
  unfold relocationOf. by rewrite Hpiece.
Qed.

(** The cluster on its way out keeps its finalizer and its request. *)
Lemma Reconcile_defers_outgoing_witness :
  let storedCR := Scenario.stored "default" "default-secret" Cases.leaving in
  let w := Scenario.world Cases.leaving [storedCR] in
  let r := Reconcile Scenario.env Scenario.request w in
  IsZero (cd_DeletionTimestamp Cases.leaving) = false
  ∧ r.1 = Returned None
  ∧ crs r.2 = crs w ∧ cds r.2 = cds w.
Proof.
  intros storedCR w r. split; [reflexivity|].
  destruct (Reconcile_defers_outgoing Scenario.env Scenario.request w Cases.leaving
              (called (CallGetCD "ns" "foo") None w) "hive-b/outgoing")
    as [Hrun (Hcrs & Hcds & _)];
    [reflexivity | reflexivity | by vm_compute | reflexivity | reflexivity | reflexivity |].
  subst r. rewrite Hrun. simpl. split; [reflexivity|]. split; [exact Hcrs|exact Hcds].
Defined.

(** X3. The result of the loop over the annotations does not depend on
    the order in which the entries of the map are met. *)
Theorem relocationLoop_any_order (l1 l2 : list (string * string)) :
  NoDup l1.*1 → l1 ≡ₚ l2 → relocationLoop l1 = relocationLoop l2.
Proof.
  intros Hnd Hperm.
  assert (Hnd2 : NoDup l2.*1) by by rewrite <- Hperm.
  destruct (decide (hiveRelocationAnnotation ∈ l1.*1)) as [Hin|Hnotin].
  - apply list_elem_of_fmap in Hin as ([a v] & Ha & Hin). simpl in Ha. subst a.
    rewrite (relocationLoop_present l1 v Hnd Hin).
    symmetry. apply relocationLoop_present; [done|]. by rewrite <- Hperm.
  - rewrite (relocationLoop_absent l1 Hnotin).
    symmetry. apply relocationLoop_absent. by rewrite <- Hperm.
Qed.

Lemma relocationLoop_any_order_witness :
  relocationLoop [("a", "1"); (hiveRelocationAnnotation, "x/outgoing"); ("b", "2/3")]
  = relocationLoop [("b", "2/3"); ("a", "1"); (hiveRelocationAnnotation, "x/outgoing")]
  ∧ relocationLoop [("a", "1"); (hiveRelocationAnnotation, "x/outgoing"); ("b", "2/3")]
    = RelocationOutgoing.
Proof.
  split; [|reflexivity].
  apply relocationLoop_any_order.
  - apply (bool_decide_unpack _). vm_compute. exact I.
  - apply (bool_decide_unpack _). vm_compute. exact I.
Defined.

(** X4. A pass whose fetch does not give the resource writes nothing: it
    returns success when the resource is not in the store, and returns the
    error, after logging it, when the fetch fails otherwise. *)
Theorem Reconcile_fetch_failure env request w err w0 :
  clientGetCD env request w = (Err err, w0) →
  readOnly w (Reconcile env request w).2
  ∧ calls (trace (Reconcile env request w).2)
    = calls (trace w) ++ [CallGetCD request.1 request.2]
  ∧ (cds w !! request = None ∨ err ≠ ErrNotFound)
  ∧ (Reconcile env request w).1
    = if IsNotFound err then Returned None else Returned (Some err).
Proof.
  intros Hget. unfold Reconcile. rewrite Hget.
  unfold clientGetCD, faultNow in Hget. unfold readOnly.
  branches; faults; simpl; unfold calls; rewrite ?omap_app; views; repeat split; eauto.
  all: try (right; discriminate).
Qed.

Lemma Reconcile_fetch_failure_witness :
  let w := Scenario.world Scenario.active [] in
  (Reconcile Scenario.env ("ns", "gone") w).1 = Returned None
  ∧ (Reconcile Cases.envDown Scenario.request w).1
    = Returned (Some (ErrOther "connection refused")).
Proof.
  intros w. split.
  - destruct (Reconcile_fetch_failure Scenario.env ("ns", "gone") w ErrNotFound
                (called (CallGetCD "ns" "gone") (Some ErrNotFound) w) eq_refl)
      as (_ & _ & _ & H). exact H.
  - destruct (Reconcile_fetch_failure Cases.envDown Scenario.request w
                (ErrOther "connection refused")
                (called (CallGetCD "ns" "foo") (Some (ErrOther "connection refused")) w)
                eq_refl) as (_ & _ & _ & H). exact H.
Defined.

(** ** Writes to the cluster resource *)

Lemma clientPatchCD_calls env cd w e w' :
  clientPatchCD env cd w = (e, w') →
  callsWhere isCRCall (trace w') = callsWhere isCRCall (trace w).
Proof.
  unfold clientPatchCD, faultNow. intros Hrun.
  branches; faults; simpl; rewrite ?callsWhere_app; simpl; by rewrite app_nil_r.
Qed.

(** A resource that keeps a finalizer stays in the store. *)
Lemma patched_kept cd m : cd_Finalizers cd ≠ [] → patched cd m = <[cdKey cd := cd]> m.
Proof. intros Hne. unfold patched. rewrite bool_decide_false by done. by rewrite andb_false_r. Qed.

Lemma snoc_not_nil {A : Type} (l : list A) (x : A) : l ++ [x] ≠ [].
Proof. by destruct l. Qed.

Lemma clientGetCD_trace env request w r w0 :
  clientGetCD env request w = (r, w0) →
  ∃ e, trace w0 = trace w ++ [Called (CallGetCD request.1 request.2) e].
Proof. unfold clientGetCD, faultNow. intros Hrun. branches; faults; by eexists. Qed.

(** X5. In a pass over a resource that passed the gates and is not under
    deletion, the only write to the cluster resource is the patch that
    adds the finalizer: none when the finalizer is there, one otherwise.
    When that patch fails the pass returns its error and the sync is not
    run: no call on CertificateRequests is made. *)
Theorem active_pass_finalizer env request w cd w0 :
  clientGetCD env request w = (Ok cd, w0) →
  passesGates cd →
  IsZero (cd_DeletionTimestamp cd) = true →
  let label := CertmanOperatorFinalizerLabel env in
  let cd' := withFinalizers cd (cd_Finalizers cd ++ [label]) in
  let r := Reconcile env request w in
  (label ∈ cd_Finalizers cd →
   patches (trace r.2) = patches (trace w) ∧ cds r.2 = cds w)
  ∧ (label ∉ cd_Finalizers cd →
     patches (trace r.2) = patches (trace w) ++ [CallPatchCD cd']
     ∧ ∀ e w1, clientPatchCD env cd' w0 = (e, w1) →
         match e with
         | Some err =>
             r.1 = Returned (Some err) ∧ cds r.2 = cds w ∧ crs r.2 = crs w
             ∧ callsWhere isCRCall (trace r.2) = callsWhere isCRCall (trace w)
         | None => cds r.2 = <[cdKey cd := cd']> (cds w)
         end).
Proof.
  intros Hget Hgates Hzero label cd' r. subst r.
  rewrite (Reconcile_gates _ _ _ _ _ Hget Hgates), Hzero. simpl.
  destruct (clientGetCD_trace _ _ _ _ _ Hget) as [e0 Ht0].
  apply clientGetCD_reads in Hget as [Hro _].
  pose proof (readOnly_patches _ _ Hro) as Hp0.
  assert (Hc0 : callsWhere isCRCall (trace w0) = callsWhere isCRCall (trace w)).
  { rewrite Ht0, callsWhere_app. simpl. by rewrite app_nil_r. }
  destruct Hro as (Hcrs0 & Hcds0 & _).
  unfold reconcileActive, addFinalizer, ContainsString, DeepCopy. fold label. split.
  - intros Hin. rewrite bool_decide_true by done. simpl.
    destruct (syncCertificateRequests_patches env cd w0) as [Hc Hp].
    destruct (syncCertificateRequests env cd w0) as [[e cd1] w1]. cbn [fst snd] in *.
    destruct e; simpl; views; split; congruence.
  - intros Hnotin. rewrite bool_decide_false by done. simpl. fold cd'.
    destruct (clientPatchCD env cd' w0) as [e w1] eqn:Hpatch.
    pose proof (clientPatchCD_calls _ _ _ _ _ Hpatch) as Hc1.
    destruct (clientPatchCD_effect _ _ _ _ _ Hpatch) as (Hcrs1 & Hp1 & _ & Hcd1).
    rewrite (patched_kept cd') in Hcd1 by apply snoc_not_nil.
    destruct e as [err|].
    + simpl. views. split; [congruence|]. intros e2 w2 [= <- <-]. simpl.
      rewrite callsWhere_app. simpl. rewrite app_nil_r. repeat split; congruence.
    + destruct (syncCertificateRequests_patches env cd' w1) as [Hc Hp].
      destruct (syncCertificateRequests env cd' w1) as [[e cd1] w2]. cbn [fst snd] in *.
      destruct Hcd1 as [_ Hcd1].
      change (cdKey cd') with (cdKey cd) in Hcd1.
      destruct e; simpl; views; (split; [congruence|]); intros e2 w3 [= <- <-]; congruence.
Qed.

(** The cluster before its first pass, with patches refused and with
    patches accepted. *)
Lemma active_pass_finalizer_witness :
  let w := Scenario.world Cases.fresh [] in
  let r := Reconcile Cases.envNoPatch Scenario.request w in
  let r' := Reconcile Scenario.env Scenario.request w in
  r.1 = Returned (Some (ErrOther "conflict"))
  ∧ callsWhere isCRCall (trace r.2) = []
  ∧ cd_Finalizers <$> cds r'.2 !! Scenario.request = Some [Scenario.finalizer].
Proof.
  intros w r r'.
  assert (Hgates : passesGates Cases.fresh) by (repeat split; vm_compute; done).
  set (w0 := called (CallGetCD "ns" "foo") None w).
  set (cd' := withFinalizers Cases.fresh (cd_Finalizers Cases.fresh ++ [Scenario.finalizer])).
  destruct (active_pass_finalizer Cases.envNoPatch Scenario.request w Cases.fresh w0
              eq_refl Hgates eq_refl) as [_ Hno].
  destruct (Hno ltac:(apply (bool_decide_unpack _); vm_compute; exact I)) as [_ Hpatch].
  destruct (Hpatch (Some (ErrOther "conflict"))
              (called (CallPatchCD cd') (Some (ErrOther "conflict")) w0) eq_refl)
    as (Hr & _ & _ & Hcalls).
  destruct (active_pass_finalizer Scenario.env Scenario.request w Cases.fresh w0
              eq_refl Hgates eq_refl) as [_ Hno'].
  destruct (Hno' ltac:(apply (bool_decide_unpack _); vm_compute; exact I)) as [_ Hpatch'].
  pose proof (Hpatch' None (called (CallPatchCD cd') None
                              (setCDs (<[cdKey cd' := cd']> (cds w0)) w0)) eq_refl) as Hcds.
  split; [exact Hr|]. split; [exact Hcalls|].
  subst r'. simpl in Hcds. rewrite Hcds. reflexivity.
Defined.

Lemma withFinalizers_same cd : withFinalizers cd (cd_Finalizers cd) = cd.
Proof. by destruct cd. Qed.

Lemma reconcileDelete_cds env cd w :
  let label := CertmanOperatorFinalizerLabel env in
  cds (reconcileDelete env cd w).2 = cds w
  ∨ (label ∈ cd_Finalizers cd
     ∧ cds (reconcileDelete env cd w).2
       = patched (withFinalizers cd (RemoveString (cd_Finalizers cd) label)) (cds w)).
Proof.
  intros label. unfold reconcileDelete, ContainsString. fold label.
  destruct (decide (label ∈ cd_Finalizers cd)) as [Hin|Hnotin];
    [rewrite bool_decide_true by done|rewrite bool_decide_false by done; by left].
  destruct (handleDelete env cd w) as [e w1] eqn:Hhd.
  apply handleDelete_cds in Hhd as [Hc _].
  destruct e as [err|]; [left; simpl; congruence|].
  unfold DeepCopy.
  destruct (clientPatchCD env _ w1) as [e w2] eqn:Hpatch.
  apply clientPatchCD_effect in Hpatch as (_ & _ & _ & Hcd).
  destruct e; simpl.
  - left. congruence.
  - right. destruct Hcd as [_ Hcd]. split; [done|]. by rewrite Hcd, Hc.
Qed.

Lemma reconcileActive_cds env cd w :
  cds (reconcileActive env cd w).2 = cds w
  ∨ ∃ l, cds (reconcileActive env cd w).2 = <[cdKey cd := withFinalizers cd l]> (cds w).
Proof.
  unfold reconcileActive, addFinalizer, DeepCopy.
  destruct (negb _).
  - destruct (clientPatchCD env _ w) as [e w1] eqn:Hpatch.
    apply clientPatchCD_effect in Hpatch as (_ & _ & _ & Hcd).
    destruct e as [err|]; simpl; [left; congruence|].
    destruct (syncCertificateRequests_patches env
                (withFinalizers cd (cd_Finalizers cd ++ [CertmanOperatorFinalizerLabel env])) w1)
      as [Hc _].
    destruct (syncCertificateRequests env _ w1) as [[e cd1] w2]. cbn [fst snd] in Hc.
    destruct Hcd as [_ Hcd]. rewrite patched_kept in Hcd by apply snoc_not_nil.
    right. exists (cd_Finalizers cd ++ [CertmanOperatorFinalizerLabel env]).
    destruct e; simpl; by rewrite Hc, Hcd.
  - destruct (syncCertificateRequests_patches env cd w) as [Hc _].
    destruct (syncCertificateRequests env cd w) as [[e cd1] w2]. cbn [fst snd] in Hc.
    left. by destruct e.
Qed.

(** X6. Whatever a pass does, in a store that keeps every cluster
    resource under its own namespace and name it adds no cluster resource
    and leaves every cluster resource but the one of the request as it
    was.  The resource of the request keeps its spec, status, labels and
    annotations with at most its finalizers changed, or it leaves the
    store: that only when it is under deletion and the pass has removed
    its last finalizer.  In the deletion branch the requests are deleted
    by [handleDelete] as it is modelled above. *)
Theorem Reconcile_changes_finalizers_only env request w :
  wfCDs (cds w) →
  let r := Reconcile env request w in
  let label := CertmanOperatorFinalizerLabel env in
  ∀ k,
    (k ≠ request → cds r.2 !! k = cds w !! k)
    ∧ match cds w !! k with
      | None => cds r.2 !! k = None
      | Some cd =>
          (∃ l, cds r.2 !! k = Some (withFinalizers cd l))
          ∨ (cds r.2 !! k = None
             ∧ k = request
             ∧ IsZero (cd_DeletionTimestamp cd) = false
             ∧ label ∈ cd_Finalizers cd
             ∧ RemoveString (cd_Finalizers cd) label = [])
      end.
Proof.
  intros Hwf r label.
  assert (Hcases : cds r.2 = cds w
                   ∨ (∃ cd l, cds w !! request = Some cd
                              ∧ cds r.2 = <[request := withFinalizers cd l]> (cds w))
                   ∨ (∃ cd, cds w !! request = Some cd
                            ∧ IsZero (cd_DeletionTimestamp cd) = false
                            ∧ label ∈ cd_Finalizers cd
                            ∧ RemoveString (cd_Finalizers cd) label = []
                            ∧ cds r.2 = delete request (cds w))).
  { subst r. unfold Reconcile.
    destruct (clientGetCD env request w) as [[cd|err] w0] eqn:Hget.
    2:{ apply clientGetCD_reads in Hget as [(_ & Hc & _) _].
        left. by destruct (IsNotFound err). }
    apply clientGetCD_reads in Hget as [(_ & Hc & _) Hcd].
    specialize (Hcd cd eq_refl). pose proof (Hwf _ _ Hcd) as Hkey.
    destruct (mapIndex (cd_Labels cd) _) as [val ok].
    destruct (negb ok || negb (String.eqb val "true")); [by left|].
    destruct (mapIndex (cd_Annotations cd) _) as [val' ok'].
    destruct (ok' && String.eqb val' "true"); [by left|].
    destruct (negb (spec_Installed (cd_Spec cd))); [by left|].
    destruct (relocationLoop _); [|by left|by left].
    destruct (IsZero (cd_DeletionTimestamp cd)) eqn:Hzero; simpl.
    - destruct (reconcileActive_cds env cd w0) as [->|[l ->]]; [by left|].
      right. left. exists cd, l. by rewrite Hkey, Hc.
    - destruct (reconcileDelete_cds env cd w0) as [->|[Hin ->]]; [by left|].
      right. fold label in Hin |- *. unfold patched.
      change (cd_DeletionTimestamp (withFinalizers cd _)) with (cd_DeletionTimestamp cd).
      change (cdKey (withFinalizers cd _)) with (cdKey cd).
      rewrite Hzero, Hkey, Hc. simpl.
      destruct (decide (RemoveString (cd_Finalizers cd) label = [])) as [Hnil|Hnonnil].
      + rewrite bool_decide_true by done. right. by exists cd.
      + rewrite bool_decide_false by done. left. by eexists cd, _. }
  intros k. destruct Hcases as [->|[(cd & l & Hcd & ->)|(cd & Hcd & Hz & Hin & Hnil & ->)]].
  - split; [done|]. destruct (cds w !! k) as [cd|]; [|done].
    left. exists (cd_Finalizers cd). by rewrite withFinalizers_same.
  - split; [intros Hk; by rewrite lookup_insert_ne|].
    destruct (decide (k = request)) as [->|Hk].
    + rewrite Hcd, lookup_insert_eq. left. by exists l.
    + rewrite lookup_insert_ne by done. destruct (cds w !! k) as [cd0|]; [|done].
      left. exists (cd_Finalizers cd0). by rewrite withFinalizers_same.
  - split; [intros Hk; by rewrite lookup_delete_ne|].
    destruct (decide (k = request)) as [->|Hk].
    + rewrite Hcd, lookup_delete_eq. by right.
    + rewrite lookup_delete_ne by done. destruct (cds w !! k) as [cd0|]; [|done].
      left. exists (cd_Finalizers cd0). by rewrite withFinalizers_same.
Qed.

(** The cluster under deletion next to the cluster ns/bar: the first
    leaves the store with its last finalizer, the second stays as it
    is. *)
Lemma Reconcile_changes_finalizers_only_witness :
  let bar := Scenario.named "bar" Scenario.active in
  let w := setCDs (<[cdKey bar := bar]> (cds (Scenario.world Scenario.deleting [])))
             (Scenario.world Scenario.deleting []) in
  let r := Reconcile Scenario.env Scenario.request w in
  cds r.2 !! Scenario.request = None
  ∧ cds r.2 !! ("ns", "bar") = Some bar.
Proof.
  intros bar w r.
  assert (Hwf : wfCDs (cds w)).
  { intros k cd Hk. simpl in Hk. apply lookup_insert_Some in Hk as [[<- <-]|[_ Hk]]; [done|].
    apply lookup_singleton_Some in Hk as [<- <-]. done. }
  split; [vm_compute; reflexivity|].
  destruct (Reconcile_changes_finalizers_only Scenario.env Scenario.request w Hwf ("ns", "bar"))
    as [H _].
  fold r in H. rewrite H; [vm_compute; reflexivity|discriminate].
Defined.

(** ** The domains and the request of a bundle *)

Lemma getDomainsForCertBundle_sources env cb cd :
  getDomainsForCertBundle env cb cd
  = (if decide (spec_ServingCertificates_Default (cd_Spec cd) = cb_Name cb) then
       let api := "api." +:+ spec_ClusterName (cd_Spec cd) +:+ "." +:+
                  spec_BaseDomain (cd_Spec cd) in
       if negb (String.eqb (Getenv env "EXTRA_RECORD") EmptyString) then
         [api; Getenv env "EXTRA_RECORD" +:+ "." +:+ spec_ClusterName (cd_Spec cd) +:+ "." +:+
               spec_BaseDomain (cd_Spec cd)]
       else [api]
     else [])
    ++ (ac_Domain <$> filter (λ a, ac_Name a = cb_Name cb)
                        (spec_ServingCertificates_Additional (cd_Spec cd)))
    ++ ((λ i, if negb (strings.HasPrefix (ing_Domain i) "*.")
              then "*." +:+ ing_Domain i else ing_Domain i)
        <$> filter (λ i, ing_ServingCertificate i = cb_Name cb) (spec_Ingress (cd_Spec cd))).
Proof.
  unfold getDomainsForCertBundle.
  rewrite (fold_left_snoc_filter (λ i, ing_ServingCertificate i = cb_Name cb)
             (λ i, if negb (strings.HasPrefix (ing_Domain i) "*.")
                   then "*." +:+ ing_Domain i else ing_Domain i)).
  rewrite (fold_left_snoc_filter (λ a, ac_Name a = cb_Name cb) ac_Domain).
  rewrite <- app_assoc. by f_equal.
Qed.

Lemma filter_nil_Forall {A : Type} (P : A → Prop) `{∀ x, Decision (P x)} (l : list A) :
  filter P l = [] ↔ Forall (λ x, ¬ P x) l.
Proof.
  induction l as [|x l IH]; [by split; [constructor|]|].
  rewrite filter_cons. destruct (decide (P x)).
  - split; [done|]. by inversion 1.
  - rewrite IH. split; [by constructor|by inversion 1].
Qed.

(** X7. A bundle resolves to no domain exactly when none of the three
    sources names it: it is not the default control-plane bundle, no
    additional control-plane entry has its name and no ingress endpoint
    references it. *)
Theorem getDomainsForCertBundle_empty_iff env cb cd :
  getDomainsForCertBundle env cb cd = []
  ↔ spec_ServingCertificates_Default (cd_Spec cd) ≠ cb_Name cb
    ∧ Forall (λ a, ac_Name a ≠ cb_Name cb) (spec_ServingCertificates_Additional (cd_Spec cd))
    ∧ Forall (λ i, ing_ServingCertificate i ≠ cb_Name cb) (spec_Ingress (cd_Spec cd)).
Proof.
  rewrite getDomainsForCertBundle_sources.
  rewrite <- !(filter_nil_Forall (λ _, _ = cb_Name cb)).
  split.
  - intros H. apply app_eq_nil in H as [Hd H]. apply app_eq_nil in H as [Ha Hi].
    apply fmap_nil_inv in Ha. apply fmap_nil_inv in Hi.
    repeat split; [|done|done].
    intros Heq. rewrite decide_True in Hd by done. simpl in Hd. by destruct (negb _).
  - intros (Hd & -> & ->). by rewrite decide_False.
Qed.

Lemma HasPrefix_star_dot (s : string) : strings.HasPrefix ("*." +:+ s) "*." = true.
Proof. rewrite !app_String, app_Empty. by destruct s. Qed.

Lemma TrimPrefix_not (s p : string) :
  strings.HasPrefix s p = false → strings.TrimPrefix s p = s.
Proof. unfold strings.TrimPrefix. by intros ->. Qed.

(** X8. Every ingress endpoint that references a bundle is covered by a
    wildcard domain of the bundle: a resolved domain that starts with the
    wildcard prefix and is, behind that prefix, the domain of the endpoint
    behind its own wildcard prefix, if it has one.  The prefix is never put
    twice. *)
Theorem ingress_domain_wildcard env cb cd i :
  i ∈ spec_Ingress (cd_Spec cd) →
  ing_ServingCertificate i = cb_Name cb →
  ∃ d, d ∈ getDomainsForCertBundle env cb cd
       ∧ strings.HasPrefix d "*." = true
       ∧ strings.TrimPrefix d "*." = strings.TrimPrefix (ing_Domain i) "*.".
Proof.
  intros Hin Hname. rewrite getDomainsForCertBundle_sources.
  exists (if negb (strings.HasPrefix (ing_Domain i) "*.")
          then "*." +:+ ing_Domain i else ing_Domain i).
  split.
  - rewrite !elem_of_app. right. right.
    apply (list_elem_of_fmap_2 (λ i, if negb (strings.HasPrefix (ing_Domain i) "*.")
                                then "*." +:+ ing_Domain i else ing_Domain i)).
    by apply list_elem_of_filter.
  - destruct (strings.HasPrefix (ing_Domain i) "*.") eqn:Hp; simpl; [done|].
    split; [apply HasPrefix_star_dot|]. rewrite (TrimPrefix_app "*."). by rewrite TrimPrefix_not.
Qed.

Lemma ingress_domain_wildcard_witness :
  ∃ d, d ∈ getDomainsForCertBundle Scenario.env (Scenario.bundle "default" "default-secret")
             Scenario.active
       ∧ strings.HasPrefix d "*." = true
       ∧ strings.TrimPrefix d "*." = strings.TrimPrefix "apps.foo.example.com" "*.".
Proof.
  apply (ingress_domain_wildcard Scenario.env (Scenario.bundle "default" "default-secret")
           Scenario.active
           {| ing_Name := "default"; ing_Domain := "apps.foo.example.com";
              ing_ServingCertificate := "default" |}).
  - simpl. apply list_elem_of_here.
  - reflexivity.
Defined.

(** X9. The platform block of a request names one cloud at most, and
    when the cluster resource has more than one platform set the later
    assignment wins: Azure before AWS before GCP.  The other fields of the
    request do not depend on the platform. *)
Theorem createCertificateRequest_platform env certBundleName secretName domains cd
    emailAddress :
  let p := spec_Platform (cd_Spec cd) in
  let cr := createCertificateRequest env certBundleName secretName domains cd emailAddress in
  crs_Platform (cr_Spec cr)
  = match plat_Azure p, plat_AWS p, plat_GCP p with
    | Some azure, _, _ => onlyAzure azure
    | None, Some aws, _ => onlyAWS aws
    | None, None, Some gcp => onlyGCP gcp
    | None, None, None => noPlatform
    end
  ∧ withPlatform cr noPlatform
    = {| cr_Name := strings.ToLower (unicodeToLower env)
                      (cd_Name cd +:+ "-" +:+ certBundleName);
         cr_Namespace := cd_Namespace cd;
         cr_OwnerReferences := [];
         cr_Spec :=
           {| crs_ACMEDNSDomain := spec_BaseDomain (cd_Spec cd);
              crs_CertificateSecret :=
                {| ref_Kind := "secret"; ref_Namespace := cd_Namespace cd;
                   ref_Name := secretName |};
              crs_Platform := noPlatform;
              crs_DnsNames := domains;
              crs_Email := emailAddress;
              crs_APIURL := status_APIURL (cd_Status cd);
              crs_WebConsoleURL := status_WebConsoleURL (cd_Status cd) |};
         cr_Status_Issued := false |}.
Proof.
  unfold createCertificateRequest.
  destruct (plat_Azure _), (plat_AWS _), (plat_GCP _); split; reflexivity.
Qed.

(** The cluster on AWS and Azure gets the Azure block alone. *)
Lemma createCertificateRequest_platform_witness :
  crs_Platform
    (cr_Spec (createCertificateRequest Scenario.env "default" "default-secret"
                ["api.foo.example.com"] Cases.twoClouds "sre@example.com"))
  = onlyAzure {| azure_CredentialsSecretRef_Name := "azure-creds";
                 azure_BaseDomainResourceGroupName := "rg" |}.
Proof.
  destruct (createCertificateRequest_platform Scenario.env "default" "default-secret"
              ["api.foo.example.com"] Cases.twoClouds "sre@example.com") as [H _].
  exact H.
Defined.

Lemma toLowerByte_idemp (c : ascii) :
  strings.toLowerByte (strings.toLowerByte c) = strings.toLowerByte c.
Proof. destruct c as [[] [] [] [] [] [] [] []]; reflexivity. Qed.

Lemma lowerASCII_idemp (s : string) :
  strings.lowerASCII (strings.lowerASCII s) = strings.lowerASCII s.
Proof. induction s as [|c s IH]; simpl; [done|]. by rewrite toLowerByte_idemp, IH. Qed.

Lemma toLowerByte_ASCII (c : ascii) :
  (N_of_ascii (strings.toLowerByte c) <? 128)%N = (N_of_ascii c <? 128)%N.
Proof. destruct c as [[] [] [] [] [] [] [] []]; reflexivity. Qed.

Lemma isASCII_lowerASCII (s : string) :
  strings.isASCII (strings.lowerASCII s) = strings.isASCII s.
Proof. induction s as [|c s IH]; simpl; [done|]. by rewrite toLowerByte_ASCII, IH. Qed.

Lemma string_app_inj (a x y : string) : a +:+ x = a +:+ y → x = y.
Proof.
  induction a as [|c a IH]; [by rewrite !app_Empty|].
  rewrite !app_String. intros [= H]. by apply IH.
Qed.

(** X10. For a cluster resource and bundles with ASCII names, where
    [strings.ToLower] works byte by byte: the name of a request is in
    lower case, and the requests of two bundles of one cluster resource are
    stored under the same namespace and name exactly when the names of the
    bundles are equal up to the case of their letters; the secret, the
    domains and the email address play no part. *)
Theorem createCertificateRequest_name_collision env cd b1 b2 s1 s2 d1 d2 e1 e2 :
  strings.isASCII (cd_Name cd) = true →
  strings.isASCII b1 = true →
  strings.isASCII b2 = true →
  let lower := strings.ToLower (unicodeToLower env) in
  let cr1 := createCertificateRequest env b1 s1 d1 cd e1 in
  let cr2 := createCertificateRequest env b2 s2 d2 cd e2 in
  lower (cr_Name cr1) = cr_Name cr1
  ∧ (crKey cr1 = crKey cr2 ↔ lower b1 = lower b2).
Proof.
  intros Hcd Hb1 Hb2 lower cr1 cr2. unfold crKey.
  destruct (createCertificateRequest_meta env b1 s1 d1 cd e1) as [Hn1 Hns1].
  destruct (createCertificateRequest_meta env b2 s2 d2 cd e2) as [Hn2 Hns2].
  fold cr1 in Hn1, Hns1. fold cr2 in Hn2, Hns2.
  rewrite Hn1, Hn2, Hns1, Hns2. subst lower.
  rewrite !(ToLower_ASCII _ (_ +:+ _)) by (rewrite !isASCII_app, ?Hcd, ?Hb1, ?Hb2; done).
  rewrite (ToLower_ASCII _ b1), (ToLower_ASCII _ b2) by done.
  rewrite ToLower_ASCII
    by (rewrite isASCII_lowerASCII, !isASCII_app, ?Hcd, ?Hb1; done).
  split; [apply lowerASCII_idemp|].
  rewrite <- !string_app_assoc, !lowerASCII_app. split.
  - intros [= H]. by apply string_app_inj in H.
  - by intros ->.
Qed.

(** The bundles Default and default of the cluster foo share the name
    foo-default. *)
Lemma createCertificateRequest_name_collision_witness :
  let cr1 := createCertificateRequest Scenario.env "Default" "secret-1" ["a.example.com"]
               Scenario.active "sre@example.com" in
  let cr2 := createCertificateRequest Scenario.env "default" "secret-2" ["b.example.com"]
               Scenario.active "sre@example.com" in
  crKey cr1 = crKey cr2 ∧ cr_Name cr1 = "foo-default".
Proof.
  intros cr1 cr2. split; [|reflexivity].
  destruct (createCertificateRequest_name_collision Scenario.env Scenario.active
              "Default" "default" "secret-1" "secret-2" ["a.example.com"] ["b.example.com"]
              "sre@example.com" "sre@example.com" eq_refl eq_refl eq_refl) as [_ H].
  apply H. reflexivity.
Defined.

(** ** The calls of a sync *)

Lemma loopFailures_app t1 t2 : loopFailures (t1 ++ t2) = loopFailures t1 ++ loopFailures t2.
Proof. apply omap_app. Qed.

Lemma planWrite_mono cd ds1 st1 ds st c :
  planWrite cd ds1 st1 c →
  (∀ d, d ∈ ds1 → d ∈ ds) →
  (∀ x, x ∈ st1 → x ∈ st ∧ cr_Name x ∉ cr_Name <$> ds) →
  planWrite cd ds st c.
Proof.
  intros Hc Hds Hst. destruct c; simpl in *; try done.
  - destruct Hc as (d & Hd & ->). eauto.
  - destruct Hc as (d & Hd & Heq). eauto.
  - destruct Hc as [Hin _]. by apply Hst.
Qed.

Lemma syncOne_trace env cd d w round w' :
  syncOne env cd d w = (round, w') →
  ∃ t, trace w' = trace w ++ t
    ∧ loopFailures t = option_list (round_err round)
    ∧ callsWhere isGetCR t = [CallGetCR (cr_Namespace d) (cr_Name d)]
    ∧ Forall (planWrite cd [d] []) (calls t)
    ∧ (1 ≤ length (option_list (round_status round)) + length (option_list (round_err round)))%nat.
Proof.
  intros Hrun. unfold syncOne in Hrun. unfold_ops.
  branches; faults; simpl;
    (eexists; split; [rewrite <- ?app_assoc; reflexivity|]);
    simpl; repeat split; try lia;
    repeat (constructor; simpl; try done);
    try (eexists; split; [apply list_elem_of_here|done]).
Qed.

Lemma syncLoop_trace env cd ds sl errs w sl' errs' w' :
  syncLoop env cd ds sl errs w = (sl', errs', w') →
  ∃ t, trace w' = trace w ++ t
    ∧ errs' = errs ++ loopFailures t
    ∧ callsWhere isGetCR t = (λ d, CallGetCR (cr_Namespace d) (cr_Name d)) <$> ds
    ∧ Forall (planWrite cd ds []) (calls t)
    ∧ (length sl' ≤ length sl + length ds
       ≤ length sl' + length (loopFailures t))%nat.
Proof.
  revert sl errs w. induction ds as [|d ds IH]; intros sl errs w Hrun; simpl in Hrun.
  - simplify_eq. exists []. rewrite !app_nil_r. repeat split; simpl; try lia. constructor.
  - destruct (syncOne env cd d w) as [round w1] eqn:Hone.
    apply syncOne_trace in Hone as (t1 & Ht1 & Hf1 & Hg1 & Hw1 & Hlen1).
    apply IH in Hrun as (t2 & Ht2 & Hf2 & Hg2 & Hw2 & Hlen2).
    exists (t1 ++ t2). rewrite Ht2, Ht1, loopFailures_app, callsWhere_app, calls_app, Hf1, Hg1, Hg2.
    rewrite List.length_app in Hlen2.
    split; [by rewrite app_assoc|]. split; [by rewrite Hf2, <- app_assoc|].
    split; [done|]. split.
    + apply Forall_app. split.
      * eapply Forall_impl; [exact Hw1|]. intros c Hc.
        eapply planWrite_mono; [exact Hc| |by intros ? ?%elem_of_nil].
        intros d' ->%list_elem_of_singleton. apply list_elem_of_here.
      * eapply Forall_impl; [exact Hw2|]. intros c Hc.
        eapply planWrite_mono; [exact Hc| |by intros ? ?%elem_of_nil].
        intros d' Hd'. by apply list_elem_of_further.
    + rewrite List.length_app. destruct (round_status round), (round_err round); simpl in *; lia.
Qed.

Lemma deleteLoop_trace env l w e w' :
  deleteLoop env l w = (e, w') →
  ∃ t, trace w' = trace w ++ t
    ∧ loopFailures t = []
    ∧ callsWhere isGetCR t = []
    ∧ Forall (λ c, match c with
                   | CallDeleteCR cr => cr ∈ l
                   | CallCreateCR _ | CallUpdateCR _ | CallPatchCD _ => False
                   | _ => True
                   end) (calls t).
Proof.
  revert w. induction l as [|c l IH]; intros w Hrun; simpl in Hrun.
  - simplify_eq. exists []. rewrite app_nil_r. repeat split. constructor.
  - destruct (clientDeleteCR env c w) as [e1 w1] eqn:Hdel.
    assert (Hone : ∃ e0, trace w1 = trace w ++ [Called (CallDeleteCR c) e0]).
    { unfold clientDeleteCR, faultNow in Hdel. branches; by eexists. }
    destruct Hone as [e0 Ht1]. destruct e1 as [err|].
    + simplify_eq. eexists. simpl. rewrite Ht1, <- app_assoc. split; [reflexivity|].
      repeat split. simpl. repeat constructor.
    + apply IH in Hrun as (t2 & Ht2 & Hf2 & Hg2 & Hw2).
      exists (Called (CallDeleteCR c) e0 :: t2).
      rewrite Ht2, Ht1, <- app_assoc. split; [done|].
      change (Called (CallDeleteCR c) e0 :: t2) with ([Called (CallDeleteCR c) e0] ++ t2).
      rewrite loopFailures_app, callsWhere_app, calls_app, Hf2, Hg2.
      repeat split. apply Forall_app. split; [repeat constructor|].
      eapply Forall_impl; [exact Hw2|]. intros [] Hc; try done.
      by apply list_elem_of_further.
Qed.

Lemma getCurrentCertificateRequests_trace env cd w r w' :
  getCurrentCertificateRequests env cd w = (r, w') →
  ∃ t, trace w' = trace w ++ t
    ∧ loopFailures t = [] ∧ callsWhere isGetCR t = [] ∧ callsWhere isDelete t = []
    ∧ ∀ ds st, Forall (planWrite cd ds st) (calls t).
Proof.
  unfold getCurrentCertificateRequests, clientListCR, faultNow. intros Hrun.
  branches; faults; simpl;
    (eexists; split; [rewrite <- ?app_assoc; reflexivity|]);
    repeat split; intros; repeat constructor.
Qed.

Lemma desiredLoop_trace env cd bundles acc w r w' :
  desiredLoop env cd bundles acc w = (r, w') →
  ∃ t, trace w' = trace w ++ t
    ∧ loopFailures t = [] ∧ callsWhere isGetCR t = [] ∧ callsWhere isDelete t = []
    ∧ ∀ ds st, Forall (planWrite cd ds st) (calls t).
Proof.
  revert acc w. induction bundles as [|cb bundles IH]; intros acc w Hrun; simpl in Hrun.
  - simplify_eq. exists []. rewrite app_nil_r. repeat split. intros; constructor.
  - unfold GetDefaultNotificationEmailAddress, faultNow in Hrun.
    destruct (cb_Generate cb); [|by eapply IH].
    destruct (fault env (clock w) CallGetEmail) eqn:Hf; simpl in Hrun.
    { simplify_eq. simpl. eexists. split; [rewrite <- app_assoc; reflexivity|].
      repeat split. intros; repeat constructor. }
    destruct (0 <? length _)%nat;
      apply IH in Hrun as (t2 & Ht2 & Hf2 & Hg2 & Hd2 & Hw2); simpl in Ht2;
      rewrite <- ?app_assoc in Ht2; (eexists; split; [exact Ht2|]);
      rewrite !loopFailures_app, !callsWhere_app, Hf2, Hg2, Hd2;
      repeat split; intros; rewrite !calls_app; repeat (apply Forall_app; split);
      try apply Hw2; repeat constructor.
Qed.

Lemma planWrite_no_delete cd ds (l : list Call) :
  Forall (planWrite cd ds []) l → List.filter isDelete l = [].
Proof.
  induction 1 as [|c l Hc _ IH]; [done|]. simpl.
  destruct c; simpl in *; try done. destruct Hc as [[]%elem_of_nil _].
Qed.

Lemma applyDesired_trace env cd currentCRs desiredCRs w :
  let r := applyDesired env cd currentCRs desiredCRs w in
  ∃ t, trace r.2 = trace w ++ t
    ∧ Forall (planWrite cd desiredCRs currentCRs) (calls t)
    ∧ (loopFailures t ≠ [] →
       r.1.1 = Some (ErrOther "met multiple errors when sync certificaterequests")
       ∧ callsWhere isDelete t = []).
Proof.
  unfold applyDesired.
  destruct (syncLoop env cd desiredCRs [] [] w) as [[sl errs] w1] eqn:Hloop.
  apply syncLoop_trace in Hloop as (t1 & Ht1 & Herrs & _ & Hw1 & _). simpl in Herrs.
  assert (Hw1' : Forall (planWrite cd desiredCRs currentCRs) (calls t1)).
  { eapply Forall_impl; [exact Hw1|]. intros c Hc.
    eapply planWrite_mono; [exact Hc|done|by intros ? ?%elem_of_nil]. }
  destruct (0 <? length errs)%nat eqn:Hlen.
  { exists t1. simpl. repeat split; try done. by eapply planWrite_no_delete. }
  apply Nat.ltb_ge in Hlen. assert (errs = []) as -> by (destruct errs; [done|simpl in Hlen; lia]).
  destruct (deleteLoop env _ w1) as [e w2] eqn:Hdel.
  apply deleteLoop_trace in Hdel as (t2 & Ht2 & Hf2 & _ & Hw2).
  assert (Hall : ∃ t, trace w2 = trace w ++ t
                   ∧ Forall (planWrite cd desiredCRs currentCRs) (calls t)
                   ∧ loopFailures t = []).
  { exists (t1 ++ t2). rewrite Ht2, Ht1, <- app_assoc, loopFailures_app, <- Herrs, Hf2, calls_app.
    repeat split. apply Forall_app. split; [done|].
    eapply Forall_impl; [exact Hw2|]. intros [] Hc; try done. simpl.
    rewrite deleteSet_filter in Hc. by apply list_elem_of_filter in Hc as [? ?]. }
  destruct Hall as (t & Ht & Hw & Hf).
  destruct e; simpl.
  - exists t. by rewrite Hf.
  - unfold DeepEqual, DeepCopy. rewrite bool_decide_true by done. simpl.
    exists t. by rewrite Hf.
Qed.

Lemma syncCertificateRequests_trace env cd w :
  let r := syncCertificateRequests env cd w in
  ∃ t, trace r.2 = trace w ++ t
    ∧ Forall (planWrite cd (desiredOf env cd) (listed (cd_Namespace cd) (crs w))) (calls t)
    ∧ (loopFailures t ≠ [] →
       r.1.1 = Some (ErrOther "met multiple errors when sync certificaterequests")
       ∧ callsWhere isDelete t = []).
Proof.
  unfold syncCertificateRequests.
  destruct (getCurrentCertificateRequests env cd w) as [r w1] eqn:Hget.
  destruct (getCurrentCertificateRequests_reads _ _ _ _ _ Hget) as [Hro Hcur].
  apply getCurrentCertificateRequests_trace in Hget as (t0 & Ht0 & Hf0 & _ & Hd0 & Hw0).
  destruct r as [currentCRs|err].
  2:{ simpl. eexists. rewrite Ht0, <- app_assoc. split; [reflexivity|].
      rewrite loopFailures_app, Hf0, calls_app. split; [|done].
      apply Forall_app. split; [apply Hw0|constructor]. }
  rewrite (Hcur _ eq_refl).
  destruct (desiredLoop env cd _ [] w1) as [r w2] eqn:Hdes.
  destruct (desiredLoop_reads _ _ _ _ _ _ _ Hdes) as [Hro2 Hds].
  apply desiredLoop_trace in Hdes as (t1 & Ht1 & Hf1 & _ & Hd1 & Hw1).
  destruct r as [desiredCRs|err].
  2:{ simpl. exists (t0 ++ t1). rewrite Ht1, Ht0, <- app_assoc. split; [done|].
      rewrite loopFailures_app, Hf0, Hf1, calls_app. split; [|done].
      apply Forall_app. split; [apply Hw0|apply Hw1]. }
  rewrite (Hds _ eq_refl). simpl. fold (desiredOf env cd).
  destruct (applyDesired_trace env cd (listed (cd_Namespace cd) (crs w)) (desiredOf env cd) w2)
    as (t2 & Ht2 & Hw2 & Hfail).
  exists (t0 ++ t1 ++ t2). rewrite Ht2, Ht1, Ht0, <- !app_assoc. split; [done|].
  rewrite !loopFailures_app, !callsWhere_app, !calls_app, Hf0, Hf1, Hd0, Hd1. simpl.
  split; [|done]. repeat (apply Forall_app; split); [apply Hw0|apply Hw1|done].
Qed.

(** X11. The create/update loop looks up every desired request once, in
    the order of the list, whatever fails on the way: a failure for one
    request does not end the loop.  The errors it collects are exactly the
    failures of its calls, and every request leaves a status entry or an
    error behind. *)
Theorem syncLoop_visits_all env cd desiredCRs w :
  let r := syncLoop env cd desiredCRs [] [] w in
  ∃ t, trace r.2 = trace w ++ t
    ∧ callsWhere isGetCR t = (λ d, CallGetCR (cr_Namespace d) (cr_Name d)) <$> desiredCRs
    ∧ r.1.2 = loopFailures t
    ∧ (length r.1.1 ≤ length desiredCRs ≤ length r.1.1 + length r.1.2)%nat.
Proof.
  destruct (syncLoop env cd desiredCRs [] [] w) as [[sl errs] w1] eqn:Hloop.
  apply syncLoop_trace in Hloop as (t & Ht & Herrs & Hg & _ & Hlen). simpl in *.
  exists t. by rewrite Herrs.
Qed.

(** X12. When a call of the create/update loop fails, the sync returns
    the one error that stands for all of them and deletes nothing: the
    requests that are no longer wanted are kept until a later pass. *)
Theorem sync_failure_skips_deletes env cd w :
  let r := syncCertificateRequests env cd w in
  ∃ t, trace r.2 = trace w ++ t
    ∧ (loopFailures t ≠ [] →
       r.1.1 = Some (ErrOther "met multiple errors when sync certificaterequests")
       ∧ callsWhere isDelete t = []).
Proof.
  destruct (syncCertificateRequests_trace env cd w) as (t & Ht & _ & Hfail). by exists t.
Qed.

(** The request of the default bundle is stored with another secret and
    updates are refused; the stale request stays. *)
Lemma sync_failure_skips_deletes_witness :
  let w := Scenario.world Scenario.active
             [Scenario.stored "default" "old-secret" Scenario.active;
              Scenario.stored "stale" "stale-secret" Scenario.active] in
  let r := syncCertificateRequests Cases.envNoUpdate Scenario.active w in
  r.1.1 = Some (ErrOther "met multiple errors when sync certificaterequests")
  ∧ callsWhere isDelete (trace r.2) = []
  ∧ is_Some (crs r.2 !! ("ns", "foo-stale")).
Proof.
  intros w r.
  destruct (sync_failure_skips_deletes Cases.envNoUpdate Scenario.active w) as (t & Ht & H).
  change (trace w ++ t) with t in Ht. fold r in Ht. rewrite <- Ht in H.
  destruct H as [H1 H2]; [vm_compute; discriminate|].
  split; [exact H1|]. split; [exact H2|]. vm_compute. eexists. reflexivity.
Defined.

(** X13. Every call a sync makes is covered by its plan: a request is
    created only as a desired request with its controller reference to the
    cluster resource, an update carries the spec of a desired request, a
    delete is aimed only at a request that was listed at the start of the
    sync and whose name no desired request has, and no cluster resource is
    patched.  This holds whatever calls fail. *)
Theorem sync_calls_within_plan env cd w :
  let r := syncCertificateRequests env cd w in
  ∃ t, trace r.2 = trace w ++ t
    ∧ Forall (planWrite cd (desiredOf env cd) (listed (cd_Namespace cd) (crs w))) (calls t).
Proof.
  destruct (syncCertificateRequests_trace env cd w) as (t & Ht & Hw & _). by exists t.
Qed.

(** X14. The delete loop stops at the first delete that fails: the
    requests before it are gone, every other request of the store is as it
    was, no call is made for the requests after the failing one, and the
    error is logged and returned.  Without a failure there is one delete
    call for every request of the list, in order. *)
Theorem deleteLoop_stops_at_failure env deleteCRs w :
  let r := deleteLoop env deleteCRs w in
  match r.1 with
  | None => crWrites (trace r.2) = crWrites (trace w) ++ (CallDeleteCR <$> deleteCRs)
  | Some err =>
      ∃ l1 c l2, deleteCRs = l1 ++ c :: l2
        ∧ crWrites (trace r.2) = crWrites (trace w) ++ (CallDeleteCR <$> l1 ++ [c])
        ∧ errorLogs (trace r.2) = errorLogs (trace w) ++ [err]
        ∧ (∀ k, k ∈ crKey <$> l1 → crs r.2 !! k = None)
        ∧ (∀ k, k ∉ crKey <$> l1 → crs r.2 !! k = crs w !! k)
  end.
Proof.
  revert w. induction deleteCRs as [|c l IH]; intros w; simpl.
  { by rewrite app_nil_r. }
  destruct (clientDeleteCR env c w) as [e w1] eqn:Hdel.
  assert (Hone : crWrites (trace w1) = crWrites (trace w) ++ [CallDeleteCR c]
                 ∧ errorLogs (trace w1) = errorLogs (trace w)
                 ∧ match e with
                   | Some _ => crs w1 = crs w
                   | None => crs w1 = delete (crKey c) (crs w)
                   end).
  { unfold clientDeleteCR, faultNow in Hdel. branches; views; done. }
  destruct Hone as (Hw1 & Hl1 & Hc1). destruct e as [err|]; simpl.
  - exists [], c, l. simpl. views. rewrite Hw1, Hl1, Hc1. repeat split; try done.
    by intros k ?%elem_of_nil.
  - specialize (IH w1). simpl in IH. destruct (deleteLoop env l w1) as [e2 w2]. simpl in *.
    destruct e2 as [err|].
    + destruct IH as (l1 & c' & l2 & -> & Hw2 & Hl2 & Hgone & Hkept).
      exists (c :: l1), c', l2. rewrite Hw2, Hl2, Hw1, Hl1, <- app_assoc.
      repeat split; try done.
      * intros k Hk. rewrite fmap_cons in Hk.
        destruct (decide (k ∈ crKey <$> l1)) as [Hin|Hnotin]; [by apply Hgone|].
        apply elem_of_cons in Hk as [->|Hk]; [|done].
        rewrite (Hkept _ Hnotin), Hc1. apply lookup_delete_eq.
      * intros k Hk. rewrite fmap_cons in Hk. apply not_elem_of_cons in Hk as [Hne Hk].
        rewrite (Hkept _ Hk), Hc1. by apply lookup_delete_ne.
    + by rewrite IH, Hw1, <- app_assoc.
Qed.

(** Three requests to delete, the second delete is refused. *)
Lemma deleteLoop_stops_at_failure_witness :
  let l := [Scenario.stored "default" "default-secret" Scenario.active;
            Scenario.stored "extra" "extra-secret" Scenario.active;
            Scenario.stored "stale" "stale-secret" Scenario.active] in
  let w := Scenario.world Scenario.active l in
  (deleteLoop Cases.envNoSecondDelete l w).1 = Some (ErrOther "timeout")
  ∧ length (crWrites (trace (deleteLoop Cases.envNoSecondDelete l w).2)) = 2%nat
  ∧ ∃ l1 c l2,
      l = l1 ++ c :: l2
      ∧ crWrites (trace (deleteLoop Cases.envNoSecondDelete l w).2)
        = crWrites (trace w) ++ (CallDeleteCR <$> l1 ++ [c]).
Proof.
  intros l w.
  assert (Hr : (deleteLoop Cases.envNoSecondDelete l w).1 = Some (ErrOther "timeout"))
    by (vm_compute; reflexivity).
  split; [exact Hr|]. split; [vm_compute; reflexivity|].
  pose proof (deleteLoop_stops_at_failure Cases.envNoSecondDelete l w) as H.
  cbv zeta in H. rewrite Hr in H. destruct H as (l1 & c & l2 & Hl & Hw & _).
  by exists l1, c, l2.
Defined.

(** ** The store after a sync *)

Lemma applyDesired_frame env cd currentCRs desiredCRs w :
  wfStore (crs w) →
  let r := applyDesired env cd currentCRs desiredCRs w in
  wfStore (crs r.2)
  ∧ ∀ k, k ∉ crKey <$> desiredCRs → k ∉ crKey <$> currentCRs → crs r.2 !! k = crs w !! k.
Proof.
  intros Hwf. unfold applyDesired.
  destruct (syncLoop env cd desiredCRs [] [] w) as [[sl errs] w1] eqn:Hloop.
  apply syncLoop_frame in Hloop as (_ & _ & Hwf1 & Hk1); [|done].
  destruct (0 <? length errs)%nat; [simpl; split; [done|]; intros; by apply Hk1|].
  destruct (deleteLoop env _ w1) as [e w2] eqn:Hdel.
  apply deleteLoop_frame in Hdel as (_ & _ & Hwf2 & Hk2).
  assert (Hframe : ∀ k, k ∉ crKey <$> desiredCRs → k ∉ crKey <$> currentCRs →
                        crs w2 !! k = crs w !! k).
  { intros k Hd Hc. rewrite Hk2, Hk1; [done..|].
    rewrite deleteSet_filter. intros (c & -> & Hin)%list_elem_of_fmap.
    apply list_elem_of_filter in Hin as [_ Hin]. apply Hc. by apply list_elem_of_fmap_2. }
  destruct e; simpl; [by split; [apply Hwf2|]|].
  unfold DeepEqual, DeepCopy. rewrite bool_decide_true by done. simpl.
  by split; [apply Hwf2|].
Qed.

(** X15. In a store that keeps every request under its own namespace and
    name, a sync stays inside the namespace of the cluster resource: the
    requests of every other namespace are as they were, whatever fails, and
    the store still keeps every request under its own namespace and
    name. *)
Theorem sync_confined_to_namespace env cd w :
  wfStore (crs w) →
  let r := syncCertificateRequests env cd w in
  wfStore (crs r.2) ∧ ∀ k, k.1 ≠ cd_Namespace cd → crs r.2 !! k = crs w !! k.
Proof.
  intros Hwf. unfold syncCertificateRequests.
  destruct (getCurrentCertificateRequests env cd w) as [r w1] eqn:Hget.
  apply getCurrentCertificateRequests_reads in Hget as [(Hc1 & _) Hcur].
  destruct r as [currentCRs|err]; [|simpl; by rewrite Hc1].
  rewrite (Hcur _ eq_refl).
  destruct (desiredLoop env cd _ [] w1) as [r w2] eqn:Hdes.
  apply desiredLoop_reads in Hdes as [(Hc2 & _) Hds].
  destruct r as [desiredCRs|err]; [|simpl; by rewrite Hc2, Hc1].
  rewrite (Hds _ eq_refl). simpl.
  assert (Hwf2 : wfStore (crs w2)) by by rewrite Hc2, Hc1.
  destruct (applyDesired_frame env cd (listed (cd_Namespace cd) (crs w))
              (desiredFrom env cd (spec_CertificateBundles (cd_Spec cd))) w2 Hwf2) as [Hwf3 Hk].
  split; [done|]. intros k Hns. rewrite Hk, Hc2, Hc1; [done| |].
  - intros (d & -> & Hin)%list_elem_of_fmap.
    pose proof (desiredFrom_namespace env cd (spec_CertificateBundles (cd_Spec cd))) as Hall.
    rewrite Forall_forall in Hall. by apply Hns, Hall.
  - intros (c & -> & Hin)%list_elem_of_fmap.
    apply elem_of_listed in Hin as (_ & _ & Hin). by apply Hns.
Qed.

(** A request of another namespace with the name of a stale request. *)
Lemma sync_confined_to_namespace_witness :
  let w := Scenario.world Scenario.active
             [Cases.foreign; Scenario.stored "stale" "stale-secret" Scenario.active] in
  let r := syncCertificateRequests Scenario.env Scenario.active w in
  crs r.2 !! ("other", "bar-default") = Some Cases.foreign
  ∧ crs r.2 !! ("ns", "foo-stale") = None.
Proof.
  intros w r.
  destruct (sync_confined_to_namespace Scenario.env Scenario.active w (wfStore_world _ _))
    as [_ H].
  split; [|vm_compute; reflexivity].
  fold r in H. rewrite H; [vm_compute; reflexivity|]. simpl. discriminate.
Defined.

(** X16. A bundle that is not to be generated plays no part in a sync:
    the loop over the bundles gives the same desired requests, makes the
    same calls and logs the same errors as the loop over the
    generate-enabled bundles alone. *)
Theorem desiredLoop_skips_disabled env cd bundles desiredCRs w :
  desiredLoop env cd bundles desiredCRs w
  = desiredLoop env cd (filter (λ cb, cb_Generate cb = true) bundles) desiredCRs w.
Proof.
  revert desiredCRs w. induction bundles as [|cb bundles IH]; intros desiredCRs w; [done|].
  rewrite filter_cons. simpl. destruct (cb_Generate cb) eqn:Hgen; simpl.
  - rewrite Hgen. destruct (GetDefaultNotificationEmailAddress env w) as [[email|err] w1]; [|done].
    destruct (0 <? length _)%nat; apply IH.
  - destruct (decide (false = true)); [done|]. apply IH.
Qed.

(** The cluster whose bundle extra is switched off. *)
Lemma desiredLoop_skips_disabled_witness :
  let w := Scenario.world Cases.mixed [] in
  desiredLoop Scenario.env Cases.mixed (spec_CertificateBundles (cd_Spec Cases.mixed)) [] w
  = desiredLoop Scenario.env Cases.mixed [Scenario.bundle "default" "default-secret"] [] w.
Proof.
  intros w.
  exact (desiredLoop_skips_disabled Scenario.env Cases.mixed
           (spec_CertificateBundles (cd_Spec Cases.mixed)) [] w).
Defined.

Lemma syncCertificateRequests_noFaults env cd w :
  noFaults env → wfStore (crs w) → (syncCertificateRequests env cd w).1.1 = None.
Proof.
  intros Hnf Hwf. unfold syncCertificateRequests.
  destruct (getCurrentCertificateRequests_noFaults env cd w Hnf) as (w1 & Hget & _).
  rewrite Hget.
  apply getCurrentCertificateRequests_reads in Hget as [(Hc1 & _) _].
  destruct (desiredLoop_noFaults env cd (spec_CertificateBundles (cd_Spec cd)) [] w1 Hnf)
    as (w2 & Hdes & _).
  rewrite Hdes.
  apply desiredLoop_reads in Hdes as [(Hc2 & _) _].
  assert (Hwf2 : wfStore (crs w2)) by by rewrite Hc2, Hc1.
  destruct (applyDesired_noFaults env cd
              ([] ++ desiredFrom env cd (spec_CertificateBundles (cd_Spec cd))) w2 Hnf Hwf2)
    as (sl & w3 & w4 & _ & Happ & _).
  rewrite Hc2, Hc1 in Happ. by rewrite Happ.
Qed.

(** X17. In a store that keeps every request under its own namespace and
    name, a sync whose calls do not fail, for desired requests of pairwise
    distinct names, returns no error and leaves the namespace of the
    cluster resource with the desired requests and nothing else: every
    desired request is stored with its spec, and every stored request of
    the namespace has the name of a desired one. *)
Theorem sync_converges env cd w :
  noFaults env → wfStore (crs w) → NoDup (cr_Name <$> desiredOf env cd) →
  let r := syncCertificateRequests env cd w in
  r.1.1 = None
  ∧ (∀ d, d ∈ desiredOf env cd → ∃ c, crs r.2 !! crKey d = Some c ∧ cr_Spec c = cr_Spec d)
  ∧ (∀ c, c ∈ listed (cd_Namespace cd) (crs r.2) → cr_Name c ∈ cr_Name <$> desiredOf env cd).
Proof.
  intros Hnf Hwf Hnd r.
  pose proof (syncCertificateRequests_noFaults env cd w Hnf Hwf) as Hnone. fold r in Hnone.
  split; [done|].
  destruct r as [[e cd1] w1] eqn:Hr. simpl in Hnone. subst e.
  destruct (syncCertificateRequests_success env cd w cd1 w1 Hwf Hnd Hr) as (_ & _ & H1 & H2).
  by split.
Qed.

(** The default request is missing and a stale request is stored. *)
Lemma sync_converges_witness :
  let w := Scenario.world Scenario.active
             [Scenario.stored "stale" "stale-secret" Scenario.active] in
  let r := syncCertificateRequests Scenario.env Scenario.active w in
  r.1.1 = None
  ∧ ∀ c, c ∈ listed "ns" (crs r.2) → cr_Name c ∈ ["foo-default"].
Proof.
  intros w r.
  destruct (sync_converges Scenario.env Scenario.active w) as (H1 & _ & H3).
  - intros n c. reflexivity.
  - apply wfStore_world.
  - apply (bool_decide_unpack _). vm_compute. exact I.
  - split; [exact H1|exact H3].
Defined.

(** X18. When the list call of a sync fails, the sync returns its error
    with nothing else done: no email lookup, no call on a request, the
    store and the cluster resource in hand as they were.  The error is
    logged twice, by the listing and by the sync. *)
Theorem sync_list_failure env cd w msg :
  fault env (clock w) (CallListCR (cd_Namespace cd)) = Some msg →
  let r := syncCertificateRequests env cd w in
  r.1 = (Some (ErrOther msg), cd)
  ∧ trace r.2
    = trace w ++ [Called (CallListCR (cd_Namespace cd)) (Some (ErrOther msg));
                  LoggedError (ErrOther msg) "error listing current CertificateRequests";
                  LoggedError (ErrOther msg) msg]
  ∧ crs r.2 = crs w ∧ cds r.2 = cds w.
Proof.
  intros Hf. unfold syncCertificateRequests, getCurrentCertificateRequests, clientListCR, faultNow.
  rewrite Hf. simpl. by rewrite <- !app_assoc.
Qed.

Lemma sync_list_failure_witness :
  let w := Scenario.world Scenario.active [] in
  let r := syncCertificateRequests Cases.envDown Scenario.active w in
  r.1.1 = Some (ErrOther "connection refused") ∧ calls (trace r.2) = [CallListCR "ns"].
Proof.
  intros w r.
  destruct (sync_list_failure Cases.envDown Scenario.active w "connection refused" eq_refl)
    as (H1 & H2 & _).
  fold r in H1, H2. by rewrite H1, H2.
Defined.

(** ** The whole pass *)

Lemma desiredOf_withFinalizers env cd l :
  desiredOf env (withFinalizers cd l) = desiredOf env cd.
Proof. reflexivity. Qed.

Lemma reconcileActive_with_finalizer env cd w :
  CertmanOperatorFinalizerLabel env ∈ cd_Finalizers cd →
  let s := (syncCertificateRequests env cd w).2 in
  let r := (reconcileActive env cd w).2 in
  crs r = crs s ∧ cds r = cds s
  ∧ crWrites (trace r) = crWrites (trace s) ∧ patches (trace r) = patches (trace s).
Proof.
  intros Hin. unfold reconcileActive, addFinalizer, ContainsString.
  rewrite bool_decide_true by done. simpl.
  destruct (syncCertificateRequests env cd w) as [[e cd1] w1].
  destruct e; simpl; views; done.
Qed.

Lemma reconcileActive_success env cd w :
  (reconcileActive env cd w).1 = Returned None →
  ∃ l w1 cd1,
    CertmanOperatorFinalizerLabel env ∈ l
    ∧ crs w1 = crs w
    ∧ syncCertificateRequests env (withFinalizers cd l) w1
      = (None, cd1, (reconcileActive env cd w).2)
    ∧ (l = cd_Finalizers cd ∧ cds w1 = cds w
       ∨ cds w1 = <[cdKey cd := withFinalizers cd l]> (cds w)).
Proof.
  unfold reconcileActive, addFinalizer, ContainsString, DeepCopy.
  destruct (decide (CertmanOperatorFinalizerLabel env ∈ cd_Finalizers cd)) as [Hin|Hnotin].
  - rewrite bool_decide_true by done. simpl. intros Hok.
    exists (cd_Finalizers cd), w. rewrite withFinalizers_same.
    destruct (syncCertificateRequests env cd w) as [[e cd1] w1].
    destruct e; [done|]. exists cd1. simpl. repeat split; try done. by left.
  - rewrite bool_decide_false by done. simpl.
    destruct (clientPatchCD env _ w) as [e w1] eqn:Hpatch.
    apply clientPatchCD_effect in Hpatch as (Hcrs & _ & _ & Hcd).
    destruct e as [err|]; [done|]. destruct Hcd as [_ Hcd]. intros Hok.
    rewrite patched_kept in Hcd by apply snoc_not_nil.
    exists (cd_Finalizers cd ++ [CertmanOperatorFinalizerLabel env]), w1.
    destruct (syncCertificateRequests env _ w1) as [[e cd1] w2].
    destruct e; [done|]. exists cd1. simpl. repeat split; try done.
    + apply elem_of_app. right. apply list_elem_of_here.
    + by right.
Qed.

Lemma reconcileActive_noFaults env cd w :
  noFaults env → wfStore (crs w) → is_Some (cds w !! cdKey cd) →
  (reconcileActive env cd w).1 = Returned None.
Proof.
  intros Hnf Hwf [x Hx]. unfold reconcileActive, addFinalizer, DeepCopy.
  destruct (negb _).
  - unfold clientPatchCD, faultNow. rewrite Hnf. simpl.
    change (cdKey (withFinalizers cd _)) with (cdKey cd). rewrite Hx.
    set (cd' := withFinalizers cd _). set (w1 := called _ _ _).
    pose proof (syncCertificateRequests_noFaults env cd' w1 Hnf Hwf) as Hn.
    destruct (syncCertificateRequests env cd' w1) as [[e cd1] w2]. simpl in *. by subst e.
  - pose proof (syncCertificateRequests_noFaults env cd w Hnf Hwf) as Hn.
    destruct (syncCertificateRequests env cd w) as [[e cd1] w2]. simpl in *. by subst e.
Qed.

Lemma Reconcile_active env request w cd :
  wfCDs (cds w) → cds w !! request = Some cd → passesGates cd →
  IsZero (cd_DeletionTimestamp cd) = true →
  (∃ err w0, clientGetCD env request w = (Err err, w0) ∧ IsNotFound err = false)
  ∨ ∃ w0, clientGetCD env request w = (Ok cd, w0)
          ∧ Reconcile env request w = reconcileActive env cd w0.
Proof.
  intros Hwf Hcd Hgates Hzero.
  destruct (clientGetCD env request w) as [[cd0|err] w0] eqn:Hget.
  - right. exists w0.
    destruct (clientGetCD_reads _ _ _ _ _ Hget) as [_ Hcd0].
    specialize (Hcd0 cd0 eq_refl). rewrite Hcd in Hcd0. simplify_eq. split; [done|].
    by rewrite (Reconcile_gates _ _ _ _ _ Hget Hgates), Hzero.
  - left. exists err, w0. split; [done|].
    unfold clientGetCD, faultNow in Hget. rewrite Hcd in Hget. by branches; faults.
Qed.

(** X19. A pass that returned no error is not followed by writes.  In a
    store that keeps every object under its own namespace and name, after
    a pass over a resource that passed the gates, is not under deletion and
    has desired requests of pairwise distinct names, if the pass returned
    no error then the stored resource has the finalizer, and the next pass
    for the same request creates, updates, deletes and patches nothing,
    whatever fails in it. *)
Theorem successful_pass_is_fixpoint env request w cd :
  wfStore (crs w) → wfCDs (cds w) →
  cds w !! request = Some cd →
  passesGates cd →
  IsZero (cd_DeletionTimestamp cd) = true →
  NoDup (cr_Name <$> desiredOf env cd) →
  let r1 := Reconcile env request w in
  r1.1 = Returned None →
  let r2 := Reconcile env request r1.2 in
  (∃ l, cds r1.2 !! request = Some (withFinalizers cd l) ∧ CertmanOperatorFinalizerLabel env ∈ l)
  ∧ crWrites (trace r2.2) = crWrites (trace r1.2)
  ∧ patches (trace r2.2) = patches (trace r1.2)
  ∧ crs r2.2 = crs r1.2 ∧ cds r2.2 = cds r1.2.
Proof.
  intros Hwf Hwfc Hcd Hgates Hzero Hnd r1 Hok r2.
  pose proof (Hwfc _ _ Hcd) as Hkey.
  assert (Hfirst : ∃ l, cds r1.2 !! request = Some (withFinalizers cd l)
                        ∧ CertmanOperatorFinalizerLabel env ∈ l
                        ∧ wfCDs (cds r1.2)
                        ∧ (∀ d, d ∈ desiredOf env cd →
                             ∃ c, crs r1.2 !! crKey d = Some c ∧ cr_Spec c = cr_Spec d)
                        ∧ (∀ c, c ∈ listed (cd_Namespace cd) (crs r1.2) →
                             cr_Name c ∈ cr_Name <$> desiredOf env cd)).
  { subst r1.
    destruct (Reconcile_active env request w cd Hwfc Hcd Hgates Hzero)
      as [(err & w0 & Hget & Hnf)|(w0 & Hget & Hrun)].
    { unfold Reconcile in Hok. rewrite Hget, Hnf in Hok. done. }
    rewrite Hrun in *.
    apply clientGetCD_reads in Hget as [(Hcrs0 & Hcds0 & _) _].
    destruct (reconcileActive_success env cd w0 Hok) as (l & w1 & cd1 & Hin & Hcrs1 & Hsync & Hc).
    assert (Hwf1 : wfStore (crs w1)) by by rewrite Hcrs1, Hcrs0.
    destruct (syncCertificateRequests_patches env (withFinalizers cd l) w1) as [Hcds2 _].
    rewrite Hsync in Hcds2. simpl in Hcds2.
    destruct (syncCertificateRequests_success env (withFinalizers cd l) w1 cd1 _ Hwf1 Hnd Hsync)
      as (_ & _ & H1 & H2).
    exists l. rewrite Hcds2. repeat split; try done.
    - destruct Hc as [[-> ->]| ->].
      + by rewrite Hcds0, Hcd, withFinalizers_same.
      + by rewrite Hkey, lookup_insert_eq.
    - destruct Hc as [[-> ->]| ->]; [by rewrite Hcds0|].
      intros k c. rewrite Hcds0, lookup_insert. case_decide; [|by apply Hwfc].
      intros [= <-]. by simplify_eq. }
  destruct Hfirst as (l & Hcd1 & Hin & Hwfc1 & H1 & H2). split; [by exists l|].
  subst r2.
  destruct (Reconcile_active env request r1.2 (withFinalizers cd l) Hwfc1 Hcd1 Hgates Hzero)
    as [(err & w2 & Hget & Hnf)|(w2 & Hget & Hrun)].
  { unfold Reconcile. rewrite Hget, Hnf.
    apply clientGetCD_reads in Hget as [Hro _].
    pose proof (readOnly_patches _ _ Hro) as Hp. pose proof (readOnly_crWrites _ _ Hro) as Hw.
    destruct Hro as (Hc & Hc' & _). simpl. views. done. }
  rewrite Hrun.
  apply clientGetCD_reads in Hget as [Hro _].
  pose proof (readOnly_patches _ _ Hro) as Hp. pose proof (readOnly_crWrites _ _ Hro) as Hw.
  destruct Hro as (Hc & Hc' & _).
  destruct (reconcileActive_with_finalizer env (withFinalizers cd l) w2 Hin)
    as (-> & -> & -> & ->).
  destruct (syncCertificateRequests_patches env (withFinalizers cd l) w2) as [-> ->].
  destruct (syncCertificateRequests_settled env (withFinalizers cd l) w2) as [-> ->];
    [by rewrite Hc..|].
  done.
Qed.

(** The cluster before its first pass: one create and one patch over two
    passes. *)
Lemma successful_pass_is_fixpoint_witness :
  let w := Scenario.world Cases.fresh [] in
  let r1 := Reconcile Scenario.env Scenario.request w in
  let r2 := Reconcile Scenario.env Scenario.request r1.2 in
  length (storeWrites (trace r1.2)) = 2%nat
  ∧ crWrites (trace r2.2) = crWrites (trace r1.2)
  ∧ patches (trace r2.2) = patches (trace r1.2).
Proof.
  intros w r1 r2. split; [vm_compute; reflexivity|].
  assert (Hwf : wfCDs (cds w)).
  { intros k cd Hk. simpl in Hk. apply lookup_singleton_Some in Hk as [<- <-]. done. }
  assert (Hgates : passesGates Cases.fresh) by (repeat split; vm_compute; done).
  destruct (successful_pass_is_fixpoint Scenario.env Scenario.request w Cases.fresh
              (wfStore_world _ _) Hwf ltac:(vm_compute; reflexivity) Hgates eq_refl
              ltac:(apply (bool_decide_unpack _); vm_compute; exact I)
              ltac:(vm_compute; reflexivity))
    as (_ & Hw & Hp & _).
  split; [exact Hw|exact Hp].
Defined.

(** X20. One pass whose calls do not fail settles an active cluster.  In
    a store that keeps every object under its own namespace and name, for
    a stored resource that passes the gates, is not under deletion and has
    desired requests of pairwise distinct names, the pass returns no
    error, the stored resource has the finalizer, every desired request is
    stored with its spec, and every stored request of the namespace has the
    name of a desired one. *)
Theorem Reconcile_settles_active env request w cd :
  noFaults env → wfStore (crs w) → wfCDs (cds w) →
  cds w !! request = Some cd →
  passesGates cd →
  IsZero (cd_DeletionTimestamp cd) = true →
  NoDup (cr_Name <$> desiredOf env cd) →
  let r := Reconcile env request w in
  r.1 = Returned None
  ∧ (∃ l, cds r.2 !! request = Some (withFinalizers cd l) ∧ CertmanOperatorFinalizerLabel env ∈ l)
  ∧ (∀ d, d ∈ desiredOf env cd → ∃ c, crs r.2 !! crKey d = Some c ∧ cr_Spec c = cr_Spec d)
  ∧ (∀ c, c ∈ listed (cd_Namespace cd) (crs r.2) → cr_Name c ∈ cr_Name <$> desiredOf env cd).
Proof.
  intros Hnf Hwf Hwfc Hcd Hgates Hzero Hnd r. subst r.
  pose proof (Hwfc _ _ Hcd) as Hkey.
  destruct (Reconcile_active env request w cd Hwfc Hcd Hgates Hzero)
    as [(err & w0 & Hget & _)|(w0 & Hget & Hrun)].
  { unfold clientGetCD, faultNow in Hget. rewrite Hnf, Hcd in Hget. done. }
  rewrite Hrun.
  apply clientGetCD_reads in Hget as [(Hcrs0 & Hcds0 & _) _].
  assert (Hwf0 : wfStore (crs w0)) by by rewrite Hcrs0.
  assert (Hsome : is_Some (cds w0 !! cdKey cd)) by by rewrite Hcds0, Hkey, Hcd.
  pose proof (reconcileActive_noFaults env cd w0 Hnf Hwf0 Hsome) as Hok.
  split; [done|].
  destruct (reconcileActive_success env cd w0 Hok) as (l & w1 & cd1 & Hin & Hcrs1 & Hsync & Hc).
  assert (Hwf1 : wfStore (crs w1)) by by rewrite Hcrs1.
  destruct (syncCertificateRequests_success env (withFinalizers cd l) w1 cd1 _ Hwf1 Hnd Hsync)
    as (_ & _ & H1 & H2).
  split; [|by split].
  destruct (syncCertificateRequests_patches env (withFinalizers cd l) w1) as [Hcds2 _].
  rewrite Hsync in Hcds2. simpl in Hcds2.
  exists l. rewrite Hcds2. split; [|done].
  destruct Hc as [[-> ->]| ->].
  - by rewrite Hcds0, Hcd, withFinalizers_same.
  - by rewrite Hkey, lookup_insert_eq.
Qed.

(** The cluster before its first pass, with a stale request stored. *)
Lemma Reconcile_settles_active_witness :
  let w := Scenario.world Cases.fresh [Scenario.stored "stale" "stale-secret" Cases.fresh] in
  let r := Reconcile Scenario.env Scenario.request w in
  r.1 = Returned None
  ∧ ∀ c, c ∈ listed "ns" (crs r.2) → cr_Name c ∈ ["foo-default"].
Proof.
  intros w r.
  assert (Hwf : wfCDs (cds w)).
  { intros k cd Hk. simpl in Hk. apply lookup_singleton_Some in Hk as [<- <-]. done. }
  assert (Hgates : passesGates Cases.fresh) by (repeat split; vm_compute; done).
  destruct (Reconcile_settles_active Scenario.env Scenario.request w Cases.fresh
              ltac:(intros n c; reflexivity) (wfStore_world _ _) Hwf
              ltac:(vm_compute; reflexivity) Hgates eq_refl
              ltac:(apply (bool_decide_unpack _); vm_compute; exact I))
    as (H1 & _ & _ & H3).
  split; [exact H1|exact H3].
Defined.

(** ** Where a pass can panic *)

Lemma Split_nonempty (v : string) (sep : ascii) : strings.Split v sep ≠ [].
Proof.
  induction v as [|c v IH]; [done|]. simpl.
  destruct (Ascii.eqb c sep); [done|]. by destruct (strings.Split v sep).
Qed.

Lemma Split_single (v : string) (sep : ascii) :
  strings.Split v sep !! 1%nat = None → sep ∉ list_ascii_of_string v.
Proof.
  induction v as [|c v IH]; intros Hnone; [by intros ?%elem_of_nil|]. simpl in *.
  destruct (Ascii.eqb_spec c sep) as [->|Hne].
  - pose proof (Split_nonempty v sep). by destruct (strings.Split v sep).
  - apply not_elem_of_cons. split; [done|]. apply IH.
    pose proof (Split_nonempty v sep). by destruct (strings.Split v sep).
Qed.

Lemma reconcileDelete_returns env cd w : ∃ e, (reconcileDelete env cd w).1 = Returned e.
Proof.
  unfold reconcileDelete. destruct (ContainsString _ _); [|by eexists].
  destruct (handleDelete env cd w) as [[err|] w1]; [by eexists|].
  destruct (clientPatchCD env _ w1) as [[err|] w2]; by eexists.
Qed.

Lemma reconcileActive_returns env cd w : ∃ e, (reconcileActive env cd w).1 = Returned e.
Proof.
  unfold reconcileActive. destruct (addFinalizer env cd w) as [[cd1|err] w1]; [|by eexists].
  destruct (syncCertificateRequests env cd1 w1) as [[[err|] cd2] w2]; by eexists.
Qed.

(** X21. A pass panics at the relocation gate and nowhere else: when a
    pass ends in a panic, the resource of the request is stored, managed,
    not fake and installed, its relocation annotation is set to a value
    without a separator, and the pass has written nothing. *)
Theorem Reconcile_panics_only_at_gate env request w msg :
  (Reconcile env request w).1 = Panicked msg →
  ∃ cd v,
    cds w !! request = Some cd
    ∧ cd_Labels cd !! ClusterDeploymentManagedLabel = Some "true"
    ∧ cd_Annotations cd !! fakeClusterDeploymentAnnotation ≠ Some "true"
    ∧ spec_Installed (cd_Spec cd) = true
    ∧ cd_Annotations cd !! hiveRelocationAnnotation = Some v
    ∧ ("/"%char ∉ list_ascii_of_string v)
    ∧ readOnly w (Reconcile env request w).2.
Proof.
  unfold Reconcile.
  destruct (clientGetCD env request w) as [[cd|err] w0] eqn:Hget.
  2:{ by destruct (IsNotFound err). }
  apply clientGetCD_reads in Hget as [Hro Hcd]. specialize (Hcd cd eq_refl).
  unfold mapIndex.
  destruct (cd_Labels cd !! ClusterDeploymentManagedLabel) as [m|] eqn:Hm; [|done].
  destruct (String.eqb_spec m "true") as [->|Hne]; [|done]. simpl.
  assert (Hfake : (let '(val, ok) :=
                     match cd_Annotations cd !! fakeClusterDeploymentAnnotation with
                     | Some val => (val, true)
                     | None => (EmptyString, false)
                     end in ok && String.eqb val "true") = true
                  ∨ cd_Annotations cd !! fakeClusterDeploymentAnnotation ≠ Some "true").
  { destruct (cd_Annotations cd !! fakeClusterDeploymentAnnotation) as [f|]; [|by right].
    simpl. destruct (String.eqb_spec f "true"); [by left|right; congruence]. }
  destruct (match cd_Annotations cd !! fakeClusterDeploymentAnnotation with
            | Some val => (val, true)
            | None => (EmptyString, false)
            end) as [val ok].
  destruct (ok && String.eqb val "true"); [done|].
  destruct Hfake as [?|Hfake]; [done|].
  destruct (spec_Installed (cd_Spec cd)) eqn:Hinst; [|done]. simpl.
  rewrite relocationLoop_lookup.
  destruct (cd_Annotations cd !! hiveRelocationAnnotation) as [v|] eqn:Hv.
  2:{ destruct (negb _).
      - destruct (reconcileDelete_returns env cd w0) as [e ->]. done.
      - destruct (reconcileActive_returns env cd w0) as [e ->]. done. }
  unfold relocationOf.
  destruct (strings.Split v "/" !! 1%nat) as [piece|] eqn:Hsplit.
  - destruct (String.eqb piece hiveRelocationOutgoingValue); [done|].
    destruct (negb _).
    + destruct (reconcileDelete_returns env cd w0) as [e ->]. done.
    + destruct (reconcileActive_returns env cd w0) as [e ->]. done.
  - intros _. exists cd, v. repeat split; try done; try apply Hro.
    by apply Split_single.
Qed.

(** The cluster whose relocation annotation is the bare word outgoing. *)
Lemma Reconcile_panics_only_at_gate_witness :
  ∃ cd v,
    cds (Scenario.world Scenario.relocating []) !! Scenario.request = Some cd
    ∧ cd_Annotations cd !! hiveRelocationAnnotation = Some v
    ∧ ("/"%char ∉ list_ascii_of_string v).
Proof.
  destruct (Reconcile_panics_only_at_gate Scenario.env Scenario.request
              (Scenario.world Scenario.relocating [])
              "index out of range [1] with length 1" ltac:(vm_compute; reflexivity))
    as (cd & v & Hcd & _ & _ & _ & Hv & Hsep & _).
  by exists cd, v.
Defined.

(** ** The listing *)

(** X22. The listing returns every request the store holds in the
    namespace of the cluster resource, whatever owner references it has,
    and nothing else; when the list call fails its error is logged and
    returned.  Either way the store is left as it was. *)
Theorem getCurrentCertificateRequests_whole_namespace env cd w :
  let r := getCurrentCertificateRequests env cd w in
  readOnly w r.2
  ∧ match r.1 with
    | Ok currentCRs =>
        (∀ c, c ∈ currentCRs ↔ ∃ k, crs w !! k = Some c ∧ cr_Namespace c = cd_Namespace cd)
        ∧ errorLogs (trace r.2) = errorLogs (trace w)
    | Err err =>
        ∃ msg, fault env (clock w) (CallListCR (cd_Namespace cd)) = Some msg
          ∧ err = ErrOther msg
          ∧ errorLogs (trace r.2) = errorLogs (trace w) ++ [err]
    end.
Proof.
  intros r. subst r.
  destruct (getCurrentCertificateRequests env cd w) as [r w1] eqn:Hget.
  destruct (getCurrentCertificateRequests_reads _ _ _ _ _ Hget) as [Hro Hcur].
  split; [done|]. simpl.
  unfold getCurrentCertificateRequests, clientListCR, faultNow in Hget.
  destruct (fault env (clock w) (CallListCR (cd_Namespace cd))) as [msg|] eqn:Hf;
    simpl in Hget; simplify_eq; simpl.
  - exists msg. repeat split. by views.
  - split; [|by views]. intros c. apply elem_of_listed.
Qed.
